(** * Metacritic games scraper: extraction, pagination and merge

    A shallow embedding of [Metacritic-games-scraper.py].  The script has
    these parts, and so has this file:

    - [fetch_and_parse] and the two [while True] pagination loops (the
      unfiltered catalogue and one loop per platform);
    - [extract_game_data], which turns the product cards of a parsed page
      into dictionaries of five fields;
    - [merge_platform_dfs], which adds the [platforms] and
      [platform_scores] columns to the catalogue frame;
    - the statements between the functions, which run the loops, keep the
      platform frames in a dictionary and write the files.

    Python's [str] is embedded as [string]; a character is a code point
    below 256, and the character classes of [re] and [str.strip] are the
    ones CPython uses for [str] patterns on that range. *)

From Stdlib Require Import ZArith Ascii String DecimalString DecimalNat Lia.
From stdpp Require Import base option list strings.

Local Open Scope string_scope.
Local Open Scope nat_scope.
Local Open Scope list_scope.

(** ** Python values and exceptions *)

Module Py.

(** The exceptions the script can meet. *)
Inductive exn : Type :=
| ValueError
| IndexError
| KeyError (key : string)
| TypeError
| AttributeError
| RequestException
| ParserRejectedMarkup
| UnicodeEncodeError.

(** A computation either returns a value or raises. *)
Inductive result (A : Type) : Type :=
| Ok (a : A)
| Raise (e : exn).
Arguments Ok {A} a.
Arguments Raise {A} e.

Definition bind {A B} (m : result A) (k : A -> result B) : result B :=
  match m with
  | Ok a => k a
  | Raise e => Raise e
  end.

(** The values stored in the dictionaries the extractor builds. *)
Inductive value : Type :=
| None_
| Str (s : string).

Definition is_str (v : value) : bool :=
  match v with Str _ => true | None_ => false end.

Definition of_option (o : option string) : value :=
  match o with Some s => Str s | None => None_ end.

End Py.

#[global] Instance result_ret : MRet Py.result := @Py.Ok.
#[global] Instance result_bind : MBind Py.result := fun A B k m => Py.bind m k.

(** ** Strings *)

Module Str.

Definition code (c : ascii) : nat := nat_of_ascii c.

Definition between (lo hi : nat) (c : ascii) : bool :=
  (lo <=? code c) && (code c <=? hi).

(** [Py_UNICODE_ISSPACE] below U+0100: used by [str.strip], [\s]. *)
Definition isspace (c : ascii) : bool :=
  between 9 13 c || between 28 32 c || (code c =? 133) || (code c =? 160).

(** [Py_UNICODE_ISDECIMAL] below U+0100: the class [\d]. *)
Definition isdecimal (c : ascii) : bool := between 48 57 c.

(** [Py_UNICODE_ISALNUM] or underscore, below U+0100: the class [\w]. *)
Definition isword (c : ascii) : bool :=
  between 48 57 c || between 65 90 c || between 97 122 c || (code c =? 95)
  || (code c =? 170) || between 178 179 c || (code c =? 181)
  || between 185 186 c || between 188 190 c
  || between 192 214 c || between 216 246 c || between 248 255 c.

(** ASCII lower-casing, the case folding of [re.IGNORECASE] for the letters
    of the month names. *)
Definition lower (c : ascii) : ascii :=
  if between 65 90 c then ascii_of_nat (code c + 32) else c.

Fixpoint lstrip (s : string) : string :=
  match s with
  | EmptyString => EmptyString
  | String c s' => if isspace c then lstrip s' else s
  end.

Fixpoint rstrip (s : string) : string :=
  match s with
  | EmptyString => EmptyString
  | String c s' =>
      match rstrip s' with
      | EmptyString => if isspace c then EmptyString else String c EmptyString
      | r => String c r
      end
  end.

(** [s.strip()] *)
Definition strip (s : string) : string := rstrip (lstrip s).

(** [c in s] for a one-character [c]. *)
Fixpoint contains (c : ascii) (s : string) : bool :=
  match s with
  | EmptyString => false
  | String x s' => Ascii.eqb x c || contains c s'
  end.

(** [s.split(sep)] for a one-character [sep]. *)
Fixpoint split (sep : ascii) (s : string) : list string :=
  match s with
  | EmptyString => [EmptyString]
  | String c s' =>
      if Ascii.eqb c sep then EmptyString :: split sep s'
      else match split sep s' with
           | h :: t => String c h :: t
           | [] => [String c EmptyString]
           end
  end.

(** [sep.join(l)] *)
Definition join (sep : string) (l : list string) : string :=
  String.concat sep l.

(** [str(n)] for a non-negative integer. *)
Definition of_nat (n : nat) : string := NilZero.string_of_uint (Nat.to_uint n).

(** [str(n)] and [int(s)] for the numbers of a date, kept in binary. *)
Definition of_N (n : N) : string := NilZero.string_of_uint (N.to_uint n).

Definition digit_val (c : ascii) : N := N.of_nat (code c - 48).

Fixpoint to_N_acc (acc : N) (s : string) : N :=
  match s with
  | EmptyString => acc
  | String c s' => to_N_acc (10 * acc + digit_val c)%N s'
  end.

Definition to_N (s : string) : N := to_N_acc 0%N s.

End Str.

(** ** Regular expressions

    A backtracking matcher in the style of [re]: [run r st] lists, in the
    order the engine tries them, the states in which a match of [r] started
    in [st] can end.  The first one is the match [re] reports. *)

Module Re.

Inductive regex : Type :=
| Eps
| Bol                              (* ^ *)
| Chr (p : ascii -> bool)          (* a character class *)
| Cat (r1 r2 : regex)
| Alt (r1 r2 : regex)              (* r1|r2 *)
| Star (r : regex)                 (* r*, greedy *)
| Group (n : nat) (r : regex).     (* the n-th capturing group *)

Record mstate : Type := MState {
  pos : nat;                       (* offset in the subject string *)
  rest : string;                   (* the subject from [pos] on *)
  caps : list (nat * string)       (* groups captured so far, latest first *)
}.

Definition start (i : nat) (s : string) : mstate :=
  {| pos := i; rest := s; caps := [] |}.

Definition advance (s' : string) (st : mstate) : mstate :=
  {| pos := S (pos st); rest := s'; caps := caps st |}.

Definition capture (n : nat) (from to : mstate) : mstate :=
  {| pos := pos to; rest := rest to;
     caps := (n, String.substring 0 (pos to - pos from) (rest from)) :: caps to |}.

(** Greedy iteration; an iteration that consumes nothing is not repeated. *)
Fixpoint star_from (step : mstate -> list mstate) (fuel : nat) (st : mstate)
  : list mstate :=
  match fuel with
  | 0 => [st]
  | S fuel' =>
      flat_map
        (fun st' =>
           if String.length (rest st') <? String.length (rest st)
           then star_from step fuel' st' else [])
        (step st) ++ [st]
  end.

Fixpoint run (r : regex) (st : mstate) : list mstate :=
  match r with
  | Eps => [st]
  | Bol => if pos st =? 0 then [st] else []
  | Chr p =>
      match rest st with
      | String c s' => if p c then [advance s' st] else []
      | EmptyString => []
      end
  | Cat r1 r2 => flat_map (run r2) (run r1 st)
  | Alt r1 r2 => run r1 st ++ run r2 st
  | Star r1 => star_from (run r1) (String.length (rest st)) st
  | Group n r1 => map (capture n st) (run r1 st)
  end.

(** Derived forms. *)
Definition chr (c : ascii) : regex := Chr (Ascii.eqb c).
Definition chr_i (c : ascii) : regex := Chr (fun x => Ascii.eqb (Str.lower x) c).
Definition Opt (r : regex) : regex := Alt r Eps.        (* r?  *)
Definition Plus (r : regex) : regex := Cat r (Star r).  (* r+  *)

Fixpoint lit (s : string) : regex :=
  match s with
  | EmptyString => Eps
  | String c s' => Cat (chr c) (lit s')
  end.

Fixpoint lit_i (s : string) : regex :=
  match s with
  | EmptyString => Eps
  | String c s' => Cat (chr_i c) (lit_i s')
  end.

Fixpoint alts (rs : list regex) : regex :=
  match rs with
  | [] => Chr (fun _ => false)
  | [r] => r
  | r :: rs' => Alt r (alts rs')
  end.

(** A match object: where the match starts, and the final matcher state. *)
Record match_obj : Type := Match { m_start : nat; m_end : mstate }.

(** [m.group(n)] for [n >= 1]: [None] when the group took no part. *)
Fixpoint assoc (n : nat) (l : list (nat * string)) : option string :=
  match l with
  | [] => None
  | (k, v) :: l' => if k =? n then Some v else assoc n l'
  end.

Definition group (n : nat) (m : match_obj) : option string :=
  assoc n (caps (m_end m)).

(** The pattern tried at offset [i], where the subject continues with [s]. *)
Definition match_at (r : regex) (i : nat) (s : string) : option match_obj :=
  match run r (start i s) with
  | st :: _ => Some (Match i st)
  | [] => None
  end.

(** [re.search]: the first offset, from the left, at which [r] matches. *)
Fixpoint search_from (r : regex) (i : nat) (s : string) : option match_obj :=
  match match_at r i s with
  | Some m => Some m
  | None =>
      match s with
      | EmptyString => None
      | String _ s' => search_from r (S i) s'
      end
  end.

Definition search (r : regex) (s : string) : option match_obj :=
  search_from r 0 s.

(** [re.sub(r, repl, s)] for a replacement without back-references: the
    non-overlapping matches, leftmost first, are replaced.  (Matches of
    length zero, which no pattern of this program has, are left alone.) *)
Fixpoint sub_from (r : regex) (repl : string) (fuel i : nat) (s : string)
  : string :=
  match fuel with
  | 0 => s
  | S fuel' =>
      let copy :=
        match s with
        | EmptyString => EmptyString
        | String c s' => String c (sub_from r repl fuel' (S i) s')
        end in
      match match_at r i s with
      | Some m =>
          if i <? pos (m_end m)
          then repl +:+ sub_from r repl fuel' (pos (m_end m)) (rest (m_end m))
          else copy
      | None => copy
      end
  end.

Definition sub (r : regex) (repl s : string) : string :=
  sub_from r repl (S (String.length s)) 0 s.

(** The words a pattern matches, read off the pattern alone: what [run]
    is meant to enumerate.  [Bol] consumes nothing; where it may stand is
    the matcher's business. *)
Inductive star (L : string -> Prop) : string -> Prop :=
| star_nil : star L EmptyString
| star_cons w1 w2 :
    L w1 -> w1 <> EmptyString -> star L w2 -> star L (w1 +:+ w2).

Fixpoint lang (r : regex) (w : string) : Prop :=
  match r with
  | Eps | Bol => w = EmptyString
  | Chr p => exists c, w = String c EmptyString /\ p c = true
  | Cat r1 r2 => exists w1 w2, w = w1 +:+ w2 /\ lang r1 w1 /\ lang r2 w2
  | Alt r1 r2 => lang r1 w \/ lang r2 w
  | Star r1 => star (lang r1) w
  | Group _ r1 => lang r1 w
  end.

(** No class of [r] accepts the character [c]. *)
Fixpoint avoids (c : ascii) (r : regex) : bool :=
  match r with
  | Eps | Bol => true
  | Chr p => negb (p c)
  | Cat r1 r2 | Alt r1 r2 => avoids c r1 && avoids c r2
  | Star r1 | Group _ r1 => avoids c r1
  end.

Fixpoint bol_free (r : regex) : bool :=
  match r with
  | Eps | Chr _ => true
  | Bol => false
  | Cat r1 r2 | Alt r1 r2 => bol_free r1 && bol_free r2
  | Star r1 | Group _ r1 => bol_free r1
  end.

End Re.

(** ** Dates: [datetime.strptime(_, "%b %d, %Y")] and [strftime("%Y-%m-%d")] *)

Module Datetime.

Record date : Type := Date { year : N; month : N; day : N }.

Definition is_leap (y : N) : bool :=
  ((y mod 4 =? 0) && (negb (y mod 100 =? 0) || (y mod 400 =? 0)))%N.

Definition days_in_month (y m : N) : N :=
  match m with
  | 2 => if is_leap y then 29 else 28
  | 4 | 6 | 9 | 11 => 30
  | _ => 31
  end%N.

Definition MINYEAR : N := 1.
Definition MAXYEAR : N := 9999.

(** The range check of the [datetime] constructor; outside it the
    constructor raises [ValueError]. *)
Definition valid (y m d : N) : bool :=
  ((MINYEAR <=? y) && (y <=? MAXYEAR) && (1 <=? m) && (m <=? 12)
   && (1 <=? d) && (d <=? days_in_month y m))%N.

(** Abbreviated month names of the C locale, as [_strptime] keeps them. *)
Definition a_month : list string :=
  ["jan"; "feb"; "mar"; "apr"; "may"; "jun";
   "jul"; "aug"; "sep"; "oct"; "nov"; "dec"].

Definition digit : Re.regex := Re.Chr Str.isdecimal.
Definition range (lo hi : nat) : Re.regex := Re.Chr (Str.between lo hi).
Definition spaces : Re.regex := Re.Plus (Re.Chr Str.isspace).

(** [%d]: [3[0-1]|[1-2]\d|0[1-9]|[1-9]| [1-9]] *)
Definition day_re : Re.regex :=
  Re.alts [ Re.Cat (Re.chr "3") (range 48 49);
            Re.Cat (range 49 50) digit;
            Re.Cat (Re.chr "0") (range 49 57);
            range 49 57;
            Re.Cat (Re.chr " ") (range 49 57) ].

(** The pattern [_strptime] compiles for ["%b %d, %Y"], with
    [re.IGNORECASE]: the groups [b], [d] and [Y] are numbered 1, 2 and 3,
    and each run of blanks of the format has become [\s+]. *)
Definition format_re : Re.regex :=
  Re.Cat (Re.Group 1 (Re.alts (map Re.lit_i a_month)))
    (Re.Cat spaces
       (Re.Cat (Re.Group 2 day_re)
          (Re.Cat (Re.chr ",")
             (Re.Cat spaces
                (Re.Group 3 (Re.Cat digit (Re.Cat digit (Re.Cat digit digit)))))))).

Fixpoint index_of (s : string) (l : list string) : option nat :=
  match l with
  | [] => None
  | x :: l' => if String.eqb x s then Some 0 else S <$> index_of s l'
  end.

Fixpoint map_string (f : ascii -> ascii) (s : string) : string :=
  match s with
  | EmptyString => EmptyString
  | String c s' => String (f c) (map_string f s')
  end.

(** [datetime.strptime(data_string, "%b %d, %Y")].  [ValueError] when the
    pattern does not match at the start, when text is left over, and when
    the [datetime] constructor rejects the numbers. *)
Definition strptime (data_string : string) : Py.result date :=
  match Re.match_at format_re 0 data_string with
  | None => Py.Raise Py.ValueError
  | Some found =>
      if negb (String.length data_string =? Re.pos (Re.m_end found))
      then Py.Raise Py.ValueError
      else
        match Re.group 1 found, Re.group 2 found, Re.group 3 found with
        | Some b, Some d, Some Y =>
            match index_of (map_string Str.lower b) a_month with
            | Some i =>
                let y := Str.to_N Y in
                let m := N.of_nat (S i) in
                let d := Str.to_N (Str.strip d) in
                if valid y m d then Py.Ok (Date y m d)
                else Py.Raise Py.ValueError
            | None => Py.Raise Py.ValueError          (* list.index *)
            end
        | None, _, _ => Py.Raise Py.AttributeError   (* None.lower() *)
        | _, _, _ => Py.Raise Py.TypeError           (* int(None) *)
        end
  end.

Fixpoint zeros (n : nat) : string :=
  match n with
  | 0 => EmptyString
  | S n' => String "0" (zeros n')
  end.

(** [s.zfill(width)] for a string of digits. *)
Definition zfill (width : nat) (s : string) : string :=
  zeros (width - String.length s) +:+ s.

(** [d.strftime("%Y-%m-%d")].  [%m] and [%d] are two digits.  [%Y] is the
    year in four digits from 1000 on; below, the C library decides whether
    it is padded with zeros, which [pad_year] records. *)
Definition strftime (pad_year : bool) (d : date) : string :=
  (if pad_year then zfill 4 (Str.of_N (year d)) else Str.of_N (year d))
  +:+ "-" +:+ zfill 2 (Str.of_N (month d))
  +:+ "-" +:+ zfill 2 (Str.of_N (day d)).

End Datetime.

(** ** Parsed pages

    A page is seen through the queries the script makes of it.  A tag is
    its descendant text nodes in document order, which is all [get_text]
    reads; [find] gives the first matching [div] or [None]. *)

Module Bs4.

Definition tag : Type := list string.

(** [tag.get_text(separator, strip)]: the text nodes, each stripped and the
    empty ones left out when [strip] is set, joined by [separator]. *)
Definition all_strings (strip : bool) (t : tag) : list string :=
  if strip
  then filter (fun s => s <> EmptyString) (map Str.strip t)
  else t.

Definition get_text (separator : string) (strip : bool) (t : tag) : string :=
  Str.join separator (all_strings strip t).

(** One [a.c-finderProductCard_container] element and the four [div]s the
    script looks for inside it. *)
Record card : Type := Card {
  find_title : option tag;         (* div.c-finderProductCard_title *)
  find_meta : option tag;          (* div.c-finderProductCard_meta *)
  find_description : option tag;   (* div.c-finderProductCard_description *)
  find_metascore : option tag      (* div.c-siteReviewScore *)
}.

(** The parsed document; [find_all] stands for
    [soup.find_all("a", class_="c-finderProductCard_container")]. *)
Record soup : Type := Soup { find_all : list card }.

(** What [BeautifulSoup(content, "html.parser")] makes of a body: the
    tree, or [ParserRejectedMarkup] where the parser rejects the markup. *)
Inductive parsed : Type :=
| Tree (s : soup)
| RejectedMarkup.

End Bs4.

(** ** [requests] *)

Module Requests.

(** What [requests.get(url, headers=headers)] does: it returns a response,
    of which the script reads [status_code] and [content], or it raises (no
    connection, time-out, ...).  The body is kept as what
    [BeautifulSoup(response.content, "html.parser")] makes of it. *)
Inductive outcome : Type :=
| Response (status_code : Z) (content : Bs4.parsed)
| Fails.

End Requests.

(** What the script does to the outside: the lines it prints and the URLs
    it has asked [requests.get] for, both oldest first. *)
Record world : Type := World {
  stdout : list string;
  requested : list string
}.

Definition print (line : string) (w : world) : world :=
  {| stdout := stdout w ++ [line]; requested := requested w |}.

Definition sent (url : string) (w : world) : world :=
  {| stdout := stdout w; requested := requested w ++ [url] |}.

(** ** The records *)

(** The dictionary [extract_game_data] appends for one card. *)
Record game_data : Type := GameData {
  title : Py.value;
  release_date : Py.value;
  rating : Py.value;
  description : Py.value;
  metascore : Py.value
}.

(** [r",\d{3}"], [r"\d{1,3}"] and [r"\d{1,3}(,\d{3})*\."], the pattern of
    the title without its [^]. *)
Definition group_re : Re.regex :=
  let d := Re.Chr Str.isdecimal in
  Re.Cat (Re.chr ",") (Re.Cat d (Re.Cat d d)).

Definition lead_re : Re.regex :=
  let d := Re.Chr Str.isdecimal in
  Re.Cat d (Re.Opt (Re.Cat d (Re.Opt d))).

Definition enum_re : Re.regex :=
  Re.Cat lead_re (Re.Cat (Re.Star (Re.Group 1 group_re)) (Re.chr ".")).

(** [r"^\d{1,3}(,\d{3})*\."] *)
Definition title_re : Re.regex := Re.Cat Re.Bol enum_re.

(** [r"Rated\s+(\w+)"] *)
Definition rated_re : Re.regex :=
  Re.Cat (Re.lit "Rated")
    (Re.Cat (Re.Plus (Re.Chr Str.isspace))
       (Re.Group 1 (Re.Plus (Re.Chr Str.isword)))).

(** [l[0]] *)
Definition getitem0 {A} (l : list A) : Py.result A :=
  match l with
  | x :: _ => Py.Ok x
  | [] => Py.Raise Py.IndexError
  end.

Section Scraper.

(** The world outside the script: the server, asked by URL, and the C
    library's rendering of [%Y] for years below 1000. *)
Variable requests_get : string -> Requests.outcome.
Variable pad_year : bool.

(** *** [extract_game_data] *)

Definition extract_title (game : Bs4.card) : Py.value :=
  match Bs4.find_title game with
  | Some title_section =>
      Py.Str (Str.strip
                (Re.sub title_re "" (Bs4.get_text "" true title_section)))
  | None => Py.Str "Title not found"
  end.

(** The body of the [try]. *)
Definition try_release_date (meta_info : list string) : Py.result string :=
  release_date_str ←
    getitem0 (map Str.strip (filter (fun info => Str.contains "," info) meta_info));
  d ← Datetime.strptime release_date_str;
  mret (Datetime.strftime pad_year d).

(** [try: ... except (ValueError, IndexError): pass], starting from
    [release_date = "Unknown"]. *)
Definition extract_release_date (meta_info_section : Bs4.tag)
  : Py.result Py.value :=
  let meta_info := Str.split "|" (Bs4.get_text "|" true meta_info_section) in
  match try_release_date meta_info with
  | Py.Ok release_date => Py.Ok (Py.Str release_date)
  | Py.Raise Py.ValueError | Py.Raise Py.IndexError => Py.Ok (Py.Str "Unknown")
  | Py.Raise e => Py.Raise e
  end.

Definition extract_rating (meta_info_section : Bs4.tag) : Py.value :=
  let rating_text := Bs4.get_text "" false meta_info_section in
  match Re.search rated_re rating_text with
  | Some m => Py.of_option (Re.group 1 m)
  | None => Py.Str "Rating not found"
  end.

Definition extract_description (game : Bs4.card) : Py.value :=
  match Bs4.find_description game with
  | Some description_section => Py.Str (Bs4.get_text "" true description_section)
  | None => Py.Str "Description not found"
  end.

Definition extract_metascore (game : Bs4.card) : Py.value :=
  match Bs4.find_metascore game with
  | Some metascore_section => Py.Str (Bs4.get_text "" true metascore_section)
  | None => Py.Str "Metascore not available"
  end.

(** One turn of the [for game in game_listings] loop: the dictionary that
    is appended. *)
Definition extract_game (game : Bs4.card) : Py.result game_data :=
  let title := extract_title game in
  '(release_date, rating) ←
    match Bs4.find_meta game with
    | Some meta_info_section =>
        release_date ← extract_release_date meta_info_section;
        mret (release_date, extract_rating meta_info_section)
    | None => mret (Py.Str "Unknown", Py.Str "Rating not found")
    end;
  let description := extract_description game in
  let metascore := extract_metascore game in
  mret (GameData title release_date rating description metascore).

(** The loop, with [games_data] as accumulator. *)
Fixpoint extract_loop (games_data : list game_data) (game_listings : list Bs4.card)
  : Py.result (list game_data) :=
  match game_listings with
  | [] => mret games_data
  | game :: game_listings' =>
      d ← extract_game game;
      extract_loop (games_data ++ [d]) game_listings'
  end.

Definition extract_game_data (soup : Bs4.soup) : Py.result (list game_data) :=
  extract_loop [] (Bs4.find_all soup).

(** *** [fetch_and_parse] *)

Definition fetch_and_parse (url : string) (w : world)
  : Py.result (option Bs4.soup) * world :=
  let w := sent url w in
  match requests_get url with
  | Requests.Response status_code content =>
      if (status_code =? 200)%Z
      then match content with
           | Bs4.Tree soup => (Py.Ok (Some soup), w)
           | Bs4.RejectedMarkup => (Py.Raise Py.ParserRejectedMarkup, w)
           end
      else (Py.Ok None, print "Failed to retrieve the page" w)
  | Requests.Fails => (Py.Raise Py.RequestException, w)
  end.

(** *** The pagination loops

    The script has the same [while True] loop twice, once for the whole
    catalogue and once inside [for platform in platforms]; they differ in
    the URL only, which is [url_of page] here. *)

Record scrape : Type := Scrape {
  all_games_data : list game_data;
  page : nat;
  io : world
}.

(** How one turn of a loop ends. *)
Inductive flow : Type :=
| Continue
| Break
| Raised (e : Py.exn).

Definition loop_body (url_of : nat -> string) (st : scrape) : flow * scrape :=
  let url := url_of (page st) in
  let w := print ("Scraping " +:+ url) (io st) in
  match fetch_and_parse url w with
  | (Py.Raise e, w) => (Raised e, Scrape (all_games_data st) (page st) w)
  | (Py.Ok None, w) =>
      (Break,
       Scrape (all_games_data st) (page st)
         (print ("Failed to retrieve page " +:+ Str.of_nat (page st)
                 +:+ ". Exiting loop.") w))
  | (Py.Ok (Some soup), w) =>
      match Bs4.find_all soup with
      | [] =>
          (Break,
           Scrape (all_games_data st) (page st)
             (print ("No game listings found on page " +:+ Str.of_nat (page st)
                     +:+ ". Assuming end of pages and exiting loop.") w))
      | _ :: _ =>
          match extract_game_data soup with
          | Py.Ok page_data =>
              (Continue, Scrape (all_games_data st ++ page_data) (S (page st)) w)
          | Py.Raise e => (Raised e, Scrape (all_games_data st) (page st) w)
          end
      end
  end.

(** Where a loop stands after at most [fuel] turns. *)
Inductive progress : Type :=
| Finished (st : scrape)              (* left by [break] *)
| Crashed (e : Py.exn) (st : scrape)  (* left by an exception *)
| Running (st : scrape).              (* [fuel] turns made, loop still going *)

Fixpoint while_true (url_of : nat -> string) (fuel : nat) (st : scrape) : progress :=
  match fuel with
  | 0 => Running st
  | S fuel' =>
      match loop_body url_of st with
      | (Continue, st') => while_true url_of fuel' st'
      | (Break, st') => Finished st'
      | (Raised e, st') => Crashed e st'
      end
  end.

(** [all_games_data = []; page = 1; while True: ...] *)
Definition paginate (url_of : nat -> string) (fuel : nat) (w : world) : progress :=
  while_true url_of fuel (Scrape [] 1 w).

End Scraper.

(** The two URL templates, [base_url.format(page)] and
    [base_url.format(platform, platform, page)]. *)
Definition catalogue_url (page : nat) : string :=
  "https://www.metacritic.com/browse/game/?releaseYearMin=1958&releaseYearMax=2024&page="
  +:+ Str.of_nat page.

Definition platform_url (platform : string) (page : nat) : string :=
  "https://www.metacritic.com/browse/game/" +:+ platform
  +:+ "/all/all-time/metascore/?releaseYearMin=1958&releaseYearMax=2024&platform="
  +:+ platform +:+ "&page=" +:+ Str.of_nat page.

Definition platforms : list string :=
  ["ps5"; "xbox-series-x"; "nintendo-switch"; "pc"; "mobile"; "3ds";
   "dreamcast"; "ds"; "gba"; "gamecube"; "meta-quest"; "nintendo-64";
   "ps1"; "ps2"; "ps3"; "ps4"; "psp"; "ps-vita"; "wii"; "wii-u";
   "xbox"; "xbox-360"; "xbox-one"].

(** ** Dictionaries

    A [dict] with [str] keys is the list of its items in insertion order. *)

Module Dict.

(** [d[k] = v]: the value of a key that is there is replaced where it
    stands, a new key goes to the end. *)
Fixpoint setitem {V} (k : string) (v : V) (d : list (string * V))
  : list (string * V) :=
  match d with
  | [] => [(k, v)]
  | (k', v') :: d' =>
      if String.eqb k' k then (k', v) :: d' else (k', v') :: setitem k v d'
  end.

(** [d[k]] *)
Fixpoint getitem {V} (k : string) (d : list (string * V)) : Py.result V :=
  match d with
  | [] => Py.Raise (Py.KeyError k)
  | (k', v') :: d' => if String.eqb k' k then Py.Ok v' else getitem k d'
  end.

End Dict.

(** ** [merge_platform_dfs]

    A frame made by [pd.DataFrame(records)] is its list of rows; it has the
    five columns of the records when it has a row, and no column at all
    when [records] is empty.  A dictionary of frames is the list of its
    items in insertion order. *)

Module Merge.

Abbreviation DataFrame := (list game_data).

(** A row of [main_df] once the two list columns are there. *)
Record row : Type := Row {
  data : game_data;
  platforms : list string;
  platform_scores : list Py.value
}.

(** [dfs = {}; for x in names: dfs[x] = pd.DataFrame()] *)
Definition create_dfs (names : list string) : list (string * DataFrame) :=
  foldl (fun dfs x => Dict.setitem x [] dfs) [] names.

(** [a == b] on two cells of an object column. *)
Definition eq_value (a b : Py.value) : bool :=
  match a, b with
  | Py.Str x, Py.Str y => String.eqb x y
  | _, _ => false
  end.

(** [main_df["title"]]: [KeyError] on a frame without that column. *)
Definition getitem_title (main_df : list row) : Py.result (list Py.value) :=
  match main_df with
  | [] => Py.Raise (Py.KeyError "title")
  | _ :: _ => Py.Ok (map (fun r => title (data r)) main_df)
  end.

(** The index labels (0, 1, ...) at which a boolean mask holds. *)
Fixpoint index_where (i : nat) (mask : list bool) : list nat :=
  match mask with
  | [] => []
  | b :: mask' => if b then i :: index_where (S i) mask' else index_where (S i) mask'
  end.

(** [platform in l] *)
Definition has_platform (platform : string) (l : list string) : bool :=
  existsb (String.eqb platform) l.

(** The guarded pair of [append]s on one row. *)
Definition add_platform (platform : string) (score : Py.value) (r : row) : row :=
  if has_platform platform (platforms r) then r
  else Row (data r) (platforms r ++ [platform]) (platform_scores r ++ [score]).

(** One turn of [for i in matched_idx]. *)
Definition visit (platform : string) (platform_row : game_data)
    (main_df : list row) (i : nat) : list row :=
  alter (add_platform platform (metascore platform_row)) i main_df.

(** One turn of [for idx, platform_row in platform_df.iterrows()]. *)
Definition merge_row (platform : string) (main_df : list row)
    (platform_row : game_data) : Py.result (list row) :=
  titles ← getitem_title main_df;
  let matched_idx :=
    index_where 0 (map (fun t => eq_value t (title platform_row)) titles) in
  mret (foldl (visit platform platform_row) main_df matched_idx).

Fixpoint foldlM {A B} (f : A -> B -> Py.result A) (a : A) (l : list B)
  : Py.result A :=
  match l with
  | [] => mret a
  | x :: l' => a' ← f a x; foldlM f a' l'
  end.

(** One turn of [for platform, platform_df in platform_dfs.items()]. *)
Definition merge_frame (main_df : list row) (item : string * DataFrame)
  : Py.result (list row) :=
  foldlM (merge_row item.1) main_df item.2.

(** The two column assignments at the top. *)
Definition init_columns (main_df : DataFrame) : list row :=
  map (fun g => Row g [] []) main_df.

Definition merge_platform_dfs (main_df : DataFrame)
    (platform_dfs : list (string * DataFrame)) : Py.result (list row) :=
  foldlM merge_frame (init_columns main_df) platform_dfs.

End Merge.

(** ** Notions used in the statements *)

(** The five values of a record are all strings. *)
Definition all_fields_str (g : game_data) : bool :=
  Py.is_str (title g) && Py.is_str (release_date g) && Py.is_str (rating g)
  && Py.is_str (description g) && Py.is_str (metascore g).

(** Every character of [s] is in the class [p]. *)
Fixpoint all_chars (p : ascii -> bool) (s : string) : bool :=
  match s with
  | EmptyString => true
  | String c s' => p c && all_chars p s'
  end.

Fixpoint flatten (l : list string) : string :=
  match l with
  | [] => EmptyString
  | s :: l' => s +:+ flatten l'
  end.

(** An enumeration prefix, in words: one to three digits, then any number
    of groups made of a comma and three digits, then a period. *)
Definition enum_prefix (p : string) : Prop :=
  exists ds gs,
    p = ds +:+ flatten (map (String ",") gs) +:+ "."
    /\ 1 <= String.length ds <= 3 /\ all_chars Str.isdecimal ds = true
    /\ Forall (fun g => String.length g = 3
                        /\ all_chars Str.isdecimal g = true) gs.

(** The tokens of the metadata line, and the one the release date is read
    from: the first with a comma. *)
Definition meta_tokens (meta_info_section : Bs4.tag) : list string :=
  Str.split "|" (Bs4.get_text "|" true meta_info_section).

Definition first_comma_token (meta_info_section : Bs4.tag) : option string :=
  head (filter (fun info => Str.contains "," info) (meta_tokens meta_info_section)).

(** [s] has the shape YYYY-MM-DD. *)
Definition is_iso_date (s : string) : bool :=
  match list_ascii_of_string s with
  | [y1; y2; y3; y4; h1; m1; m2; h2; d1; d2] =>
      forallb Str.isdecimal [y1; y2; y3; y4; m1; m2; d1; d2]
      && Ascii.eqb h1 "-" && Ascii.eqb h2 "-"
  | _ => false
  end.

(** The [n] numbers from [lo] on. *)
Fixpoint upto (n : nat) (lo : N) : list N :=
  match n with
  | 0 => []
  | S n' => lo :: upto n' (N.succ lo)
  end.

(** [s] is [n] decimal digits. *)
Definition is_digits (n : nat) (s : string) : bool :=
  (String.length s =? n) && all_chars Str.isdecimal s.

(** [text] contains ["Rated"], then blanks, then the word [word]. *)
Definition rated_occurrence (text word : string) : Prop :=
  exists pre ws post,
    text = pre +:+ "Rated" +:+ ws +:+ word +:+ post
    /\ ws <> EmptyString /\ all_chars Str.isspace ws = true
    /\ word <> EmptyString /\ all_chars Str.isword word = true.

(** How the server answers for one page of a scope: with product cards,
    with a page without cards, with a status other than 200, with a body
    the parser rejects, or not at all. *)
Definition has_cards (requests_get : string -> Requests.outcome)
    (url : string) (soup : Bs4.soup) : Prop :=
  requests_get url = Requests.Response 200 (Bs4.Tree soup)
  /\ Bs4.find_all soup <> [].

Definition no_cards (requests_get : string -> Requests.outcome)
    (url : string) : Prop :=
  exists soup,
    requests_get url = Requests.Response 200 (Bs4.Tree soup)
    /\ Bs4.find_all soup = [].

Definition bad_status (requests_get : string -> Requests.outcome)
    (url : string) : Prop :=
  exists status_code content,
    requests_get url = Requests.Response status_code content
    /\ status_code <> 200%Z.

Definition rejected (requests_get : string -> Requests.outcome)
    (url : string) : Prop :=
  requests_get url = Requests.Response 200 Bs4.RejectedMarkup.

(** The records of a page. *)
Definition records_of (pad_year : bool) (soup : Bs4.soup) : list game_data :=
  match extract_game_data pad_year soup with
  | Py.Ok page_data => page_data
  | Py.Raise _ => []
  end.

(** The world after the loop has asked for one page, and after it has gone
    through [n] pages from page [p] on. *)
Definition asked (url : string) (w : world) : world :=
  sent url (print ("Scraping " +:+ url) w).

Definition asked_pages (url_of : nat -> string) (p n : nat) (w : world) : world :=
  foldl (fun w q => asked (url_of q) w) w (seq p n).

(** The two list columns of a row have the same length. *)
Definition parallel (r : Merge.row) : Prop :=
  length (Merge.platforms r) = length (Merge.platform_scores r).

(** The first record of a frame with the title of [g]. *)
Definition first_match (g : game_data) (df : Merge.DataFrame) : option game_data :=
  List.find (fun x => Merge.eq_value (title g) (title x)) df.

(** The merge, told row by row: what becomes of the row of [g] when the
    frames are gone through in order, each giving its first record with
    the title of [g], if it has one and its name is not yet in the row. *)
Definition row_step (r : Merge.row) (item : string * Merge.DataFrame) : Merge.row :=
  match first_match (Merge.data r) item.2 with
  | Some x => Merge.add_platform item.1 (metascore x) r
  | None => r
  end.

Definition row_after (platform_dfs : list (string * Merge.DataFrame))
    (g : game_data) : Merge.row :=
  foldl row_step (Merge.Row g [] []) platform_dfs.

(** What one record of a frame does to one row. *)
Definition merge_one (platform : string) (r : Merge.row) (x : game_data)
  : Merge.row :=
  if Merge.eq_value (title (Merge.data r)) (title x)
  then Merge.add_platform platform (metascore x) r
  else r.


(** The platforms and the scores a row ends with, read off the frames: one
    entry for each frame that has a record with the title of [g]. *)
Definition platforms_of (g : game_data)
    (platform_dfs : list (string * Merge.DataFrame)) : list string :=
  omap (fun item : string * Merge.DataFrame =>
          (fun _ => item.1) <$> first_match g item.2) platform_dfs.

Definition scores_of (g : game_data)
    (platform_dfs : list (string * Merge.DataFrame)) : list Py.value :=
  omap (fun item : string * Merge.DataFrame =>
          metascore <$> first_match g item.2) platform_dfs.

(** ** The word the rating pattern finds *)

(** The longest prefix of [s] made of characters of the class [p], and
    what comes after it. *)
Fixpoint take_while (p : ascii -> bool) (s : string) : string :=
  match s with
  | String c s' => if p c then String c (take_while p s') else EmptyString
  | EmptyString => EmptyString
  end.

Fixpoint drop_while (p : ascii -> bool) (s : string) : string :=
  match s with
  | String c s' => if p c then drop_while p s' else s
  | EmptyString => EmptyString
  end.

(** [s] without its prefix [pre], when it starts with it. *)
Fixpoint strip_prefix (pre s : string) : option string :=
  match pre, s with
  | EmptyString, _ => Some s
  | String a pre', String b s' =>
      if Ascii.eqb a b then strip_prefix pre' s' else None
  | String _ _, EmptyString => None
  end.

(** The word after ["Rated"] and blanks at the very start of [s]: all the
    blanks that follow ["Rated"] are passed, at least one, and the word is
    all the word characters that come then, at least one. *)
Definition rated_here (s : string) : option string :=
  match strip_prefix "Rated" s with
  | Some after =>
      let word := take_while Str.isword (drop_while Str.isspace after) in
      match take_while Str.isspace after, word with
      | String _ _, String _ _ => Some word
      | _, _ => None
      end
  | None => None
  end.

(** The same at the first place of [s], from the left, where there is
    one. *)
Fixpoint first_rated (s : string) : option string :=
  match rated_here s with
  | Some word => Some word
  | None =>
      match s with
      | String _ s' => first_rated s'
      | EmptyString => None
      end
  end.

(** [s] does not go on with a character of the class [p]. *)
Definition stops (p : ascii -> bool) (s : string) : bool :=
  match s with
  | String c _ => negb (p c)
  | EmptyString => true
  end.

(** [word] is the whole word at the first place of [text], from the left,
    that has ["Rated"], blanks and a word: the place comes after [pre], the
    word ends where [post] begins, and no such place starts left of it. *)
Definition first_rated_word (text word : string) : Prop :=
  exists pre ws post,
    text = pre +:+ "Rated" +:+ ws +:+ word +:+ post
    /\ ws <> EmptyString /\ all_chars Str.isspace ws = true
    /\ word <> EmptyString /\ all_chars Str.isword word = true
    /\ stops Str.isword post = true
    /\ forall pre' ws' word' post',
         text = pre' +:+ "Rated" +:+ ws' +:+ word' +:+ post' ->
         ws' <> EmptyString -> all_chars Str.isspace ws' = true ->
         word' <> EmptyString -> all_chars Str.isword word' = true ->
         String.length pre <= String.length pre'.

(** ** Sample pages, servers and frames *)

Definition page_one : Bs4.soup :=
  Bs4.Soup
    [Bs4.Card (Some ["1."; "The Legend of Zelda: Ocarina of Time"])
       (Some ["Nov 23, 1998"; "Rated E"])
       (Some ["As a young boy, Link is tricked by Ganondorf."])
       (Some ["99"])].

Definition page_two : Bs4.soup :=
  Bs4.Soup
    [Bs4.Card (Some ["1,234. Super Game"]) (Some ["Jan 5, 2020"; "Rated M for Mature"])
       None None].

Definition empty_page : Bs4.soup := Bs4.Soup [].

(** Two pages of the catalogue with a card each, then a page without. *)
Definition two_page_server (url : string) : Requests.outcome :=
  if String.eqb url (catalogue_url 1) then Requests.Response 200 (Bs4.Tree page_one)
  else if String.eqb url (catalogue_url 2) then Requests.Response 200 (Bs4.Tree page_two)
  else Requests.Response 200 (Bs4.Tree empty_page).

(** One page of the catalogue, then 404. *)
Definition one_page_server (url : string) : Requests.outcome :=
  if String.eqb url (catalogue_url 1) then Requests.Response 200 (Bs4.Tree page_one)
  else Requests.Response 404 (Bs4.Tree empty_page).

(** A server that cannot be reached. *)
Definition unreachable_server (url : string) : Requests.outcome := Requests.Fails.

Definition quiet : world := World [] [].

Definition sample_game (t s : string) : game_data :=
  GameData (Py.Str t) (Py.Str "Unknown") (Py.Str "Rating not found")
    (Py.Str "Description not found") (Py.Str s).

(** ** The script around the functions

    Between its three functions the script scrapes the catalogue, makes a
    dictionary of frames, scrapes every platform into it, merges and writes
    files. *)

(** The state a loop was left in, or has reached. *)
Definition state_of (r : progress) : scrape :=
  match r with
  | Finished st | Crashed _ st | Running st => st
  end.

(** A scope of the site that has the pages [pages], all with cards, and
    answers the request for the next page with a status other than 200 or
    with a page without cards. *)
Definition ends_after (requests_get : string -> Requests.outcome)
    (url_of : nat -> string) (pages : list Bs4.soup) : Prop :=
  (forall i soup, pages !! i = Some soup ->
                  has_cards requests_get (url_of (S i)) soup)
  /\ (bad_status requests_get (url_of (S (length pages)))
      \/ no_cards requests_get (url_of (S (length pages)))).

Module Script.

(** What [to_csv] is given to write: a frame of records, or the merged
    frame with its two list columns. *)
Inductive table : Type :=
| Records (df : Merge.DataFrame)
| Merged (rows : list Merge.row).

(** The script's effects: those of the loops, and the files written,
    oldest first. *)
Record session : Type := Session {
  console : world;
  written : list (string * table)
}.

(** What ends the script early: an exception of [Py.exn], or the
    [OSError] of a [to_csv] that cannot open its file. *)
Inductive failure : Type :=
| Exception (e : Py.exn)
| OSError (path : string).

Inductive ending (A : Type) : Type :=
| Returned (a : A) (s : session)
| Failed (e : failure) (s : session)
| Unfinished (s : session).   (* a loop has not ended within the turns given *)
Arguments Returned {A} a s.
Arguments Failed {A} e s.
Arguments Unfinished {A} s.

Definition catalogue_csv : string := "metacritic_games_data.csv".

Definition platform_csv (platform : string) : string :=
  "platforms/metacritic_games_data_" +:+ platform +:+ ".csv".

Section Script.

(** The world outside: the server, the C library's [%Y], the paths that
    can be opened for writing, and what [print(df.head())] writes for a
    frame: the text of its first rows, or nothing where the encoding of
    the standard output has no place for a character of it
    ([UnicodeEncodeError]). *)
Variable requests_get : string -> Requests.outcome.
Variable pad_year : bool.
Variable writable : string -> bool.
Variable head_text : Merge.DataFrame -> option string.

(** [frame.to_csv(path, index=False)].  It fails where the file cannot be
    opened; the text itself is always written, every character of this
    embedding (a code point below 256) having its place in UTF-8, the
    encoding [to_csv] uses. *)
Definition to_csv (path : string) (t : table) (s : session) : option session :=
  if writable path
  then Some (Session (console s) (written s ++ [(path, t)]))
  else None.

(** [for platform in platforms: ...], every [while True] loop given at most
    [fuel] turns. *)
Fixpoint for_platforms (fuel : nat) (names : list string)
    (platforms_dfs : list (string * Merge.DataFrame)) (s : session)
  : ending (list (string * Merge.DataFrame)) :=
  match names with
  | [] => Returned platforms_dfs s
  | platform :: names' =>
      match paginate requests_get pad_year (platform_url platform) fuel
              (console s) with
      | Running st => Unfinished (Session (io st) (written s))
      | Crashed e st => Failed (Exception e) (Session (io st) (written s))
      | Finished st =>
          let s := Session (io st) (written s) in
          let platforms_dfs :=
            Dict.setitem platform (all_games_data st) platforms_dfs in
          match Dict.getitem platform platforms_dfs with
          | Py.Raise e => Failed (Exception e) s
          | Py.Ok df =>
              match to_csv (platform_csv platform) (Records df) s with
              | None => Failed (OSError (platform_csv platform)) s
              | Some s => for_platforms fuel names' platforms_dfs s
              end
          end
      end
  end.

(** The whole script for a list of platforms. *)
Definition script_for (names : list string) (fuel : nat) (w : world)
  : ending (list Merge.row) :=
  match paginate requests_get pad_year catalogue_url fuel w with
  | Running st => Unfinished (Session (io st) [])
  | Crashed e st => Failed (Exception e) (Session (io st) [])
  | Finished st =>
      let df := all_games_data st in
      match head_text df with
      | None => Failed (Exception Py.UnicodeEncodeError) (Session (io st) [])
      | Some text =>
          let s := Session (print text (io st)) [] in
          match to_csv catalogue_csv (Records df) s with
          | None => Failed (OSError catalogue_csv) s
          | Some s =>
              let platforms_dfs := Merge.create_dfs names in
              match for_platforms fuel names platforms_dfs s with
              | Unfinished s => Unfinished s
              | Failed e s => Failed e s
              | Returned platforms_dfs s =>
                  match Merge.merge_platform_dfs df platforms_dfs with
                  | Py.Raise e => Failed (Exception e) s
                  | Py.Ok all_games_df =>
                      match to_csv catalogue_csv (Merged all_games_df) s with
                      | None => Failed (OSError catalogue_csv) s
                      | Some s => Returned all_games_df s
                      end
                  end
              end
          end
      end
  end.

Definition script : nat -> world -> ending (list Merge.row) :=
  script_for platforms.

End Script.

End Script.

(** The records of a list of pages, in page order. *)
Definition records_of_pages (pad_year : bool) (pages : list Bs4.soup)
  : list game_data :=
  concat (map (records_of pad_year) pages).

(** What the platform loop makes of a site whose scope for the platform
    [p] has the pages [pages_of p]: the frames, the files and the
    requests, platform after platform. *)
Definition platform_frames (pad_year : bool) (pages_of : string -> list Bs4.soup)
    (names : list string) : list (string * Merge.DataFrame) :=
  map (fun p => (p, records_of_pages pad_year (pages_of p))) names.

Definition platform_files (pad_year : bool) (pages_of : string -> list Bs4.soup)
    (names : list string) : list (string * Script.table) :=
  map (fun p => (Script.platform_csv p,
                 Script.Records (records_of_pages pad_year (pages_of p))))
    names.

Definition platform_requests (pages_of : string -> list Bs4.soup)
    (names : list string) : list string :=
  concat (map (fun p => map (platform_url p) (seq 1 (S (length (pages_of p)))))
            names).

(** The platform [p] has the pages [pages_of p], its loop is given turns
    enough to see them end, and its file can be written. *)
Definition served (requests_get : string -> Requests.outcome)
    (writable : string -> bool) (pages_of : string -> list Bs4.soup)
    (fuel : nat) (p : string) : Prop :=
  ends_after requests_get (platform_url p) (pages_of p)
  /\ length (pages_of p) < fuel
  /\ writable (Script.platform_csv p) = true.

(** A small site: one page in the catalogue; one page for [pc], one for
    [ps5], none for any other platform. *)
Definition small_site (url : string) : Requests.outcome :=
  if String.eqb url (catalogue_url 1) then Requests.Response 200 (Bs4.Tree page_one)
  else if String.eqb url (platform_url "pc" 1) then Requests.Response 200 (Bs4.Tree page_one)
  else if String.eqb url (platform_url "ps5" 1) then Requests.Response 200 (Bs4.Tree page_two)
  else Requests.Response 404 (Bs4.Tree empty_page).

Definition small_site_pages (platform : string) : list Bs4.soup :=
  if String.eqb platform "pc" then [page_one]
  else if String.eqb platform "ps5" then [page_two]
  else [].

(** The same site with its catalogue gone. *)
Definition site_without_catalogue (url : string) : Requests.outcome :=
  if String.eqb url (catalogue_url 1) then Requests.Response 404 (Bs4.Tree empty_page)
  else small_site url.

(** The same site, not answering for the first page of [ps5]. *)
Definition site_with_outage (url : string) : Requests.outcome :=
  if String.eqb url (platform_url "ps5" 1) then Requests.Fails
  else small_site url.

Definition site_with_outage_pages (platform : string) : list Bs4.soup :=
  if String.eqb platform "pc" then [page_one] else [].

(** A disk on which everything can be written. *)
Definition any_path (path : string) : bool := true.

(** A standard output that takes every text; the text of [df.head()]
    itself is left empty. *)
Definition no_text (df : Merge.DataFrame) : option string := Some "".

(** * Properties *)

(** ** The matcher *)

Module ReFacts.
Import Re.

Lemma in_run_cat r1 r2 st st' :
  In st' (run (Cat r1 r2) st) <->
  exists mid, In mid (run r1 st) /\ In st' (run r2 mid).
Proof. simpl. apply in_flat_map. Qed.

Lemma in_star_from step fuel st st' :
  In st' (star_from step fuel st) ->
  st' = st \/
  exists mid, In mid (step st) /\
    String.length (rest mid) < String.length (rest st) /\
    In st' (star_from step (pred fuel) mid).
Proof.
  destruct fuel as [|fuel]; simpl.
  - intros [<-|[]]. by left.
  - rewrite in_app_iff, in_flat_map. intros [(mid & Hmid & Hst')|[<-|[]]].
    + right. exists mid. split; [done|].
      destruct (_ <? _) eqn:Hlt; [|by destruct Hst'].
      apply Nat.ltb_lt in Hlt. done.
    + by left.
Qed.

(** A property of states that every step of the matcher keeps is kept by
    a whole match. *)
Section Preserved.
Variable P : mstate -> Prop.
Hypothesis P_advance : forall s' st, P st -> P (advance s' st).
Hypothesis P_capture : forall n from to, P to -> P (capture n from to).

Lemma star_from_preserves step fuel :
  (forall st st', P st -> In st' (step st) -> P st') ->
  forall st st', P st -> In st' (star_from step fuel st) -> P st'.
Proof.
  intros Hstep. induction fuel as [|fuel IH]; intros st st' HP Hin.
  - destruct Hin as [<-|[]]. done.
  - apply in_star_from in Hin as [->|(mid & Hmid & _ & Hin)]; [done|].
    simpl in Hin. eauto.
Qed.

Lemma run_preserves r : forall st st', P st -> In st' (run r st) -> P st'.
Proof.
  induction r as [| |p|r1 IH1 r2 IH2|r1 IH1 r2 IH2|r1 IH1|n r1 IH1];
    intros st st' HP Hin.
  - destruct Hin as [<-|[]]. done.
  - simpl in Hin. destruct (pos st =? 0); [|done].
    destruct Hin as [<-|[]]. done.
  - simpl in Hin. destruct (rest st) as [|c s']; [done|].
    destruct (p c); [|done]. destruct Hin as [<-|[]]. eauto.
  - apply in_run_cat in Hin as (mid & Hmid & Hin). eauto.
  - simpl in Hin. apply in_app_iff in Hin as [Hin|Hin]; eauto.
  - simpl in Hin. eapply star_from_preserves; eauto.
  - simpl in Hin. apply in_map_iff in Hin as (to & <- & Hin). eauto.
Qed.
End Preserved.

(** A group that has been captured stays captured. *)
Lemma run_keeps_group n r st st' :
  is_Some (assoc n (caps st)) -> In st' (run r st) ->
  is_Some (assoc n (caps st')).
Proof.
  apply (run_preserves (fun st => is_Some (assoc n (caps st)))).
  - done.
  - intros k from to Hto. simpl. destruct (k =? n); [eauto|done].
Qed.

Lemma run_group_captured n r st st' :
  In st' (run (Group n r) st) -> is_Some (assoc n (caps st')).
Proof.
  simpl. intros (to & <- & _)%in_map_iff. simpl.
  rewrite Nat.eqb_refl. eauto.
Qed.

Lemma match_at_in r i s m :
  match_at r i s = Some m -> m_start m = i /\ In (m_end m) (run r (start i s)).
Proof.
  unfold match_at. destruct (run r (start i s)) as [|st l]; [done|].
  intros [= <-]. simpl. auto.
Qed.

Lemma search_from_in r s : forall i m,
  search_from r i s = Some m ->
  exists s', In (m_end m) (run r (start (m_start m) s')).
Proof.
  induction s as [|c s IH]; intros i m; simpl.
  - destruct (match_at r i "") eqn:Hm; [|done].
    intros [= <-]. apply match_at_in in Hm as [-> Hin]. eauto.
  - destruct (match_at r i (String c s)) eqn:Hm.
    + intros [= <-]. apply match_at_in in Hm as [-> Hin]. eauto.
    + apply IH.
Qed.

End ReFacts.

(** ** Dates *)

Module DatetimeFacts.
Import Re ReFacts Datetime.

(** Every match of the compiled format has set its three groups. *)
Lemma format_re_groups st st' :
  In st' (run format_re st) ->
  is_Some (assoc 1 (caps st')) /\ is_Some (assoc 2 (caps st'))
  /\ is_Some (assoc 3 (caps st')).
Proof.
  unfold format_re.
  intros (s1 & H1 & (s2 & H2 & (s3 & H3 & (s4 & H4 & (s5 & H5 & H6)%in_run_cat)
    %in_run_cat)%in_run_cat)%in_run_cat)%in_run_cat.
  pose proof (run_group_captured _ _ _ _ H1) as G1.
  pose proof (run_keeps_group 1 _ _ _ G1 H2) as G12.
  pose proof (run_keeps_group 1 _ _ _ G12 H3) as G13.
  pose proof (run_group_captured _ _ _ _ H3) as G23.
  pose proof (run_keeps_group 1 _ _ _ G13 H4) as G14.
  pose proof (run_keeps_group 2 _ _ _ G23 H4) as G24.
  pose proof (run_keeps_group 1 _ _ _ G14 H5) as G15.
  pose proof (run_keeps_group 2 _ _ _ G24 H5) as G25.
  pose proof (run_keeps_group 1 _ _ _ G15 H6) as G16.
  pose proof (run_keeps_group 2 _ _ _ G25 H6) as G26.
  pose proof (run_group_captured _ _ _ _ H6) as G36.
  done.
Qed.

(** [strptime] returns a date the constructor accepts, or raises
    [ValueError]; nothing else. *)
Lemma strptime_cases s :
  (exists d, strptime s = Py.Ok d /\ valid (year d) (month d) (day d) = true)
  \/ strptime s = Py.Raise Py.ValueError.
Proof.
  unfold strptime.
  destruct (match_at format_re 0 s) as [found|] eqn:Hm; [|by right].
  destruct (negb _); [by right|].
  apply match_at_in in Hm as [_ Hin].
  apply format_re_groups in Hin as ([b Hb] & [d Hd] & [Y HY]).
  unfold group. rewrite Hb, Hd, HY.
  destruct (index_of _ _) as [i|]; [|by right].
  destruct (valid _ _ _) eqn:Hv; [|by right].
  left. eexists. split; [done|]. done.
Qed.

End DatetimeFacts.

(** ** [extract_game_data] *)

Section ExtractFacts.
Import Re ReFacts.

Variable pad_year : bool.

Lemma try_release_date_cases meta_info :
  (exists s, try_release_date pad_year meta_info = Py.Ok s)
  \/ try_release_date pad_year meta_info = Py.Raise Py.ValueError
  \/ try_release_date pad_year meta_info = Py.Raise Py.IndexError.
Proof.
  unfold try_release_date.
  destruct (map Str.strip _) as [|tok l]; simpl; [by right; right|].
  destruct (DatetimeFacts.strptime_cases tok) as [(d & -> & _)| ->]; simpl.
  - left. eauto.
  - right. by left.
Qed.

Lemma extract_release_date_ok meta_info_section :
  exists s, extract_release_date pad_year meta_info_section = Py.Ok (Py.Str s).
Proof.
  unfold extract_release_date.
  destruct (try_release_date_cases
              (Str.split "|" (Bs4.get_text "|" true meta_info_section)))
    as [[s ->]|[-> | ->]]; eauto.
Qed.

Lemma rated_re_group st st' :
  In st' (run rated_re st) -> is_Some (assoc 1 (caps st')).
Proof.
  unfold rated_re.
  intros (s1 & _ & (s2 & _ & H)%in_run_cat)%in_run_cat.
  by apply run_group_captured in H.
Qed.

Lemma extract_rating_str meta_info_section :
  exists s, extract_rating meta_info_section = Py.Str s.
Proof.
  unfold extract_rating.
  destruct (search rated_re _) as [m|] eqn:Hm; [|eauto].
  apply search_from_in in Hm as [s' Hin].
  apply rated_re_group in Hin as [w Hw].
  unfold group. rewrite Hw. simpl. eauto.
Qed.

Lemma extract_title_str game : exists s, extract_title game = Py.Str s.
Proof. unfold extract_title. destruct (Bs4.find_title game); eauto. Qed.

Lemma extract_description_str game :
  exists s, extract_description game = Py.Str s.
Proof. unfold extract_description. destruct (Bs4.find_description game); eauto. Qed.

Lemma extract_metascore_str game : exists s, extract_metascore game = Py.Str s.
Proof. unfold extract_metascore. destruct (Bs4.find_metascore game); eauto. Qed.

(** What [extract_game] returns, field by field. *)
Lemma extract_game_fields game :
  exists release_date rating,
    extract_game pad_year game =
      Py.Ok (GameData (extract_title game) release_date rating
               (extract_description game) (extract_metascore game))
    /\ match Bs4.find_meta game with
       | Some meta_info_section =>
           extract_release_date pad_year meta_info_section = Py.Ok release_date
           /\ rating = extract_rating meta_info_section
       | None =>
           release_date = Py.Str "Unknown" /\ rating = Py.Str "Rating not found"
       end.
Proof.
  unfold extract_game.
  destruct (Bs4.find_meta game) as [meta|].
  - destruct (extract_release_date_ok meta) as [s Hs].
    rewrite Hs. simpl. eauto.
  - simpl. eauto.
Qed.

Lemma extract_game_ok game :
  exists g, extract_game pad_year game = Py.Ok g /\ all_fields_str g = true.
Proof.
  destruct (extract_game_fields game) as (d & r & -> & H).
  eexists. split; [done|]. unfold all_fields_str. simpl.
  destruct (extract_title_str game) as [? ->].
  destruct (extract_description_str game) as [? ->].
  destruct (extract_metascore_str game) as [? ->].
  destruct (Bs4.find_meta game) as [meta|].
  - destruct H as [H ->].
    destruct (extract_release_date_ok meta) as [s Hs].
    rewrite Hs in H. injection H as <-.
    destruct (extract_rating_str meta) as [? ->]. done.
  - by destruct H as [-> ->].
Qed.

Lemma extract_loop_spec game_listings : forall games_data,
  exists page_data,
    extract_loop pad_year games_data game_listings
      = Py.Ok (games_data ++ page_data)
    /\ Forall2 (fun game g => extract_game pad_year game = Py.Ok g)
         game_listings page_data
    /\ Forall (fun g => all_fields_str g = true) page_data.
Proof.
  induction game_listings as [|game l IH]; intros acc; simpl.
  - exists []. rewrite app_nil_r. auto.
  - destruct (extract_game_ok game) as (g & Hg & Hstr). rewrite Hg. simpl.
    destruct (IH (acc ++ [g])) as (gs & -> & HF & Hs).
    exists (g :: gs). rewrite <- app_assoc. simpl. auto.
Qed.

(** C3: for every parsed page, [extract_game_data] returns one record for
    each product card, the i-th record being the one built from the i-th
    card, so that no card is dropped and the order is the document's; the
    five fields of every record hold a string (the text found or the
    field's sentinel), never [None]. *)
Theorem extract_game_data_one_record_per_card (soup : Bs4.soup) :
  exists games_data,
    extract_game_data pad_year soup = Py.Ok games_data
    /\ length games_data = length (Bs4.find_all soup)
    /\ (forall i game, Bs4.find_all soup !! i = Some game ->
          exists g, games_data !! i = Some g
                    /\ extract_game pad_year game = Py.Ok g)
    /\ (forall g, In g games_data ->
          exists t d r ds m,
            g = GameData (Py.Str t) (Py.Str d) (Py.Str r) (Py.Str ds) (Py.Str m)).
Proof.
  unfold extract_game_data.
  destruct (extract_loop_spec (Bs4.find_all soup) []) as (gs & -> & HF & Hs).
  exists gs. simpl. split; [done|]. split; [|split].
  - symmetry. by eapply Forall2_length.
  - intros i game Hi.
    destruct (Forall2_lookup_l _ _ _ _ _ HF Hi) as (g & Hg & Hok). eauto.
  - intros g Hg. rewrite Forall_forall in Hs.
    apply list_elem_of_In, Hs in Hg.
    destruct g as [[|t] [|d] [|r] [|ds] [|m]]; try done. naive_solver.
Qed.

End ExtractFacts.

(** ** Strings, and the words the matcher accepts *)

Module StrFacts.

Lemma app_nil_l s : "" +:+ s = s.
Proof. reflexivity. Qed.

Lemma app_cons c s t : String c s +:+ t = String c (s +:+ t).
Proof. reflexivity. Qed.

Lemma app_nil_r s : s +:+ "" = s.
Proof. induction s as [|c s IH]; [done|]. by rewrite app_cons, IH. Qed.

Lemma app_assoc s1 s2 s3 : (s1 +:+ s2) +:+ s3 = s1 +:+ (s2 +:+ s3).
Proof. induction s1 as [|c s1 IH]; [done|]. by rewrite !app_cons, IH. Qed.

Lemma length_app s1 s2 :
  String.length (s1 +:+ s2) = String.length s1 + String.length s2.
Proof. induction s1 as [|c s1 IH]; [done|]. rewrite app_cons. simpl. by rewrite IH. Qed.

Lemma length_zero s : String.length s = 0 -> s = "".
Proof. by destruct s. Qed.

Lemma substring_app w t : String.substring 0 (String.length w) (w +:+ t) = w.
Proof.
  induction w as [|c w IH]; [by destruct t|].
  rewrite app_cons. simpl. by rewrite IH.
Qed.

End StrFacts.

Module ReLang.
Import Re ReFacts StrFacts.

(** Soundness: whatever [run] reaches, it reaches by consuming a word of
    the pattern. *)
Lemma star_from_sound step (L : string -> Prop) :
  (forall st st', In st' (step st) ->
     exists w, L w /\ rest st = w +:+ rest st'
               /\ pos st' = pos st + String.length w) ->
  forall fuel st st', In st' (star_from step fuel st) ->
    exists w, star L w /\ rest st = w +:+ rest st'
              /\ pos st' = pos st + String.length w.
Proof.
  intros Hstep. induction fuel as [|fuel IH]; intros st st' Hin.
  - destruct Hin as [<-|[]]. exists "". split; [constructor|].
    rewrite app_nil_l. simpl. auto.
  - apply in_star_from in Hin as [->|(mid & Hmid & Hlt & Hin)].
    + exists "". split; [constructor|]. rewrite app_nil_l. simpl. auto.
    + simpl in Hin. apply IH in Hin as (w2 & Hw2 & Hr2 & Hp2).
      apply Hstep in Hmid as (w1 & Hw1 & Hr1 & Hp1).
      exists (w1 +:+ w2). split; [|split].
      * constructor; [done| |done]. intros ->. rewrite app_nil_l in Hr1.
        rewrite Hr1 in Hlt. lia.
      * rewrite app_assoc. congruence.
      * rewrite length_app. lia.
Qed.

Lemma run_sound r : forall st st', In st' (run r st) ->
  exists w, lang r w /\ rest st = w +:+ rest st'
            /\ pos st' = pos st + String.length w.
Proof.
  induction r as [| |p|r1 IH1 r2 IH2|r1 IH1 r2 IH2|r1 IH1|n r1 IH1];
    intros st st' Hin.
  - destruct Hin as [<-|[]]. exists "". rewrite app_nil_l. simpl. auto.
  - simpl in Hin. destruct (pos st =? 0); [|done].
    destruct Hin as [<-|[]]. exists "". rewrite app_nil_l. simpl. auto.
  - simpl in Hin. destruct (rest st) as [|c s'] eqn:Hr; [done|].
    destruct (p c) eqn:Hp; [|done]. destruct Hin as [<-|[]].
    exists (String c ""). rewrite app_cons, app_nil_l. simpl.
    split; [eauto|]. split; [done|lia].
  - apply in_run_cat in Hin as (mid & Hmid & Hin).
    apply IH1 in Hmid as (w1 & Hw1 & Hr1 & Hp1).
    apply IH2 in Hin as (w2 & Hw2 & Hr2 & Hp2).
    exists (w1 +:+ w2). split; [simpl; eauto|]. split.
    + rewrite app_assoc. congruence.
    + rewrite length_app. lia.
  - simpl in Hin. apply in_app_iff in Hin as [Hin|Hin].
    + apply IH1 in Hin as (w & ? & ? & ?). exists w. simpl. auto.
    + apply IH2 in Hin as (w & ? & ? & ?). exists w. simpl. auto.
  - simpl in Hin. eapply star_from_sound in Hin; [|exact IH1]. done.
  - simpl in Hin. apply in_map_iff in Hin as (to & <- & Hin).
    apply IH1 in Hin as (w & ? & ? & ?). exists w. simpl. auto.
Qed.

(** Completeness: every way of reading a word of the pattern off the front
    of the subject is among the states [run] lists. *)
Lemma star_from_complete step (L : string -> Prop) :
  (forall w, L w -> forall st t, rest st = w +:+ t ->
     exists st', In st' (step st) /\ rest st' = t
                 /\ pos st' = pos st + String.length w) ->
  forall w, star L w -> forall fuel st t,
    rest st = w +:+ t -> String.length (rest st) <= fuel ->
    exists st', In st' (star_from step fuel st) /\ rest st' = t
                /\ pos st' = pos st + String.length w.
Proof.
  intros Hstep w Hw. induction Hw as [|w1 w2 Hw1 Hne Hw2 IH];
    intros fuel st t Hr Hfuel.
  - exists st. rewrite app_nil_l in Hr. split; [|split; [done|simpl; lia]].
    destruct fuel; simpl; [auto|]. apply in_app_iff. right. by left.
  - rewrite app_assoc in Hr.
    destruct (Hstep w1 Hw1 st _ Hr) as (mid & Hmid & Hrm & Hpm).
    assert (0 < String.length w1) by (destruct w1; [done|simpl; lia]).
    assert (String.length (rest mid) < String.length (rest st)) as Hlt.
    { rewrite Hr, Hrm, !length_app. lia. }
    destruct fuel as [|fuel]; [lia|].
    destruct (IH fuel mid t Hrm) as (st' & Hin & Hr' & Hp'); [lia|].
    exists st'. split; [|split; [done|rewrite length_app; lia]].
    simpl. apply in_app_iff. left. apply in_flat_map. exists mid.
    split; [done|]. apply Nat.ltb_lt in Hlt. by rewrite Hlt.
Qed.

Lemma run_complete r : bol_free r = true ->
  forall w, lang r w -> forall st t, rest st = w +:+ t ->
    exists st', In st' (run r st) /\ rest st' = t
                /\ pos st' = pos st + String.length w.
Proof.
  induction r as [| |p|r1 IH1 r2 IH2|r1 IH1 r2 IH2|r1 IH1|n r1 IH1];
    intros Hbol w Hw st t Hr; simpl in Hbol, Hw.
  - subst w. exists st. rewrite app_nil_l in Hr. simpl.
    split; [auto|split; [done|lia]].
  - done.
  - destruct Hw as (c & -> & Hp). rewrite app_cons, app_nil_l in Hr.
    exists (advance t st). simpl. rewrite Hr, Hp.
    split; [by left|split; [done|lia]].
  - apply andb_true_iff in Hbol as [Hb1 Hb2].
    destruct Hw as (w1 & w2 & -> & Hw1 & Hw2). rewrite app_assoc in Hr.
    destruct (IH1 Hb1 w1 Hw1 st _ Hr) as (mid & Hmid & Hrm & Hpm).
    destruct (IH2 Hb2 w2 Hw2 mid t Hrm) as (st' & Hin & Hr' & Hp').
    exists st'. split; [apply in_run_cat; eauto|].
    split; [done|rewrite length_app; lia].
  - apply andb_true_iff in Hbol as [Hb1 Hb2]. destruct Hw as [Hw|Hw].
    + destruct (IH1 Hb1 w Hw st t Hr) as (st' & Hin & ?).
      exists st'. split; [|done]. simpl. apply in_app_iff. auto.
    + destruct (IH2 Hb2 w Hw st t Hr) as (st' & Hin & ?).
      exists st'. split; [|done]. simpl. apply in_app_iff. auto.
  - simpl. eapply star_from_complete; eauto.
  - destruct (IH1 Hbol w Hw st t Hr) as (to & Hin & Hr' & Hp').
    exists (capture n st to). split; [|done].
    simpl. apply in_map_iff. eauto.
Qed.

(** What a group captures is the word its pattern consumed. *)
Lemma run_group_word n r st st' :
  In st' (run (Group n r) st) ->
  exists w, lang r w /\ assoc n (caps st') = Some w
            /\ rest st = w +:+ rest st'
            /\ pos st' = pos st + String.length w.
Proof.
  simpl. intros (to & <- & Hin)%in_map_iff.
  apply run_sound in Hin as (w & Hw & Hr & Hp).
  exists w. simpl. rewrite Nat.eqb_refl.
  split; [done|]. split; [|done].
  f_equal. replace (pos to - pos st) with (String.length w) by lia.
  rewrite Hr. apply substring_app.
Qed.

End ReLang.

(** ** The title *)

Module TitleFacts.
Import Re ReFacts StrFacts ReLang.

(** A pattern anchored by [^] matches at offset 0 or nowhere, so [re.sub]
    replaces at most the front of the string. *)
Lemma sub_from_bol r repl fuel : forall i s,
  0 < i -> sub_from (Cat Bol r) repl fuel i s = s.
Proof.
  induction fuel as [|fuel IH]; intros i s Hi; [done|].
  simpl. unfold match_at. simpl.
  destruct i as [|i]; [lia|]. simpl.
  destruct s as [|c s]; [done|]. rewrite IH by lia. done.
Qed.

Lemma sub_bol r repl s :
  sub (Cat Bol r) repl s =
    match run r (start 0 s) with
    | st :: _ => if 0 <? pos st then repl +:+ rest st else s
    | [] => s
    end.
Proof.
  unfold sub. simpl. unfold match_at. simpl. rewrite List.app_nil_r.
  assert (match s with
          | "" => ""
          | String c s' =>
              String c (sub_from (Cat Bol r) repl (String.length s) 1 s')
          end = s) as Hcopy.
  { destruct s as [|c s]; [done|]. by rewrite sub_from_bol by lia. }
  destruct (run r (start 0 s)) as [|st l]; [done|]. simpl.
  destruct (0 <? pos st) eqn:Hpos; [|done].
  apply Nat.ltb_lt in Hpos. by rewrite sub_from_bol.
Qed.

Lemma contains_app c s t :
  Str.contains c (s +:+ t) = Str.contains c s || Str.contains c t.
Proof.
  induction s as [|x s IH]; [done|]. rewrite app_cons. simpl.
  rewrite IH. by rewrite orb_assoc.
Qed.

(** Where the first [c] of a string stands is determined by the string. *)
Lemma first_occurrence c u : forall u' x y,
  Str.contains c u = false -> Str.contains c u' = false ->
  u +:+ String c x = u' +:+ String c y -> u = u'.
Proof.
  induction u as [|a u IH]; intros [|a' u'] x y Hu Hu' Heq;
    rewrite ?app_cons, ?app_nil_l in Heq; simpl in *.
  - done.
  - injection Heq as <- _. by rewrite Ascii.eqb_refl in Hu'.
  - injection Heq as -> _. by rewrite Ascii.eqb_refl in Hu.
  - injection Heq as -> Heq. apply orb_false_iff in Hu as [_ Hu].
    apply orb_false_iff in Hu' as [_ Hu']. f_equal. eauto.
Qed.

Lemma lang_avoids c r : avoids c r = true ->
  forall w, lang r w -> Str.contains c w = false.
Proof.
  induction r as [| |p|r1 IH1 r2 IH2|r1 IH1 r2 IH2|r1 IH1|n r1 IH1];
    simpl; intros Hav w Hw.
  - by subst.
  - by subst.
  - destruct Hw as (x & -> & Hp). simpl. rewrite orb_false_r.
    destruct (Ascii.eqb_spec x c) as [->|]; [|done].
    by rewrite Hp in Hav.
  - apply andb_true_iff in Hav as [H1 H2].
    destruct Hw as (w1 & w2 & -> & Hw1 & Hw2).
    rewrite contains_app, IH1, IH2; done.
  - apply andb_true_iff in Hav as [H1 H2]. destruct Hw; eauto.
  - induction Hw as [|w1 w2 Hw1 _ _ IH]; [done|].
    rewrite contains_app, IH1, IH; done.
  - eauto.
Qed.

(** The pattern of the title accepts the enumeration prefixes and nothing
    else. *)
Lemma lang_digit c : Str.isdecimal c = true -> lang (Chr Str.isdecimal) (String c "").
Proof. simpl. eauto. Qed.

Lemma lang_group_re x :
  lang group_re x <->
  exists g, x = String "," g /\ String.length g = 3
            /\ all_chars Str.isdecimal g = true.
Proof.
  split.
  - intros (w1 & w2 & -> & (c & -> & Hc) & (w3 & w4 & -> & (c1 & -> & H1)
      & (w5 & w6 & -> & (c2 & -> & H2) & (c3 & -> & H3)))).
    apply Ascii.eqb_eq in Hc as <-.
    exists (String c1 (String c2 (String c3 ""))). simpl.
    rewrite H1, H2, H3. done.
  - intros (g & -> & Hlen & Hd).
    destruct g as [|c1 [|c2 [|c3 [|]]]]; try done. simpl in Hd.
    apply andb_true_iff in Hd as [H1 Hd]. apply andb_true_iff in Hd as [H2 Hd].
    apply andb_true_iff in Hd as [H3 _].
    exists ",", (String c1 (String c2 (String c3 ""))). split; [done|].
    split; [exists ","%char; by rewrite Ascii.eqb_refl|].
    exists (String c1 ""), (String c2 (String c3 "")). split; [done|].
    split; [by apply lang_digit|]. exists (String c2 ""), (String c3 "").
    split; [done|]. split; by apply lang_digit.
Qed.

Lemma lang_groups x :
  star (lang group_re) x <->
  exists gs, x = flatten (map (String ",") gs)
             /\ Forall (fun g => String.length g = 3
                                 /\ all_chars Str.isdecimal g = true) gs.
Proof.
  split.
  - induction 1 as [|w1 w2 Hw1 _ _ (gs & -> & Hgs)]; [by exists []|].
    apply lang_group_re in Hw1 as (g & -> & Hg).
    exists (g :: gs). split; [done|]. by constructor.
  - intros (gs & -> & Hgs). induction Hgs as [|g gs Hg _ IH]; [constructor|].
    simpl. constructor; [|done|done]. apply lang_group_re. eauto.
Qed.

Lemma lang_lead ds :
  lang lead_re ds <->
  1 <= String.length ds <= 3 /\ all_chars Str.isdecimal ds = true.
Proof.
  split.
  - intros (w1 & w2 & -> & (c1 & -> & H1) & [(w3 & w4 & -> & (c2 & -> & H2)
      & [(c3 & -> & H3)| ->])| ->]); simpl; rewrite ?H1, ?H2, ?H3; split; (lia || done).
  - intros [Hlen Hd].
    destruct ds as [|c1 [|c2 [|c3 [|]]]]; simpl in Hlen; try lia; simpl in Hd.
    + rewrite andb_true_r in Hd.
      exists (String c1 ""), "". split; [done|]. split; [by apply lang_digit|]. by right.
    + apply andb_true_iff in Hd as [H1 Hd]. rewrite andb_true_r in Hd.
      exists (String c1 ""), (String c2 ""). split; [done|]. split; [by apply lang_digit|].
      left. exists (String c2 ""), "". split; [done|]. split; [by apply lang_digit|]. by right.
    + apply andb_true_iff in Hd as [H1 Hd]. apply andb_true_iff in Hd as [H2 Hd].
      rewrite andb_true_r in Hd.
      exists (String c1 ""), (String c2 (String c3 "")). split; [done|].
      split; [by apply lang_digit|]. left. exists (String c2 ""), (String c3 "").
      split; [done|]. split; [by apply lang_digit|]. left. by apply lang_digit.
Qed.

Lemma lang_enum_re p : lang enum_re p <-> enum_prefix p.
Proof.
  unfold enum_prefix. split.
  - intros (ds & w & -> & Hds & (x & y & -> & Hx & (c & -> & Hc))).
    apply lang_lead in Hds as [Hlen Hd].
    apply lang_groups in Hx as (gs & -> & Hgs).
    apply Ascii.eqb_eq in Hc as <-. exists ds, gs. done.
  - intros (ds & gs & -> & Hlen & Hd & Hgs).
    exists ds, (flatten (map (String ",") gs) +:+ "."). split; [done|].
    split; [by apply lang_lead|].
    exists (flatten (map (String ",") gs)), ".". split; [done|].
    split; [apply lang_groups; eauto|].
    exists "."%char. by rewrite Ascii.eqb_refl.
Qed.

(** A word of the pattern ends at the first period. *)
Lemma lang_enum_re_period w :
  lang enum_re w -> exists u, w = u +:+ "." /\ Str.contains "." u = false.
Proof.
  intros (ds & w' & -> & Hds & (x & y & -> & Hx & (c & -> & Hc))).
  apply Ascii.eqb_eq in Hc as <-.
  exists (ds +:+ x). split; [by rewrite app_assoc|].
  assert (Str.contains "." ds = false) as H1
    by (by eapply (lang_avoids "." lead_re)).
  assert (Str.contains "." x = false) as H2
    by (by eapply (lang_avoids "." (Star (Group 1 group_re)))).
  by rewrite contains_app, H1, H2.
Qed.

Lemma lang_enum_re_unique w p x y :
  lang enum_re w -> lang enum_re p -> w +:+ x = p +:+ y -> w = p /\ x = y.
Proof.
  intros (u & -> & Hu)%lang_enum_re_period (u' & -> & Hu')%lang_enum_re_period.
  rewrite !app_assoc, !app_cons, !app_nil_l. intros Heq.
  pose proof (first_occurrence _ _ _ _ _ Hu Hu' Heq) as ->.
  apply (inj _) in Heq. injection Heq as ->. done.
Qed.

(** [re.sub] with the pattern of the title. *)
Lemma sub_title_prefix p rest_ :
  enum_prefix p -> sub title_re "" (p +:+ rest_) = rest_.
Proof.
  intros Hp%lang_enum_re. unfold title_re. rewrite sub_bol.
  destruct (run_complete enum_re eq_refl p Hp (start 0 (p +:+ rest_)) rest_ eq_refl)
    as (st' & Hin & _).
  destruct (run enum_re _) as [|st l] eqn:Hrun; [done|].
  assert (In st (run enum_re (start 0 (p +:+ rest_)))) as Hst
    by (rewrite Hrun; by left).
  apply run_sound in Hst as (w & Hw & Hr & Hpos). simpl in Hr, Hpos.
  destruct (lang_enum_re_unique w p (rest st) rest_ Hw Hp) as [-> <-]; [done|].
  assert (0 < String.length p).
  { apply lang_enum_re_period in Hp as (u & -> & _). rewrite length_app. simpl. lia. }
  replace (0 <? pos st) with true by (symmetry; apply Nat.ltb_lt; lia).
  done.
Qed.

Lemma sub_title_no_prefix text :
  (forall p rest_, text = p +:+ rest_ -> ~ enum_prefix p) ->
  sub title_re "" text = text.
Proof.
  intros Hno. unfold title_re. rewrite sub_bol.
  destruct (run enum_re _) as [|st l] eqn:Hrun; [done|].
  assert (In st (run enum_re (start 0 text))) as Hst by (rewrite Hrun; by left).
  apply run_sound in Hst as (w & Hw & Hr & _). simpl in Hr.
  apply lang_enum_re in Hw. by destruct (Hno w (rest st)).
Qed.

End TitleFacts.

Section TitleProperties.
Import TitleFacts.

(** C4: the title is the text of the title [div] with a leading
    enumeration prefix (one to three digits, optional groups of a comma and
    three digits, a period) removed and the blanks at both ends trimmed;
    text without such a prefix is only trimmed.  So ["1,234. Super Game"]
    gives ["Super Game"], ["Super Game"] stays as it is, and a card without
    the title [div] gets ["Title not found"]. *)
Theorem extract_title_strips_enumeration :
  (forall game, Bs4.find_title game = None ->
     extract_title game = Py.Str "Title not found")
  /\ (forall game title_section p rest_,
        Bs4.find_title game = Some title_section ->
        Bs4.get_text "" true title_section = p +:+ rest_ ->
        enum_prefix p ->
        extract_title game = Py.Str (Str.strip rest_))
  /\ (forall game title_section,
        Bs4.find_title game = Some title_section ->
        (forall p rest_, Bs4.get_text "" true title_section = p +:+ rest_ ->
                         ~ enum_prefix p) ->
        extract_title game
          = Py.Str (Str.strip (Bs4.get_text "" true title_section)))
  /\ (forall game title_section,
        Bs4.find_title game = Some title_section ->
        Bs4.get_text "" true title_section = "1,234. Super Game" ->
        extract_title game = Py.Str "Super Game")
  /\ (forall game title_section,
        Bs4.find_title game = Some title_section ->
        Bs4.get_text "" true title_section = "Super Game" ->
        extract_title game = Py.Str "Super Game").
Proof.
  unfold extract_title. repeat split.
  - by intros game ->.
  - intros game ts p rest_ -> -> Hp. by rewrite sub_title_prefix.
  - intros game ts -> Hno. by rewrite sub_title_no_prefix.
  - by intros game ts -> ->.
  - by intros game ts -> ->.
Qed.

End TitleProperties.

Lemma enum_prefix_1_234 : enum_prefix "1,234.".
Proof. exists "1", ["234"]. repeat split; simpl; auto. Qed.

Lemma extract_title_strips_enumeration_witness :
  extract_title (Bs4.Card None None None None) = Py.Str "Title not found"
  /\ extract_title (Bs4.Card (Some ["1,234. Super Game"]) None None None)
     = Py.Str (Str.strip " Super Game")
  /\ extract_title (Bs4.Card (Some ["Super Game"]) None None None)
     = Py.Str "Super Game".
Proof.
  destruct extract_title_strips_enumeration as (H1 & H2 & _ & _ & H5).
  split; [by apply H1|]. split.
  - apply (H2 _ ["1,234. Super Game"] "1,234." " Super Game");
      [reflexivity|reflexivity|apply enum_prefix_1_234].
  - apply (H5 _ ["Super Game"]); reflexivity.
Defined.

(** ** The release date *)

Module DateFacts.
Import Datetime DatetimeFacts.

Lemma In_upto n : forall lo y,
  (lo <= y < lo + N.of_nat n)%N -> In y (upto n lo).
Proof.
  induction n as [|n IH]; intros lo y Hy; [lia|]. simpl.
  destruct (N.eq_dec lo y) as [->|Hne]; [by left|].
  right. apply IH. lia.
Qed.

Lemma year_digits_padded :
  forallb (fun y => is_digits 4 (zfill 4 (Str.of_N y))) (upto (10 * 1000) 0) = true.
Proof. vm_compute. reflexivity. Qed.

Lemma year_digits_plain :
  forallb (fun y => is_digits 4 (Str.of_N y)) (upto (9 * 1000) 1000) = true.
Proof. vm_compute. reflexivity. Qed.

Lemma two_digits :
  forallb (fun n => is_digits 2 (zfill 2 (Str.of_N n))) (upto 32 0) = true.
Proof. vm_compute. reflexivity. Qed.

Lemma iso_of_parts y m d :
  is_digits 4 y = true -> is_digits 2 m = true -> is_digits 2 d = true ->
  is_iso_date (y +:+ "-" +:+ m +:+ "-" +:+ d) = true.
Proof.
  unfold is_digits. intros [Hy Hyd]%andb_true_iff [Hm Hmd]%andb_true_iff
    [Hd Hdd]%andb_true_iff.
  apply Nat.eqb_eq in Hy, Hm, Hd.
  destruct y as [|y1 [|y2 [|y3 [|y4 [|]]]]]; try done.
  destruct m as [|m1 [|m2 [|]]]; try done.
  destruct d as [|d1 [|d2 [|]]]; try done.
  simpl in Hyd, Hmd, Hdd. unfold is_iso_date. simpl.
  repeat match goal with
         | H : _ && _ = true |- _ => apply andb_true_iff in H as [? H]
         end.
  repeat match goal with
         | H : Str.isdecimal _ = true |- _ => rewrite H; clear H
         end.
  done.
Qed.

Lemma valid_bounds y m d :
  valid y m d = true -> (1 <= y <= 9999 /\ 1 <= m <= 12 /\ 1 <= d <= 31)%N.
Proof.
  unfold valid, MINYEAR, MAXYEAR. rewrite !andb_true_iff, !N.leb_le.
  intros (((((? & ?) & ?) & ?) & ?) & Hd).
  assert (days_in_month y m <= 31)%N; [|lia].
  unfold days_in_month.
  destruct m as [|p]; [lia|].
  do 4 (try destruct p as [p|p|]); simpl; try destruct (is_leap y); lia.
Qed.

(** From the year 1000 on, or where [%Y] is padded, the date is written
    as YYYY-MM-DD. *)
Lemma strftime_iso pad_year d :
  valid (year d) (month d) (day d) = true ->
  pad_year = true \/ (1000 <= year d)%N ->
  is_iso_date (strftime pad_year d) = true.
Proof.
  intros (Hy & Hm & Hd)%valid_bounds Hpad. unfold strftime.
  apply iso_of_parts.
  - destruct pad_year.
    + pose proof year_digits_padded as H. rewrite forallb_forall in H.
      apply H, In_upto. lia.
    + destruct Hpad as [|Hpad]; [done|].
      pose proof year_digits_plain as H. rewrite forallb_forall in H.
      apply H, In_upto. lia.
  - pose proof two_digits as H. rewrite forallb_forall in H.
    apply H, In_upto. lia.
  - pose proof two_digits as H. rewrite forallb_forall in H.
    apply H, In_upto. lia.
Qed.

End DateFacts.

Section DateProperties.
Import Datetime DatetimeFacts DateFacts.

Variable pad_year : bool.

(** What the [try] block and its handler amount to. *)
Lemma extract_release_date_spec meta_info_section :
  extract_release_date pad_year meta_info_section =
    Py.Ok (Py.Str
      match first_comma_token meta_info_section with
      | None => "Unknown"
      | Some tok =>
          match strptime (Str.strip tok) with
          | Py.Ok d => strftime pad_year d
          | Py.Raise _ => "Unknown"
          end
      end).
Proof.
  unfold extract_release_date, try_release_date, first_comma_token, meta_tokens.
  destruct (filter _ _) as [|tok l]; [done|]. simpl.
  destruct (strptime_cases (Str.strip tok)) as [(d & -> & _)| ->]; done.
Qed.

Lemma extract_game_release_date game meta_info_section :
  Bs4.find_meta game = Some meta_info_section ->
  exists g, extract_game pad_year game = Py.Ok g
            /\ extract_release_date pad_year meta_info_section
               = Py.Ok (release_date g).
Proof.
  intros Hmeta. destruct (extract_game_fields pad_year game) as (d & r & -> & H).
  rewrite Hmeta in H. destruct H as [-> _]. eauto.
Qed.

(** C5: the release date is read from the first token of the metadata line
    that contains a comma.  When [strptime] accepts it (month abbreviation,
    day, comma, four-digit year) the field is the date as [strftime] writes
    it, of the shape YYYY-MM-DD from the year 1000 on; the token
    ["Jan 5, 2020"] gives ["2020-01-05"].  Without such a token, without a
    metadata [div], or when [strptime] rejects the token, the field is
    ["Unknown"]; and [extract_game_data] never raises. *)
Theorem release_date_from_first_comma_token :
  (forall game meta_info_section tok d,
     Bs4.find_meta game = Some meta_info_section ->
     first_comma_token meta_info_section = Some tok ->
     strptime (Str.strip tok) = Py.Ok d ->
     exists g, extract_game pad_year game = Py.Ok g
               /\ release_date g = Py.Str (strftime pad_year d)
               /\ (pad_year = true \/ (1000 <= year d)%N ->
                   is_iso_date (strftime pad_year d) = true))
  /\ (forall game meta_info_section tok,
        Bs4.find_meta game = Some meta_info_section ->
        first_comma_token meta_info_section = Some tok ->
        Str.strip tok = "Jan 5, 2020" ->
        exists g, extract_game pad_year game = Py.Ok g
                  /\ release_date g = Py.Str "2020-01-05")
  /\ (forall game meta_info_section,
        Bs4.find_meta game = Some meta_info_section ->
        first_comma_token meta_info_section = None ->
        exists g, extract_game pad_year game = Py.Ok g
                  /\ release_date g = Py.Str "Unknown")
  /\ (forall game meta_info_section tok e,
        Bs4.find_meta game = Some meta_info_section ->
        first_comma_token meta_info_section = Some tok ->
        strptime (Str.strip tok) = Py.Raise e ->
        exists g, extract_game pad_year game = Py.Ok g
                  /\ release_date g = Py.Str "Unknown")
  /\ (forall game,
        Bs4.find_meta game = None ->
        exists g, extract_game pad_year game = Py.Ok g
                  /\ release_date g = Py.Str "Unknown")
  /\ (forall soup, exists games_data,
        extract_game_data pad_year soup = Py.Ok games_data).
Proof.
  repeat split.
  - intros game meta tok d Hmeta Htok Hd.
    destruct (extract_game_release_date game meta Hmeta) as (g & Hg & Hrd).
    rewrite extract_release_date_spec, Htok, Hd in Hrd. injection Hrd as Hrd; symmetry in Hrd.
    exists g. split; [done|]. split; [done|].
    destruct (strptime_cases (Str.strip tok)) as [(d' & Hd' & Hv)|Hd'];
      rewrite Hd in Hd'; [|done]. injection Hd' as <-.
    by apply strftime_iso.
  - intros game meta tok Hmeta Htok Hstrip.
    destruct (extract_game_release_date game meta Hmeta) as (g & Hg & Hrd).
    rewrite extract_release_date_spec, Htok, Hstrip in Hrd.
    exists g. split; [done|]. injection Hrd as Hrd; symmetry in Hrd. by destruct pad_year.
  - intros game meta Hmeta Htok.
    destruct (extract_game_release_date game meta Hmeta) as (g & Hg & Hrd).
    rewrite extract_release_date_spec, Htok in Hrd. injection Hrd as Hrd; symmetry in Hrd. eauto.
  - intros game meta tok e Hmeta Htok He.
    destruct (extract_game_release_date game meta Hmeta) as (g & Hg & Hrd).
    rewrite extract_release_date_spec, Htok, He in Hrd. injection Hrd as Hrd; symmetry in Hrd.
    eauto.
  - intros game Hmeta.
    destruct (extract_game_fields pad_year game) as (d & r & -> & H).
    rewrite Hmeta in H. destruct H as [-> _]. eauto.
  - intros soup.
    destruct (extract_loop_spec pad_year (Bs4.find_all soup) [])
      as (games & Hok & _). unfold extract_game_data. rewrite Hok. eauto.
Qed.

End DateProperties.

(** ** The rating *)

Module RatingFacts.
Import Re ReFacts StrFacts ReLang.

Lemma lang_lit s w : lang (lit s) w <-> w = s.
Proof.
  revert w. induction s as [|c s IH]; intros w; [done|]. split.
  - intros (w1 & w2 & -> & (x & -> & Hx) & Hw2).
    apply Ascii.eqb_eq in Hx as <-. apply IH in Hw2 as ->. done.
  - intros ->. exists (String c ""), s. split; [done|]. split; [|by apply IH].
    exists c. by rewrite Ascii.eqb_refl.
Qed.

Lemma star_chr p w : star (lang (Chr p)) w <-> all_chars p w = true.
Proof.
  split.
  - induction 1 as [|w1 w2 (c & -> & Hc) _ _ IH]; [done|].
    rewrite app_cons, app_nil_l. simpl. by rewrite Hc, IH.
  - induction w as [|c w IH]; [constructor|]. simpl.
    intros [Hc Hw]%andb_true_iff.
    change (String c w) with (String c "" +:+ w).
    constructor; [by exists c|done|by apply IH].
Qed.

Lemma lang_plus_chr p w :
  lang (Plus (Chr p)) w <-> w <> "" /\ all_chars p w = true.
Proof.
  split.
  - intros (w1 & w2 & -> & (c & -> & Hc) & Hw2%star_chr).
    rewrite app_cons, app_nil_l. simpl. by rewrite Hc, Hw2.
  - intros [Hne Hw]. destruct w as [|c w]; [done|]. simpl in Hw.
    apply andb_true_iff in Hw as [Hc Hw].
    exists (String c ""), w. split; [done|].
    split; [by exists c|by apply star_chr].
Qed.

(** [re.search] reports a match of the pattern somewhere in the subject,
    and reports one whenever there is one. *)
Lemma search_from_sound r s : forall i m,
  search_from r i s = Some m ->
  exists pre s', s = pre +:+ s' /\ In (m_end m) (run r (start (m_start m) s')).
Proof.
  induction s as [|c s IH]; intros i m; simpl.
  - destruct (match_at r i "") eqn:Hm; [|done].
    intros [= <-]. apply match_at_in in Hm as [-> Hin]. by exists "", "".
  - destruct (match_at r i (String c s)) eqn:Hm.
    + intros [= <-]. apply match_at_in in Hm as [-> Hin].
      by exists "", (String c s).
    + intros (pre & s' & -> & Hin)%IH. by exists (String c pre), s'.
Qed.

Lemma search_from_complete r pre : forall i w post,
  bol_free r = true -> lang r w ->
  is_Some (search_from r i (pre +:+ w +:+ post)).
Proof.
  induction pre as [|c pre IH]; intros i w post Hbol Hw.
  - rewrite app_nil_l.
    destruct (run_complete r Hbol w Hw (start i (w +:+ post)) post eq_refl)
      as (st' & Hin & _).
    assert (is_Some (match_at r i (w +:+ post))) as [m Hm].
    { unfold match_at. destruct (run r _); [done|eauto]. }
    destruct (w +:+ post); simpl; rewrite Hm; eauto.
  - rewrite app_cons. simpl.
    destruct (match_at r i _); [eauto|]. by apply IH.
Qed.

Lemma rated_re_match st st' :
  In st' (run rated_re st) ->
  exists ws word,
    rest st = "Rated" +:+ ws +:+ word +:+ rest st'
    /\ assoc 1 (caps st') = Some word
    /\ ws <> "" /\ all_chars Str.isspace ws = true
    /\ word <> "" /\ all_chars Str.isword word = true.
Proof.
  unfold rated_re.
  intros (s1 & H1 & (s2 & H2 & H3)%in_run_cat)%in_run_cat.
  apply run_sound in H1 as (w1 & ->%lang_lit & Hr1 & _).
  apply run_sound in H2 as (ws & [? ?]%lang_plus_chr & Hr2 & _).
  apply run_group_word in H3 as (word & [? ?]%lang_plus_chr & Hcap & Hr3 & _).
  exists ws, word. rewrite Hr1, Hr2, Hr3. done.
Qed.

Lemma lang_rated_re ws word :
  ws <> "" -> all_chars Str.isspace ws = true ->
  word <> "" -> all_chars Str.isword word = true ->
  lang rated_re ("Rated" +:+ ws +:+ word).
Proof.
  intros. exists "Rated", (ws +:+ word). split; [done|].
  split; [by apply lang_lit|]. exists ws, word. split; [done|].
  split; by apply lang_plus_chr.
Qed.

End RatingFacts.

(** *** The engine on the rating pattern, step by step *)

Module GreedyFacts.
Import Re StrFacts.

Lemma space_is_no_word_all :
  forallb (fun n => let c := ascii_of_nat n in
                    implb (Str.isspace c) (negb (Str.isword c)))
    (seq 0 256) = true.
Proof. vm_compute. reflexivity. Qed.

Lemma space_is_no_word c : Str.isspace c = true -> Str.isword c = false.
Proof.
  intros Hsp. pose proof space_is_no_word_all as Hall.
  rewrite forallb_forall in Hall.
  assert (In (nat_of_ascii c) (seq 0 256)) as Hin.
  { apply in_seq. pose proof (nat_ascii_bounded c). lia. }
  apply Hall in Hin. cbv zeta in Hin.
  rewrite ascii_nat_embedding, Hsp in Hin. by apply negb_true_iff.
Qed.

Lemma take_drop_while p s : take_while p s +:+ drop_while p s = s.
Proof.
  induction s as [|c s IH]; [done|]. simpl.
  destruct (p c); [|done]. by rewrite app_cons, IH.
Qed.

Lemma substring_take_while p s :
  String.substring 0 (String.length (take_while p s)) s = take_while p s.
Proof.
  rewrite <- (take_drop_while p s) at 2. apply substring_app.
Qed.

(** The state after the characters of the class [p] at the head of the
    subject have been passed. *)
Definition skip (p : ascii -> bool) (st : mstate) : mstate :=
  MState (pos st + String.length (take_while p (rest st)))
    (drop_while p (rest st)) (caps st).

(** The subject goes on with a character of the class [p]. *)
Definition at_class (p : ascii -> bool) (st : mstate) : Prop :=
  exists c s', rest st = String c s' /\ p c = true.

(** A greedy iteration of a class tries the longest run first; every other
    state it offers stands before a character of the class. *)
Lemma star_chr_greedy p fuel : forall st,
  String.length (rest st) <= fuel ->
  exists others,
    star_from (run (Chr p)) fuel st = skip p st :: others
    /\ Forall (at_class p) others.
Proof.
  induction fuel as [|fuel IH]; intros [i s caps] Hlen; simpl in *.
  - destruct s; [|simpl in Hlen; lia]. exists []. unfold skip. simpl.
    by rewrite Nat.add_0_r.
  - destruct s as [|c s]; simpl.
    + exists []. unfold skip. simpl. by rewrite Nat.add_0_r.
    + destruct (p c) eqn:Hc; simpl.
      * assert ((String.length s <? S (String.length s)) = true) as ->
          by (apply Nat.ltb_lt; lia).
        destruct (IH (advance s (MState i (String c s) caps)))
          as (others & -> & Hothers); [simpl in *; lia|].
        exists (others ++ [MState i (String c s) caps]). split.
        -- unfold skip. simpl. rewrite Hc. simpl.
           by rewrite List.app_nil_r, Nat.add_succ_r.
        -- apply Forall_app. split; [done|]. apply Forall_singleton.
           by exists c, s.
      * exists []. unfold skip. simpl. rewrite Hc. simpl.
        by rewrite Nat.add_0_r.
Qed.

Lemma run_plus_chr p st :
  match take_while p (rest st) with
  | EmptyString => run (Plus (Chr p)) st = []
  | String _ _ =>
      exists others,
        run (Plus (Chr p)) st = skip p st :: others
        /\ Forall (at_class p) others
  end.
Proof.
  destruct st as [i s caps]. unfold Plus. simpl.
  destruct s as [|c s]; simpl; [done|].
  destruct (p c) eqn:Hc; simpl; [|done].
  destruct (star_chr_greedy p (String.length s)
              (advance s (MState i (String c s) caps)))
    as (others & Hrun & Hothers); [done|].
  exists others. rewrite List.app_nil_r. split; [|done].
  simpl in Hrun. rewrite Hrun. unfold skip. simpl. rewrite Hc. simpl.
  by rewrite Nat.add_succ_r.
Qed.

Lemma run_lit pre : forall st,
  run (lit pre) st
  = match strip_prefix pre (rest st) with
    | Some s' => [MState (pos st + String.length pre) s' (caps st)]
    | None => []
    end.
Proof.
  induction pre as [|a pre IH]; intros [i s caps]; simpl.
  - by rewrite Nat.add_0_r.
  - destruct s as [|b s]; simpl; [done|]. unfold chr. simpl.
    destruct (Ascii.eqb a b); simpl; [|done].
    rewrite List.app_nil_r, IH. simpl. by rewrite Nat.add_succ_r.
Qed.

Lemma flat_map_nil {A B} (f : A -> list B) (l : list A) :
  Forall (fun x => f x = []) l -> flat_map f l = [].
Proof. induction 1 as [|x l Hx Hl IH]; [done|]. simpl. by rewrite Hx, IH. Qed.

Lemma run_cat r1 r2 st : run (Cat r1 r2) st = flat_map (run r2) (run r1 st).
Proof. reflexivity. Qed.

Lemma run_group n r st : run (Group n r) st = map (capture n st) (run r st).
Proof. reflexivity. Qed.

Lemma flat_map_one {A B} (f : A -> list B) (x : A) : flat_map f [x] = f x.
Proof. simpl. apply List.app_nil_r. Qed.

(** What the engine reports for the rating pattern tried at one place. *)
Lemma match_at_rated i s :
  match rated_here s with
  | Some word =>
      exists m, match_at rated_re i s = Some m /\ group 1 m = Some word
  | None => match_at rated_re i s = None
  end.
Proof.
  unfold rated_here, match_at, rated_re.
  rewrite run_cat, run_lit. change (rest (start i s)) with s.
  destruct (strip_prefix "Rated" s) as [after|]; [|done].
  set (st1 := MState _ after _). rewrite flat_map_one, run_cat.
  pose proof (run_plus_chr Str.isspace st1) as Hsp.
  change (rest st1) with after in Hsp.
  destruct (take_while Str.isspace after) as [|b blanks] eqn:Hblanks.
  { by rewrite Hsp. }
  destruct Hsp as (others & -> & Hothers).
  change (flat_map ?f (?x :: others)) with (f x ++ flat_map f others).
  rewrite (flat_map_nil _ others).
  2:{ eapply Forall_impl; [apply Hothers|].
      intros st (c & s' & Hrest & Hc). rewrite run_group.
      pose proof (run_plus_chr Str.isword st) as Hwd. rewrite Hrest in Hwd.
      cbn [take_while] in Hwd. rewrite (space_is_no_word c Hc) in Hwd.
      by rewrite Hwd. }
  rewrite List.app_nil_r, run_group.
  pose proof (run_plus_chr Str.isword (skip Str.isspace st1)) as Hwd.
  change (rest (skip Str.isspace st1)) with (drop_while Str.isspace after)
    in Hwd.
  destruct (take_while Str.isword (drop_while Str.isspace after))
    as [|c word] eqn:Hword.
  { by rewrite Hwd. }
  destruct Hwd as (others' & -> & _).
  eexists. split; [reflexivity|].
  unfold group, capture, skip. simpl. rewrite Hword. f_equal.
  replace (_ - _) with (String.length (String c word)) by (simpl; lia).
  by rewrite <- Hword, substring_take_while.
Qed.

Lemma search_from_rated s : forall i,
  match first_rated s with
  | Some word =>
      exists m, search_from rated_re i s = Some m /\ group 1 m = Some word
  | None => search_from rated_re i s = None
  end.
Proof.
  induction s as [|c s IH]; intros i.
  - pose proof (match_at_rated i "") as H. simpl in *.
    by destruct (match_at rated_re i "").
  - pose proof (match_at_rated i (String c s)) as H.
    unfold first_rated; fold first_rated. unfold search_from; fold search_from.
    destruct (rated_here (String c s)) as [word|].
    + destruct H as (m & -> & Hg). eauto.
    + rewrite H. apply IH.
Qed.

End GreedyFacts.

(** *** The first whole word *)

Module FirstRated.
Import StrFacts GreedyFacts.

Lemma all_take_while p s : all_chars p (take_while p s) = true.
Proof.
  induction s as [|c s IH]; [done|]. simpl.
  destruct (p c) eqn:Hc; [|done]. simpl. by rewrite Hc.
Qed.

Lemma stops_drop_while p s : stops p (drop_while p s) = true.
Proof.
  induction s as [|c s IH]; [done|]. simpl.
  destruct (p c) eqn:Hc; [done|]. simpl. by rewrite Hc.
Qed.

Lemma take_while_app p w s :
  all_chars p w = true -> take_while p (w +:+ s) = w +:+ take_while p s.
Proof.
  induction w as [|c w IH]; [by rewrite !app_nil_l|]. simpl.
  intros [Hc Hw]%andb_true_iff. rewrite ?app_cons. simpl.
  by rewrite Hc, IH.
Qed.

Lemma drop_while_app p w s :
  all_chars p w = true -> drop_while p (w +:+ s) = drop_while p s.
Proof.
  induction w as [|c w IH]; [by rewrite !app_nil_l|]. simpl.
  intros [Hc Hw]%andb_true_iff. rewrite ?app_cons. simpl.
  by rewrite Hc, IH.
Qed.

Lemma take_while_stops p s : stops p s = true -> take_while p s = "".
Proof. destruct s as [|c s]; [done|]. simpl. by intros ->%negb_true_iff. Qed.

Lemma drop_while_stops p s : stops p s = true -> drop_while p s = s.
Proof. destruct s as [|c s]; [done|]. simpl. by intros ->%negb_true_iff. Qed.

Lemma strip_prefix_app pre s : strip_prefix pre (pre +:+ s) = Some s.
Proof.
  induction pre as [|c pre IH]; [by rewrite app_nil_l; destruct s|].
  rewrite app_cons. simpl. by rewrite Ascii.eqb_refl.
Qed.

Lemma strip_prefix_Some pre : forall s s',
  strip_prefix pre s = Some s' -> s = pre +:+ s'.
Proof.
  induction pre as [|c pre IH]; intros s s'; simpl.
  - intros [= ->]. by rewrite app_nil_l.
  - destruct s as [|b s]; [done|].
    destruct (Ascii.eqb c b) eqn:Hcb; [|done].
    apply Ascii.eqb_eq in Hcb as <-. intros ->%IH. by rewrite app_cons.
Qed.

(** A word does not begin with a blank. *)
Lemma word_is_no_blank w s :
  w <> "" -> all_chars Str.isword w = true -> stops Str.isspace (w +:+ s) = true.
Proof.
  destruct w as [|c w]; [done|]. intros _ [Hc _]%andb_true_iff.
  rewrite app_cons. simpl. destruct (Str.isspace c) eqn:Hsp; [|done].
  apply space_is_no_word in Hsp. congruence.
Qed.

Lemma app_not_empty w s : w <> "" -> exists c r, w +:+ s = String c r.
Proof. destruct w as [|c w]; [done|]. rewrite app_cons. eauto. Qed.

(** ["Rated"], blanks and a whole word at the start of the text. *)
Lemma rated_here_whole ws word post :
  ws <> "" -> all_chars Str.isspace ws = true ->
  word <> "" -> all_chars Str.isword word = true ->
  stops Str.isword post = true ->
  rated_here ("Rated" +:+ ws +:+ word +:+ post) = Some word.
Proof.
  intros Hws Hsp Hword Hwd Hpost. unfold rated_here.
  rewrite strip_prefix_app.
  rewrite (take_while_app _ ws) by done. rewrite (drop_while_app _ ws) by done.
  rewrite (take_while_stops Str.isspace), (drop_while_stops Str.isspace)
    by by apply word_is_no_blank.
  rewrite (take_while_app _ word) by done.
  rewrite (take_while_stops Str.isword post), !app_nil_r by done.
  destruct ws; [done|]. by destruct word.
Qed.

(** ["Rated"], blanks and some word characters at the start of the text. *)
Lemma rated_here_some ws word post :
  ws <> "" -> all_chars Str.isspace ws = true ->
  word <> "" -> all_chars Str.isword word = true ->
  is_Some (rated_here ("Rated" +:+ ws +:+ word +:+ post)).
Proof.
  intros Hws Hsp Hword Hwd. unfold rated_here.
  rewrite strip_prefix_app.
  rewrite (take_while_app _ ws) by done. rewrite (drop_while_app _ ws) by done.
  rewrite (take_while_stops Str.isspace), (drop_while_stops Str.isspace)
    by by apply word_is_no_blank.
  rewrite (take_while_app _ word), !app_nil_r by done.
  destruct ws; [done|].
  destruct (app_not_empty word (take_while Str.isword post) Hword)
    as (c & r & ->). eauto.
Qed.

Lemma rated_here_inv s word :
  rated_here s = Some word ->
  exists ws post,
    s = "Rated" +:+ ws +:+ word +:+ post
    /\ ws <> "" /\ all_chars Str.isspace ws = true
    /\ word <> "" /\ all_chars Str.isword word = true
    /\ stops Str.isword post = true.
Proof.
  unfold rated_here.
  destruct (strip_prefix "Rated" s) as [after|] eqn:Hpre; [|done].
  apply strip_prefix_Some in Hpre as ->.
  destruct (take_while Str.isspace after) as [|b blanks] eqn:Hblanks; [done|].
  destruct (take_while Str.isword (drop_while Str.isspace after))
    as [|c w] eqn:Hword; [done|].
  intros [= <-].
  exists (String b blanks),
    (drop_while Str.isword (drop_while Str.isspace after)).
  split.
  { rewrite <- Hword, take_drop_while, <- Hblanks. by rewrite take_drop_while. }
  split; [done|]. split; [rewrite <- Hblanks; apply all_take_while|].
  split; [done|]. split; [rewrite <- Hword; apply all_take_while|].
  apply stops_drop_while.
Qed.

Lemma first_rated_sound s : forall word,
  first_rated s = Some word -> first_rated_word s word.
Proof.
  induction s as [|c s IH]; intros word.
  - done.
  - unfold first_rated; fold first_rated.
    destruct (rated_here (String c s)) as [w|] eqn:Hhere.
    + intros [= ->]. apply rated_here_inv in Hhere
        as (ws & post & Hs & Hws & Hsp & Hword & Hwd & Hpost).
      exists "", ws, post. rewrite app_nil_l. repeat (split; [done|]).
      intros. simpl. lia.
    + intros (pre & ws & post & Hs & Hws & Hsp & Hword & Hwd & Hpost & Hleft)%IH.
      exists (String c pre), ws, post. rewrite app_cons, <- Hs.
      repeat (split; [done|]).
      intros pre' ws' word' post' Hs' Hws' Hsp' Hword' Hwd'.
      destruct pre' as [|c' pre'].
      * rewrite app_nil_l in Hs'. rewrite Hs' in Hhere.
        by destruct (rated_here_some ws' word' post' Hws' Hsp' Hword' Hwd')
          as [? Hsome]; rewrite Hsome in Hhere.
      * rewrite app_cons in Hs'. injection Hs' as _ Hs'.
        specialize (Hleft pre' ws' word' post' Hs' Hws' Hsp' Hword' Hwd').
        simpl. lia.
Qed.

Lemma first_rated_complete s word :
  first_rated_word s word -> first_rated s = Some word.
Proof.
  intros (pre & ws & post & -> & Hws & Hsp & Hword & Hwd & Hpost & Hleft).
  induction pre as [|c pre IH].
  - rewrite app_nil_l.
    pose proof (rated_here_whole ws word post Hws Hsp Hword Hwd Hpost) as Hhere.
    destruct ("Rated" +:+ ws +:+ word +:+ post); [done|].
    unfold first_rated; fold first_rated. by rewrite Hhere.
  - rewrite app_cons. unfold first_rated; fold first_rated.
    destruct (rated_here _) as [w|] eqn:Hhere.
    + apply rated_here_inv in Hhere
        as (ws' & post' & Hs' & Hws' & Hsp' & Hword' & Hwd' & _).
      rewrite <- app_cons, <- (app_nil_l ("Rated" +:+ ws' +:+ w +:+ post')) in Hs'.
      specialize (Hleft "" ws' w post' Hs' Hws' Hsp' Hword' Hwd').
      simpl in Hleft. lia.
    + apply IH. intros pre' ws' word' post' Hs' Hws' Hsp' Hword' Hwd'.
      assert (String c pre +:+ "Rated" +:+ ws +:+ word +:+ post
              = String c pre' +:+ "Rated" +:+ ws' +:+ word' +:+ post') as Hs''
        by (by rewrite (app_cons c pre), (app_cons c pre'), Hs').
      specialize (Hleft _ ws' word' post' Hs'' Hws' Hsp' Hword' Hwd').
      simpl in Hleft. lia.
Qed.

Lemma occurrence_first_rated s w :
  rated_occurrence s w -> is_Some (first_rated s).
Proof.
  intros (pre & ws & post & -> & Hws & Hsp & Hword & Hwd).
  induction pre as [|c pre IH].
  - rewrite app_nil_l.
    destruct (rated_here_some ws w post Hws Hsp Hword Hwd) as [x Hx].
    destruct ("Rated" +:+ ws +:+ w +:+ post); [done|].
    unfold first_rated; fold first_rated. rewrite Hx. eauto.
  - rewrite app_cons. unfold first_rated; fold first_rated.
    destruct (rated_here _); eauto.
Qed.

(** What [extract_rating] returns, read off the text from left to right. *)
Lemma extract_rating_first_rated (meta_info_section : Bs4.tag) :
  extract_rating meta_info_section
  = match first_rated (Bs4.get_text "" false meta_info_section) with
    | Some word => Py.Str word
    | None => Py.Str "Rating not found"
    end.
Proof.
  unfold extract_rating, Re.search.
  pose proof (search_from_rated
                (Bs4.get_text "" false meta_info_section) 0) as H.
  destruct (first_rated _) as [word|].
  - destruct H as (m & -> & ->). done.
  - by rewrite H.
Qed.

End FirstRated.

Section RatingProperties.
Import Re RatingFacts StrFacts.

(** C6: the rating is looked for in the whole text of the metadata [div].
    Where that text has ["Rated"], blanks and a word, the field is the
    word token of the first such place, the whole of it: all the word
    characters that follow the blanks, up to the first character that is
    none or to the end (["Rated M for Mature"] gives ["M"]).  Where the
    text has no such place, the field is ["Rating not found"].  The search
    does not look at the release date: the rating is a function of the
    metadata text alone, a card can have a rating and no date, and a date
    and no rating. *)
Theorem rating_from_metadata_text :
  (forall meta_info_section word,
     first_rated_word (Bs4.get_text "" false meta_info_section) word ->
     extract_rating meta_info_section = Py.Str word)
  /\ (forall meta_info_section w,
        rated_occurrence (Bs4.get_text "" false meta_info_section) w ->
        exists word,
          extract_rating meta_info_section = Py.Str word
          /\ first_rated_word (Bs4.get_text "" false meta_info_section) word)
  /\ (forall meta_info_section,
        (forall word,
           ~ rated_occurrence (Bs4.get_text "" false meta_info_section) word) ->
        extract_rating meta_info_section = Py.Str "Rating not found")
  /\ (forall meta_info_section,
        Bs4.get_text "" false meta_info_section = "Rated M for Mature" ->
        extract_rating meta_info_section = Py.Str "M")
  /\ (forall pad_year game meta_info_section,
        Bs4.find_meta game = Some meta_info_section ->
        exists g, extract_game pad_year game = Py.Ok g
                  /\ rating g = extract_rating meta_info_section)
  /\ (forall pad_year,
        extract_game pad_year (Bs4.Card None (Some ["Rated M"]) None None)
        = Py.Ok (GameData (Py.Str "Title not found") (Py.Str "Unknown")
                   (Py.Str "M") (Py.Str "Description not found")
                   (Py.Str "Metascore not available")))
  /\ (forall pad_year,
        extract_game pad_year (Bs4.Card None (Some ["Jan 5, 2020"]) None None)
        = Py.Ok (GameData (Py.Str "Title not found") (Py.Str "2020-01-05")
                   (Py.Str "Rating not found") (Py.Str "Description not found")
                   (Py.Str "Metascore not available"))).
Proof.
  split; [|split; [|split; [|split; [|split; [|split]]]]].
  - intros meta word Hfirst.
    by rewrite FirstRated.extract_rating_first_rated,
      (FirstRated.first_rated_complete _ _ Hfirst).
  - intros meta w Hocc.
    destruct (FirstRated.occurrence_first_rated _ _ Hocc) as [word Hword].
    exists word. rewrite FirstRated.extract_rating_first_rated, Hword.
    split; [done|]. by apply FirstRated.first_rated_sound.
  - intros meta Hno. unfold extract_rating, search.
    destruct (search_from _ _ _) as [m|] eqn:Hm; [|done].
    apply search_from_sound in Hm as (pre' & s' & Hs & Hin).
    apply rated_re_match in Hin as (ws' & word & Hr & Hcap & ? & ? & ? & ?).
    destruct (Hno word). exists pre', ws', (rest (m_end m)). simpl in Hr.
    split; [|done]. rewrite Hs. f_equal. done.
  - intros meta Htext. unfold extract_rating. by rewrite Htext.
  - intros pad game meta Hmeta.
    destruct (extract_game_fields pad game) as (d & r & -> & H).
    rewrite Hmeta in H. destruct H as [_ ->]. eauto.
  - by intros [].
  - by intros [].
Qed.

End RatingProperties.

(** ** The pagination loops *)

Section Pagination.

Variable requests_get : string -> Requests.outcome.
Variable pad_year : bool.
Variable url_of : nat -> string.

Local Abbreviation loop_body := (loop_body requests_get pad_year url_of).
Local Abbreviation while_true := (while_true requests_get pad_year url_of).
Local Abbreviation paginate := (paginate requests_get pad_year url_of).

Lemma extract_game_data_records_of soup :
  extract_game_data pad_year soup = Py.Ok (records_of pad_year soup).
Proof.
  unfold records_of, extract_game_data.
  by destruct (extract_loop_spec pad_year (Bs4.find_all soup) [])
    as (gs & -> & _).
Qed.

(** One turn on a page with cards: the records are appended and the loop
    goes on with the next page. *)
Lemma loop_body_has_cards acc p w soup :
  has_cards requests_get (url_of p) soup ->
  loop_body (Scrape acc p w)
  = (Continue, Scrape (acc ++ records_of pad_year soup) (S p)
                 (asked (url_of p) w)).
Proof.
  intros [Hget Hcards]. unfold loop_body, fetch_and_parse. simpl.
  rewrite Hget. simpl. destruct (Bs4.find_all soup) eqn:Hf; [done|].
  by rewrite extract_game_data_records_of.
Qed.

(** One turn on a page without cards: [break]. *)
Lemma loop_body_no_cards acc p w :
  no_cards requests_get (url_of p) ->
  loop_body (Scrape acc p w)
  = (Break,
     Scrape acc p
       (print ("No game listings found on page " +:+ Str.of_nat p
               +:+ ". Assuming end of pages and exiting loop.")
          (asked (url_of p) w))).
Proof.
  intros (soup & Hget & Hcards). unfold loop_body, fetch_and_parse. simpl.
  rewrite Hget. simpl. by rewrite Hcards.
Qed.

(** One turn on a status other than 200: two lines are printed, [break]. *)
Lemma loop_body_bad_status acc p w :
  bad_status requests_get (url_of p) ->
  loop_body (Scrape acc p w)
  = (Break,
     Scrape acc p
       (print ("Failed to retrieve page " +:+ Str.of_nat p +:+ ". Exiting loop.")
          (print "Failed to retrieve the page" (asked (url_of p) w)))).
Proof.
  intros (status & content & Hget & Hne). unfold loop_body, fetch_and_parse.
  simpl. rewrite Hget. apply Z.eqb_neq in Hne. by rewrite Hne.
Qed.

(** One turn when [requests.get] raises: the exception leaves the loop. *)
Lemma loop_body_raises acc p w :
  requests_get (url_of p) = Requests.Fails ->
  loop_body (Scrape acc p w)
  = (Raised Py.RequestException, Scrape acc p (asked (url_of p) w)).
Proof.
  intros Hget. unfold loop_body, fetch_and_parse. simpl. by rewrite Hget.
Qed.

(** Through pages with cards the loop keeps going: [length pages] turns
    from page [p] on leave it at page [p + length pages]. *)
Lemma while_true_has_cards pages : forall acc p w fuel,
  (forall i soup, pages !! i = Some soup ->
                  has_cards requests_get (url_of (p + i)) soup) ->
  while_true (length pages + fuel) (Scrape acc p w)
  = while_true fuel
      (Scrape (acc ++ concat (map (records_of pad_year) pages))
         (p + length pages) (asked_pages url_of p (length pages) w)).
Proof.
  induction pages as [|soup pages IH]; intros acc p w fuel Hpages.
  - simpl. by rewrite List.app_nil_r, Nat.add_0_r.
  - simpl. rewrite (loop_body_has_cards acc p w soup).
    2:{ specialize (Hpages 0 soup eq_refl). by rewrite Nat.add_0_r in Hpages. }
    rewrite IH.
    2:{ intros i s Hi. specialize (Hpages (S i) s Hi).
        by rewrite Nat.add_succ_r in Hpages. }
    rewrite <- app_assoc. by rewrite Nat.add_succ_r.
Qed.

Lemma requested_asked_pages p n w :
  requested (asked_pages url_of p n w) = requested w ++ map url_of (seq p n).
Proof.
  unfold asked_pages. revert p w.
  induction n as [|n IH]; intros p w; simpl; [by rewrite List.app_nil_r|].
  rewrite IH. simpl. by rewrite <- app_assoc.
Qed.

Lemma asked_pages_S p n w :
  asked_pages url_of p (S n) w = asked (url_of (p + n)) (asked_pages url_of p n w).
Proof. unfold asked_pages. by rewrite seq_S, foldl_app. Qed.

Lemma records_of_length soup :
  length (records_of pad_year soup) = length (Bs4.find_all soup).
Proof.
  unfold records_of, extract_game_data.
  destruct (extract_loop_spec pad_year (Bs4.find_all soup) [])
    as (gs & -> & HF & _).
  symmetry. by eapply Forall2_length.
Qed.

(** Where the loop stands once the pages with cards are behind it. *)
Lemma paginate_has_cards pages w fuel :
  (forall i soup, pages !! i = Some soup ->
                  has_cards requests_get (url_of (S i)) soup) ->
  paginate (length pages + fuel) w
  = while_true fuel
      (Scrape (concat (map (records_of pad_year) pages)) (S (length pages))
         (asked_pages url_of 1 (length pages) w)).
Proof.
  intros Hpages. unfold paginate.
  by rewrite (while_true_has_cards pages [] 1 w fuel Hpages).
Qed.

(** One turn when the parser rejects the body of a 200 response: its
    exception leaves the loop. *)
Lemma loop_body_rejected acc p w :
  rejected requests_get (url_of p) ->
  loop_body (Scrape acc p w)
  = (Raised Py.ParserRejectedMarkup, Scrape acc p (asked (url_of p) w)).
Proof.
  intros Hget. unfold loop_body, fetch_and_parse. simpl. by rewrite Hget.
Qed.

Lemma page_cases url :
  (exists soup, has_cards requests_get url soup)
  \/ no_cards requests_get url
  \/ bad_status requests_get url
  \/ rejected requests_get url
  \/ requests_get url = Requests.Fails.
Proof.
  unfold has_cards, no_cards, bad_status, rejected.
  destruct (requests_get url) as [status_code content|]; [|by repeat right].
  destruct (Z.eq_dec status_code 200%Z) as [->|Hne].
  - destruct content as [soup|]; [|by right; right; right; left].
    destruct (Bs4.find_all soup) eqn:Hcards.
    + right. left. eauto.
    + left. exists soup. split; [done|]. by rewrite Hcards.
  - right. right. left. eauto.
Qed.

(** In every scope the loop asks for page 1, 2, ... once each.  While the
    pages have cards it is still running; at the first page that comes
    back with a status other than 200 or without cards it stops, with the
    records of the pages before, in page order.  So pages with N, N and 0
    cards give the records of the first two pages after 3 requests, and a
    first page with a status other than 200 gives no record after 1
    request.  Where [requests.get] raises instead, the loop is left by the
    exception after the same number of requests. *)
Theorem pagination_stops_at_first_failed_or_empty_page
    (pages : list Bs4.soup) (w : world) :
  (forall i soup, pages !! i = Some soup ->
                  has_cards requests_get (url_of (S i)) soup) ->
  paginate (length pages) w
  = Running (Scrape (concat (map (records_of pad_year) pages))
               (S (length pages)) (asked_pages url_of 1 (length pages) w))
  /\ (bad_status requests_get (url_of (S (length pages)))
      \/ no_cards requests_get (url_of (S (length pages))) ->
      forall fuel, length pages < fuel ->
      exists st,
        paginate fuel w = Finished st
        /\ all_games_data st = concat (map (records_of pad_year) pages)
        /\ page st = S (length pages)
        /\ requested (io st)
           = requested w ++ map url_of (seq 1 (S (length pages))))
  /\ (forall s1 s2, pages = [s1; s2] ->
      no_cards requests_get (url_of 3) ->
      forall fuel, 3 <= fuel ->
      exists st,
        paginate fuel w = Finished st
        /\ all_games_data st = records_of pad_year s1 ++ records_of pad_year s2
        /\ length (all_games_data st)
           = length (Bs4.find_all s1) + length (Bs4.find_all s2)
        /\ requested (io st) = requested w ++ [url_of 1; url_of 2; url_of 3])
  /\ (pages = [] ->
      bad_status requests_get (url_of 1) ->
      forall fuel, 1 <= fuel ->
      exists st,
        paginate fuel w = Finished st
        /\ all_games_data st = []
        /\ requested (io st) = requested w ++ [url_of 1])
  /\ (requests_get (url_of (S (length pages))) = Requests.Fails ->
      forall fuel, length pages < fuel ->
      exists st,
        paginate fuel w = Crashed Py.RequestException st
        /\ all_games_data st = concat (map (records_of pad_year) pages)
        /\ requested (io st)
           = requested w ++ map url_of (seq 1 (S (length pages)))).
Proof.
  intros Hpages.
  assert (bad_status requests_get (url_of (S (length pages)))
          \/ no_cards requests_get (url_of (S (length pages))) ->
          forall fuel, length pages < fuel ->
          exists st,
            paginate fuel w = Finished st
            /\ all_games_data st = concat (map (records_of pad_year) pages)
            /\ page st = S (length pages)
            /\ requested (io st)
               = requested w ++ map url_of (seq 1 (S (length pages)))) as Hstop.
  { intros Hend fuel Hfuel.
    replace fuel with (length pages + S (fuel - S (length pages))) by lia.
    rewrite (paginate_has_cards pages w _ Hpages). simpl.
    destruct Hend as [Hbad|Hempty].
    - rewrite (loop_body_bad_status _ _ _ Hbad). eexists. split; [done|].
      simpl. split; [done|]. split; [done|].
      change (requested (asked (url_of (S (length pages)))
                           (asked_pages url_of 1 (length pages) w))
              = requested w ++ map url_of (seq 1 (S (length pages)))).
      rewrite <- (asked_pages_S 1). apply requested_asked_pages.
    - rewrite (loop_body_no_cards _ _ _ Hempty). eexists. split; [done|].
      simpl. split; [done|]. split; [done|].
      change (requested (asked (url_of (S (length pages)))
                           (asked_pages url_of 1 (length pages) w))
              = requested w ++ map url_of (seq 1 (S (length pages)))).
      rewrite <- (asked_pages_S 1). apply requested_asked_pages. }
  split; [|split; [done|split; [|split]]].
  - pose proof (paginate_has_cards pages w 0 Hpages) as H.
    by rewrite Nat.add_0_r in H.
  - intros s1 s2 -> Hempty fuel Hfuel.
    destruct (Hstop (or_intror Hempty) fuel) as (st & Hst & Hdata & _ & Hreq);
      [simpl; lia|].
    exists st. split; [done|]. simpl in Hdata, Hreq.
    rewrite List.app_nil_r in Hdata. split; [done|]. split; [|done].
    by rewrite Hdata, length_app, !records_of_length.
  - intros -> Hbad fuel Hfuel.
    destruct (Hstop (or_introl Hbad) fuel) as (st & Hst & Hdata & _ & Hreq);
      [simpl; lia|].
    exists st. done.
  - intros Hfails fuel Hfuel.
    replace fuel with (length pages + S (fuel - S (length pages))) by lia.
    rewrite (paginate_has_cards pages w _ Hpages). simpl.
    rewrite (loop_body_raises _ _ _ Hfails). eexists. split; [done|].
    simpl. split; [done|].
    change (requested (asked (url_of (S (length pages)))
                         (asked_pages url_of 1 (length pages) w))
            = requested w ++ map url_of (seq 1 (S (length pages)))).
    rewrite <- (asked_pages_S 1). apply requested_asked_pages.
Qed.

(** When the response has a status other than 200, [fetch_and_parse]
    prints a line and returns [None]; the loop then prints its own line and
    stops with the records gathered so far, and nothing is raised.  When
    [requests.get] itself raises, nothing catches the exception: the loop
    is left by it, without those lines. *)
Theorem bad_status_ends_scope_quietly (pages : list Bs4.soup) (w : world) (fuel : nat) :
  (forall i soup, pages !! i = Some soup ->
                  has_cards requests_get (url_of (S i)) soup) ->
  length pages < fuel ->
  (bad_status requests_get (url_of (S (length pages))) ->
   paginate fuel w
   = Finished
       (Scrape (concat (map (records_of pad_year) pages)) (S (length pages))
          (print ("Failed to retrieve page " +:+ Str.of_nat (S (length pages))
                  +:+ ". Exiting loop.")
             (print "Failed to retrieve the page"
                (asked_pages url_of 1 (S (length pages)) w)))))
  /\ (requests_get (url_of (S (length pages))) = Requests.Fails ->
      paginate fuel w
      = Crashed Py.RequestException
          (Scrape (concat (map (records_of pad_year) pages)) (S (length pages))
             (asked_pages url_of 1 (S (length pages)) w))).
Proof.
  intros Hpages Hfuel.
  replace fuel with (length pages + S (fuel - S (length pages))) by lia.
  rewrite (paginate_has_cards pages w _ Hpages). simpl.
  rewrite (asked_pages_S 1). split.
  - intros Hbad. by rewrite (loop_body_bad_status _ _ _ Hbad).
  - intros Hfails. by rewrite (loop_body_raises _ _ _ Hfails).
Qed.

End Pagination.

(** ** [merge_platform_dfs] *)

Module MergeFacts.
Import Merge.

Lemma data_add_platform p s r : data (add_platform p s r) = data r.
Proof. unfold add_platform. by destruct (has_platform p (platforms r)). Qed.

Lemma has_platform_app p l1 l2 :
  has_platform p (l1 ++ l2) = has_platform p l1 || has_platform p l2.
Proof. apply existsb_app. Qed.

Lemma has_platform_add p s r :
  has_platform p (platforms (add_platform p s r)) = true.
Proof.
  unfold add_platform. destruct (has_platform p (platforms r)) eqn:H; [done|].
  simpl. rewrite has_platform_app. simpl. rewrite String.eqb_refl.
  by rewrite orb_true_r.
Qed.

(** Once a platform is in a row, offering it again changes nothing. *)
Lemma add_platform_again p s s' r :
  add_platform p s (add_platform p s' r) = add_platform p s' r.
Proof.
  unfold add_platform at 1. by rewrite has_platform_add.
Qed.

Lemma data_merge_one p r x : data (merge_one p r x) = data r.
Proof.
  unfold merge_one. destruct (eq_value _ _); [apply data_add_platform|done].
Qed.

(** The loop over [matched_idx] visits the rows with the title of
    [platform_row], and those only. *)
Lemma visit_matched p platform_row st : forall pre,
  foldl (visit p platform_row) (pre ++ st)
    (index_where (length pre)
       (map (fun t => eq_value t (title platform_row))
          (map (fun r => title (data r)) st)))
  = pre ++ map (fun r => merge_one p r platform_row) st.
Proof.
  induction st as [|r st IH]; intros pre; [done|]. simpl.
  unfold merge_one at 1.
  destruct (eq_value (title (data r)) (title platform_row)).
  - simpl. unfold visit at 2.
    rewrite alter_app_r_alt by lia. rewrite Nat.sub_diag. simpl.
    specialize (IH (pre ++ [add_platform p (metascore platform_row) r])).
    rewrite length_app, Nat.add_1_r, <- !app_assoc in IH. done.
  - specialize (IH (pre ++ [r])).
    rewrite length_app, Nat.add_1_r, <- !app_assoc in IH. done.
Qed.

Lemma merge_row_spec p st platform_row :
  st <> [] ->
  merge_row p st platform_row
  = Py.Ok (map (fun r => merge_one p r platform_row) st).
Proof.
  intros Hne. unfold merge_row, getitem_title.
  destruct st as [|r0 st0] eqn:Hst; [done|]. rewrite <- Hst. simpl.
  f_equal. apply (visit_matched p platform_row st []).
Qed.

Lemma merge_row_empty p platform_row :
  merge_row p [] platform_row = Py.Raise (Py.KeyError "title").
Proof. done. Qed.

Lemma map_nonempty {A B} (f : A -> B) (l : list A) : l <> [] -> map f l <> [].
Proof. by destruct l. Qed.

Lemma merge_rows_spec p df : forall st,
  st <> [] ->
  foldlM (merge_row p) st df
  = Py.Ok (map (fun r => foldl (merge_one p) r df) st).
Proof.
  induction df as [|x df IH]; intros st Hne; simpl.
  - by rewrite map_id.
  - rewrite merge_row_spec by done. simpl.
    rewrite IH by by apply map_nonempty. by rewrite map_map.
Qed.

(** Of the records of one frame only the first with the row's title counts. *)
Lemma foldl_merge_one_added p df : forall r,
  has_platform p (platforms r) = true ->
  foldl (merge_one p) r df = r.
Proof.
  induction df as [|x df IH]; intros r Hp; [done|]. simpl.
  rewrite IH; unfold merge_one, add_platform; rewrite Hp;
    by destruct (eq_value _ _).
Qed.

Lemma foldl_merge_one p df : forall r,
  foldl (merge_one p) r df = row_step r (p, df).
Proof.
  unfold row_step, first_match. simpl.
  induction df as [|x df IH]; intros r; [done|]. simpl.
  unfold merge_one at 2.
  destruct (eq_value (title (data r)) (title x)) eqn:Heq; [|apply IH].
  apply foldl_merge_one_added, has_platform_add.
Qed.

Lemma merge_frame_spec st item :
  st <> [] ->
  merge_frame st item = Py.Ok (map (fun r => row_step r item) st).
Proof.
  intros Hne. destruct item as [p df]. unfold merge_frame. simpl.
  rewrite merge_rows_spec by done. f_equal.
  apply map_ext. intros r. apply foldl_merge_one.
Qed.

Lemma merge_frames_spec platform_dfs : forall st,
  st <> [] ->
  foldlM merge_frame st platform_dfs
  = Py.Ok (map (fun r => foldl row_step r platform_dfs) st).
Proof.
  induction platform_dfs as [|item dfs IH]; intros st Hne; simpl.
  - by rewrite map_id.
  - rewrite merge_frame_spec by done. simpl.
    rewrite IH by by apply map_nonempty. by rewrite map_map.
Qed.

(** The merge is the row-by-row account of it. *)
Lemma merge_platform_dfs_spec main_df platform_dfs :
  main_df <> [] ->
  merge_platform_dfs main_df platform_dfs
  = Py.Ok (map (row_after platform_dfs) main_df).
Proof.
  intros Hne. unfold merge_platform_dfs, init_columns.
  rewrite merge_frames_spec by by apply map_nonempty.
  by rewrite map_map.
Qed.

(** Without a row in [main_df] there is no [title] column: the first
    record of any frame ends the merge with [KeyError]. *)
Lemma merge_frames_empty platform_dfs :
  foldlM merge_frame [] platform_dfs
  = if forallb (fun item : string * DataFrame =>
                  match item.2 with [] => true | _ => false end) platform_dfs
    then Py.Ok []
    else Py.Raise (Py.KeyError "title").
Proof.
  induction platform_dfs as [|[p df] dfs IH]; [done|]. simpl.
  destruct df as [|x df]; [apply IH|done].
Qed.

Lemma has_platform_In p l : has_platform p l = true <-> In p l.
Proof.
  unfold has_platform. rewrite existsb_exists. split.
  - intros (x & Hx & ->%String.eqb_eq). done.
  - intros Hp. exists p. by rewrite String.eqb_refl.
Qed.

Lemma has_platform_not_In p l : has_platform p l = false <-> ~ In p l.
Proof.
  rewrite <- has_platform_In. by destruct (has_platform p l).
Qed.

Lemma eq_value_spec a b :
  Merge.eq_value a b = true <-> exists t, a = Py.Str t /\ b = Py.Str t.
Proof.
  destruct a as [|x], b as [|y]; simpl; try (split; [done|by intros (? & ? & ?)]).
  rewrite String.eqb_eq. split; [intros ->; eauto|by intros (? & [= ->] & [= ->])].
Qed.

Lemma first_match_Some g df x :
  first_match g df = Some x ->
  In x df /\ exists t, title g = Py.Str t /\ title x = Py.Str t.
Proof.
  intros [Hin Heq]%find_some. split; [done|]. by apply eq_value_spec.
Qed.

Lemma first_match_is_Some g df x t :
  In x df -> title g = Py.Str t -> title x = Py.Str t ->
  is_Some (first_match g df).
Proof.
  intros Hin Hg Hx. unfold first_match.
  destruct (List.find _ df) eqn:Hf; [eauto|].
  eapply find_none in Hf; [|exact Hin]. simpl in Hf.
  assert (eq_value (title g) (title x) = true) by (apply eq_value_spec; eauto).
  congruence.
Qed.

(** *** What a row step keeps *)

Lemma data_row_step r item : data (row_step r item) = data r.
Proof.
  unfold row_step. destruct (first_match _ _); [apply data_add_platform|done].
Qed.

Lemma data_foldl_row_step dfs : forall r, data (foldl row_step r dfs) = data r.
Proof.
  induction dfs as [|item dfs IH]; intros r; [done|]. simpl.
  by rewrite IH, data_row_step.
Qed.

Lemma parallel_add_platform p s r : parallel r -> parallel (add_platform p s r).
Proof.
  unfold parallel, add_platform. intros H.
  destruct (has_platform p (platforms r)); [done|]. simpl.
  rewrite !length_app. simpl. lia.
Qed.

Lemma parallel_row_step r item : parallel r -> parallel (row_step r item).
Proof.
  unfold row_step. destruct (first_match _ _); [apply parallel_add_platform|done].
Qed.

Lemma parallel_foldl_row_step dfs : forall r,
  parallel r -> parallel (foldl row_step r dfs).
Proof.
  induction dfs as [|item dfs IH]; intros r Hr; [done|]. simpl.
  by apply IH, parallel_row_step.
Qed.

Lemma NoDup_add_platform p s r :
  List.NoDup (platforms r) -> List.NoDup (platforms (add_platform p s r)).
Proof.
  unfold add_platform. intros H.
  destruct (has_platform p (platforms r)) eqn:Hp; [done|]. simpl.
  apply has_platform_not_In in Hp.
  apply NoDup_ListNoDup, NoDup_app. rewrite NoDup_ListNoDup.
  split; [done|]. split; [|apply NoDup_singleton].
  intros x Hx ->%list_elem_of_singleton. by apply Hp, list_elem_of_In.
Qed.

Lemma NoDup_foldl_row_step dfs : forall r,
  List.NoDup (platforms r) -> List.NoDup (platforms (foldl row_step r dfs)).
Proof.
  induction dfs as [|item dfs IH]; intros r Hr; [done|]. simpl.
  apply IH. unfold row_step.
  destruct (first_match _ _); [by apply NoDup_add_platform|done].
Qed.

(** *** Which platforms a row ends with *)

Lemma In_add_platform q p s r :
  In q (platforms (add_platform p s r)) <-> In q (platforms r) \/ q = p.
Proof.
  unfold add_platform. destruct (has_platform p (platforms r)) eqn:Hp; simpl.
  - apply has_platform_In in Hp. split; [auto|]. by intros [?| ->].
  - rewrite in_app_iff. simpl.
    split; [intros [?|[<-|[]]]; auto|intros [?| ->]; auto].
Qed.

Lemma In_foldl_row_step q dfs : forall r,
  In q (platforms (foldl row_step r dfs)) <->
  In q (platforms r)
  \/ exists df, In (q, df) dfs /\ is_Some (first_match (data r) df).
Proof.
  induction dfs as [|[p df] dfs IH]; intros r; simpl.
  - split; [auto|]. by intros [?|(? & [] & _)].
  - rewrite IH, data_row_step. unfold row_step. simpl.
    destruct (first_match (data r) df) as [x|] eqn:Hx.
    + rewrite In_add_platform. split.
      * intros [[?| ->]|(df' & ? & ?)];
          [by left
          |right; exists df; rewrite Hx; split; [by left|eauto]
          |right; exists df'; split; [by right|done]].
      * intros [?|(df' & [[= -> ->]|?] & ?)];
          [left; by left|left; by right|right; eauto].
    + split.
      * intros [?|(df' & ? & ?)];
          [by left|right; exists df'; split; [by right|done]].
      * intros [?|(df' & [[= -> ->]|?] & Hs)];
          [by left|rewrite Hx in Hs; by destruct Hs|right; eauto].
Qed.

(** *** The two columns in closed form, for a dictionary of frames *)

Lemma foldl_row_step_closed dfs : forall r,
  List.NoDup (map fst dfs) ->
  (forall item, In item dfs -> ~ In item.1 (platforms r)) ->
  foldl row_step r dfs
  = Row (data r) (platforms r ++ platforms_of (data r) dfs)
      (platform_scores r ++ scores_of (data r) dfs).
Proof.
  unfold platforms_of, scores_of.
  induction dfs as [|[p df] dfs IH]; intros r Hnd Hfresh.
  - simpl. rewrite !List.app_nil_r. by destruct r.
  - simpl in Hnd. apply List.NoDup_cons_iff in Hnd as [Hp Hnd]. simpl.
    assert (has_platform p (platforms r) = false) as Hnew.
    { apply has_platform_not_In. apply (Hfresh (p, df)). by left. }
    unfold row_step at 2. simpl.
    destruct (first_match (data r) df) as [x|] eqn:Hx; simpl.
    + rewrite IH; [|done|].
      * rewrite data_add_platform. unfold add_platform. rewrite Hnew. simpl.
        by rewrite <- !app_assoc.
      * intros item Hitem. rewrite In_add_platform. intros [Hin| Heq].
        -- by apply (Hfresh item); [right|].
        -- apply Hp. rewrite <- Heq. by apply in_map.
    + rewrite IH; [done|done|]. intros item Hitem. apply Hfresh. by right.
Qed.

Lemma row_after_closed dfs g :
  List.NoDup (map fst dfs) ->
  row_after dfs g = Row g (platforms_of g dfs) (scores_of g dfs).
Proof.
  intros Hnd. unfold row_after. rewrite foldl_row_step_closed; [done|done|].
  simpl. auto.
Qed.

End MergeFacts.

Section MergeProperties.
Import Merge MergeFacts.

Lemma lookup_map {A B} (f : A -> B) (l : list A) (i : nat) :
  map f l !! i = f <$> l !! i.
Proof.
  revert i. induction l as [|x l IH]; intros [|i]; simpl; done.
Qed.




(** C7: in the merged frame no platform stands twice in a row's
    [platforms].  For a dictionary of frames, the row of a baseline record
    gets, frame by frame, the name of each frame that has a record with its
    title, together with the metascore of the first such record of that
    frame; so a frame with two records of the title of a baseline record
    gives that row its name once, with the score of the first. *)
Theorem platform_added_once_with_first_score
    (main_df : DataFrame) (platform_dfs : list (string * DataFrame)) :
  main_df <> [] ->
  exists out,
    merge_platform_dfs main_df platform_dfs = Py.Ok out
    /\ (forall i r, out !! i = Some r -> List.NoDup (platforms r))
    /\ (List.NoDup (map fst platform_dfs) ->
        forall i g, main_df !! i = Some g ->
          out !! i = Some (Row g (platforms_of g platform_dfs)
                             (scores_of g platform_dfs)))
    /\ (forall category x1 x2 others,
          platform_dfs = [(category, x1 :: x2 :: others)] ->
          forall i g t,
            main_df !! i = Some g -> title g = Py.Str t ->
            title x1 = Py.Str t -> title x2 = Py.Str t ->
            out !! i = Some (Row g [category] [metascore x1])).
Proof.
  intros Hne. rewrite merge_platform_dfs_spec by done.
  eexists. split; [done|]. split; [|split].
  - intros i r. rewrite lookup_map. intros (g & _ & ->)%fmap_Some.
    apply NoDup_foldl_row_step. constructor.
  - intros Hnd i g Hg. by rewrite lookup_map, Hg, <- row_after_closed.
  - intros category x1 x2 others -> i g t Hg Ht H1 H2.
    rewrite lookup_map, Hg. simpl. f_equal.
    unfold row_after, row_step, first_match. simpl. rewrite Ht, H1. simpl.
    by rewrite String.eqb_refl.
Qed.

(** C8: a row gets the name of a frame exactly when that frame has a
    record whose title is the same string as the row's title; nothing is
    normalised, so a baseline record titled ["game x"] gets nothing from a
    record titled ["Game X"]. *)
Theorem titles_matched_by_string_equality
    (main_df : DataFrame) (platform_dfs : list (string * DataFrame)) :
  main_df <> [] ->
  exists out,
    merge_platform_dfs main_df platform_dfs = Py.Ok out
    /\ (forall i g, main_df !! i = Some g ->
          exists r, out !! i = Some r /\ data r = g
            /\ forall p, In p (platforms r) <->
                 exists df x t, In (p, df) platform_dfs /\ In x df
                                /\ title g = Py.Str t /\ title x = Py.Str t)
    /\ (forall i g p x,
          main_df !! i = Some g -> title g = Py.Str "game x" ->
          platform_dfs = [(p, [x])] -> title x = Py.Str "Game X" ->
          out !! i = Some (Row g [] [])).
Proof.
  intros Hne. rewrite merge_platform_dfs_spec by done.
  eexists. split; [done|]. split.
  - intros i g Hg. rewrite lookup_map, Hg. simpl. eexists. split; [done|].
    unfold row_after. split; [apply data_foldl_row_step|].
    intros p. rewrite In_foldl_row_step. simpl. split.
    + intros [[]|(df & Hdf & [x Hx])].
      apply first_match_Some in Hx as (Hin & t & Ht & Hx).
      exists df, x, t. done.
    + intros (df & x & t & Hdf & Hin & Ht & Hx). right. exists df.
      split; [done|]. by eapply first_match_is_Some.
  - intros i g p x Hg Ht -> Hx. rewrite lookup_map, Hg. simpl. f_equal.
    unfold row_after, row_step, first_match. simpl. by rewrite Ht, Hx.
Qed.

(** C9: the two list columns start empty, the guarded pair of appends
    adds one element to each, and so every step of the merge (a visit of
    one row, one record of a frame, one frame) and the merge itself keep
    [len(platforms) == len(platform_scores)] in every row.  Frames
    without records leave both lists of every row empty. *)
Theorem parallel_lists_invariant :
  (forall main_df,
     Forall (fun r => platforms r = [] /\ platform_scores r = [] /\ parallel r)
       (init_columns main_df))
  /\ (forall p s r,
        parallel r -> parallel (add_platform p s r)
        /\ (has_platform p (platforms r) = false ->
            length (platforms (add_platform p s r)) = S (length (platforms r))
            /\ length (platform_scores (add_platform p s r))
               = S (length (platform_scores r))))
  /\ (forall p x st i, Forall parallel st -> Forall parallel (visit p x st i))
  /\ (forall p st x st',
        Forall parallel st -> merge_row p st x = Py.Ok st' -> Forall parallel st')
  /\ (forall st item st',
        Forall parallel st -> merge_frame st item = Py.Ok st' ->
        Forall parallel st')
  /\ (forall main_df platform_dfs out,
        merge_platform_dfs main_df platform_dfs = Py.Ok out ->
        Forall parallel out)
  /\ (forall main_df platform_dfs,
        Forall (fun item : string * DataFrame => item.2 = []) platform_dfs ->
        merge_platform_dfs main_df platform_dfs = Py.Ok (init_columns main_df)).
Proof.
  assert (forall (f : row -> row) st,
            (forall r, parallel r -> parallel (f r)) ->
            Forall parallel st -> Forall parallel (map f st)) as Hmap.
  { intros f st Hf Hst. induction Hst; simpl; constructor; auto. }
  assert (forall (f : game_data -> row) l,
            (forall g, parallel (f g)) -> Forall parallel (map f l)) as Hmap2.
  { intros f l Hf. induction l; simpl; constructor; auto. }
  split; [|split; [|split; [|split; [|split; [|split]]]]].
  - intros main_df. unfold init_columns.
    induction main_df; simpl; constructor; [by repeat split|done].
  - intros p s r Hr. split; [by apply parallel_add_platform|].
    unfold add_platform. intros ->. simpl. rewrite !length_app. simpl.
    split; lia.
  - intros p x st i Hst. unfold visit. apply Forall_alter; [done|].
    intros r _. apply parallel_add_platform.
  - intros p st x st' Hst. destruct st as [|r0 st0]; [done|].
    rewrite merge_row_spec by done. intros [= <-].
    apply (Hmap (fun r => merge_one p r x) (r0 :: st0)); [|done].
    intros r Hr. unfold merge_one.
    destruct (eq_value _ _); [by apply parallel_add_platform|done].
  - intros st item st' Hst. destruct st as [|r0 st0].
    + destruct item as [p [|x df]]; [|done]. by intros [= <-].
    + rewrite merge_frame_spec by done. intros [= <-].
      apply (Hmap (fun r => row_step r item) (r0 :: st0)); [|done].
      intros r. apply parallel_row_step.
  - intros main_df dfs out. destruct main_df as [|g main_df].
    + unfold merge_platform_dfs. simpl. rewrite merge_frames_empty.
      destruct (forallb _ _); [|done]. by intros [= <-].
    + rewrite merge_platform_dfs_spec by done. intros [= <-].
      apply (Hmap2 (row_after dfs) (g :: main_df)). intros g'.
      by apply parallel_foldl_row_step.
  - intros main_df dfs Hempty. unfold merge_platform_dfs.
    generalize (init_columns main_df) as st.
    induction Hempty as [|[p df] dfs Hdf _ IH]; intros st; [done|].
    simpl in Hdf. subst df. simpl. apply IH.
Qed.



End MergeProperties.

(** * The statements at work on sample inputs *)

Lemma two_page_server_has_cards i soup :
  [page_one; page_two] !! i = Some soup ->
  has_cards two_page_server (catalogue_url (S i)) soup.
Proof.
  destruct i as [|[|i]]; simpl; intros [= <-]; by split.
Qed.

Lemma two_page_server_no_cards : no_cards two_page_server (catalogue_url 3).
Proof. by exists empty_page. Qed.

Lemma pagination_stops_at_first_failed_or_empty_page_witness :
  exists st,
    paginate two_page_server false catalogue_url 3 quiet = Finished st
    /\ all_games_data st = records_of false page_one ++ records_of false page_two
    /\ length (all_games_data st) = 2
    /\ requested (io st) = [catalogue_url 1; catalogue_url 2; catalogue_url 3].
Proof.
  destruct (pagination_stops_at_first_failed_or_empty_page
              two_page_server false catalogue_url [page_one; page_two] quiet
              two_page_server_has_cards) as (_ & _ & H3 & _).
  destruct (H3 page_one page_two eq_refl two_page_server_no_cards 3 (le_n 3))
    as (st & Hst & Hdata & Hlen & Hreq).
  exists st. auto.
Defined.

Lemma one_page_server_has_cards i soup :
  [page_one] !! i = Some soup ->
  has_cards one_page_server (catalogue_url (S i)) soup.
Proof.
  destruct i as [|i]; simpl; intros [= <-]; by split.
Qed.

Lemma one_page_server_bad_status : bad_status one_page_server (catalogue_url 2).
Proof. by exists 404%Z, (Bs4.Tree empty_page). Qed.

Lemma bad_status_ends_scope_quietly_witness :
  paginate one_page_server false catalogue_url 2 quiet
  = Finished
      (Scrape (records_of false page_one) 2
         (World
            ["Scraping " +:+ catalogue_url 1; "Scraping " +:+ catalogue_url 2;
             "Failed to retrieve the page";
             "Failed to retrieve page 2. Exiting loop."]
            [catalogue_url 1; catalogue_url 2])).
Proof.
  destruct (bad_status_ends_scope_quietly
              one_page_server false catalogue_url [page_one] quiet 2
              one_page_server_has_cards (le_n 2)) as [H _].
  rewrite (H one_page_server_bad_status). vm_compute. reflexivity.
Defined.

(** C2: where the fetch fails below HTTP the code does not do what the
    specification, and the docstring of [fetch_and_parse] ("returns None
    to indicate failure"), say.  With a server that cannot be reached the
    first turn of the catalogue loop ends in the exception of
    [requests.get], which nothing catches: the loop does not stop quietly
    with the records gathered so far, whatever the number of turns. *)
Lemma transport_failure_leaves_the_loop_by_exception :
  paginate unreachable_server false catalogue_url 1 quiet
  = Crashed Py.RequestException
      (Scrape [] 1
         (World ["Scraping " +:+ catalogue_url 1] [catalogue_url 1]))
  /\ (forall fuel st,
        paginate unreachable_server false catalogue_url fuel quiet
        <> Finished st).
Proof.
  split; [done|]. by intros [|fuel] st.
Qed.

(** C1: where the very first fetch of a scope fails because
    [requests.get] raises, the loop of that scope makes its one request
    and is left by the exception: no sequence is returned, where the
    specification has the empty sequence returned after one fetch
    attempt. *)
Lemma first_fetch_that_raises_returns_no_sequence :
  paginate unreachable_server false (platform_url "pc") 1 quiet
  = Crashed Py.RequestException
      (Scrape [] 1
         (World ["Scraping " +:+ platform_url "pc" 1] [platform_url "pc" 1]))
  /\ (forall fuel st,
        paginate unreachable_server false (platform_url "pc") fuel quiet
        <> Finished st).
Proof.
  split; [done|]. by intros [|fuel] st.
Qed.

Lemma extract_game_data_one_record_per_card_witness :
  exists games_data,
    extract_game_data false page_two = Py.Ok games_data
    /\ length games_data = 1
    /\ games_data !! 0
       = Some (GameData (Py.Str "Super Game") (Py.Str "2020-01-05") (Py.Str "M")
                 (Py.Str "Description not found")
                 (Py.Str "Metascore not available")).
Proof.
  destruct (extract_game_data_one_record_per_card false page_two)
    as (games & Hok & Hlen & Hith & _).
  exists games. split; [done|]. split; [done|].
  destruct (Hith 0 _ eq_refl) as (g & Hg & Hgame).
  rewrite Hg. f_equal. vm_compute in Hgame. by injection Hgame.
Defined.

Lemma release_date_from_first_comma_token_witness :
  exists g,
    extract_game false
      (Bs4.Card None (Some ["Jan 5, 2020"; "Rated M"]) None None) = Py.Ok g
    /\ release_date g = Py.Str "2020-01-05".
Proof.
  destruct (release_date_from_first_comma_token false) as (_ & H & _).
  apply (H _ ["Jan 5, 2020"; "Rated M"] "Jan 5, 2020"); reflexivity.
Defined.

Lemma rating_from_metadata_text_witness :
  extract_rating ["Rated M for Mature"] = Py.Str "M"
  /\ extract_rating ["Rated Mature 17+"] = Py.Str "Mature".
Proof.
  destruct rating_from_metadata_text as (Hfirst & _ & _ & H & _).
  split; [apply H; reflexivity|]. apply Hfirst.
  exists "", " ", " 17+". repeat (split; [done|]). intros. simpl. lia.
Defined.

(** C5 as it is written fails for a year below 1000 where the C library
    writes [%Y] without padding: the token ["Jan 5, 0999"] is accepted, and
    the field is ["999-01-05"], which has not the shape of an ISO date. *)
Lemma year_below_1000_is_not_written_as_an_iso_date :
  extract_game false (Bs4.Card None (Some ["Jan 5, 0999"]) None None)
  = Py.Ok (GameData (Py.Str "Title not found") (Py.Str "999-01-05")
             (Py.Str "Rating not found") (Py.Str "Description not found")
             (Py.Str "Metascore not available"))
  /\ is_iso_date "999-01-05" = false.
Proof. split; vm_compute; reflexivity. Qed.

Lemma platform_added_once_with_first_score_witness :
  exists out,
    Merge.merge_platform_dfs [sample_game "Game X" "90"]
      [("pc", [sample_game "Game X" "85"; sample_game "Game X" "60"])]
    = Py.Ok out
    /\ out !! 0
       = Some (Merge.Row (sample_game "Game X" "90") ["pc"] [Py.Str "85"]).
Proof.
  destruct (platform_added_once_with_first_score
              [sample_game "Game X" "90"]
              [("pc", [sample_game "Game X" "85"; sample_game "Game X" "60"])])
    as (out & Hout & _ & _ & Hfirst); [discriminate|].
  exists out. split; [done|].
  apply (Hfirst "pc" _ _ [] eq_refl 0 _ "Game X"); reflexivity.
Defined.

Lemma titles_matched_by_string_equality_witness :
  exists out,
    Merge.merge_platform_dfs
      [sample_game "Game X" "90"; sample_game "game x" "80"]
      [("pc", [sample_game "Game X" "85"])]
    = Py.Ok out
    /\ out !! 1 = Some (Merge.Row (sample_game "game x" "80") [] []).
Proof.
  destruct (titles_matched_by_string_equality
              [sample_game "Game X" "90"; sample_game "game x" "80"]
              [("pc", [sample_game "Game X" "85"])])
    as (out & Hout & _ & Hcase); [discriminate|].
  exists out. split; [done|].
  apply (Hcase 1 _ "pc" (sample_game "Game X" "85")); reflexivity.
Defined.

Lemma parallel_lists_invariant_witness :
  Merge.merge_platform_dfs [sample_game "Game X" "90"] (Merge.create_dfs platforms)
  = Py.Ok [Merge.Row (sample_game "Game X" "90") [] []].
Proof.
  destruct parallel_lists_invariant as (_ & _ & _ & _ & _ & _ & H).
  apply (H [sample_game "Game X" "90"] (Merge.create_dfs platforms)).
  unfold Merge.create_dfs, platforms. simpl. repeat constructor.
Defined.



(** * Further properties of the script *)

(** ** More on [merge_platform_dfs] *)

Section MergeMore.
Import Merge MergeFacts.

Lemma forallb_no_record (platform_dfs : list (string * DataFrame)) :
  forallb (fun item : string * DataFrame =>
             match item.2 with [] => true | _ => false end) platform_dfs = false
  <-> Exists (fun item => item.2 <> []) platform_dfs.
Proof.
  induction platform_dfs as [|[p df] dfs IH]; simpl.
  - split; [done|]. by intros H%Exists_nil.
  - rewrite Exists_cons. simpl. destruct df as [|x df]; simpl.
    + rewrite IH. split; [auto|]. by intros [?|?].
    + split; [by left|done].
Qed.

(** The only way the merge fails: [KeyError] for [title], raised when the
    baseline frame was made from no record and some platform frame has a
    record to look up. *)
Theorem merge_raises_exactly_without_baseline_rows
    (main_df : DataFrame) (platform_dfs : list (string * DataFrame))
    (e : Py.exn) :
  merge_platform_dfs main_df platform_dfs = Py.Raise e <->
  e = Py.KeyError "title" /\ main_df = []
  /\ Exists (fun item => item.2 <> []) platform_dfs.
Proof.
  destruct main_df as [|g main_df].
  - unfold merge_platform_dfs. simpl. rewrite merge_frames_empty.
    destruct (forallb _ platform_dfs) eqn:Hall.
    + split; [done|]. intros (_ & _ & Hex%forallb_no_record). congruence.
    + apply forallb_no_record in Hall. split.
      * by intros [= <-].
      * by intros (-> & _ & _).
  - rewrite merge_platform_dfs_spec by done. split; [done|].
    by intros (_ & ? & _).
Qed.

Lemma foldl_row_step_same_title dfs : forall r r',
  title (data r) = title (data r') ->
  platforms r = platforms r' -> platform_scores r = platform_scores r' ->
  platforms (foldl row_step r dfs) = platforms (foldl row_step r' dfs)
  /\ platform_scores (foldl row_step r dfs)
     = platform_scores (foldl row_step r' dfs).
Proof.
  induction dfs as [|[p df] dfs IH]; intros r r' Ht Hp Hs; [done|]. simpl.
  apply IH.
  - by rewrite !data_row_step.
  - unfold row_step, first_match, add_platform. simpl. rewrite Ht.
    destruct (List.find _ df); [|done]. rewrite <- Hp.
    by destruct (has_platform p (platforms r)).
  - unfold row_step, first_match, add_platform. simpl. rewrite Ht.
    destruct (List.find _ df); [|done]. rewrite <- Hp.
    destruct (has_platform p (platforms r)); [done|]. simpl. by rewrite Hs.
Qed.

(** Baseline rows with the same title end with the same platforms and the
    same scores: what a row gets depends on its title alone. *)
Theorem rows_with_one_title_get_the_same_columns
    (main_df : DataFrame) (platform_dfs : list (string * DataFrame))
    (out : list row) (i j : nat) (gi gj : game_data) (ri rj : row) :
  merge_platform_dfs main_df platform_dfs = Py.Ok out ->
  main_df !! i = Some gi -> main_df !! j = Some gj ->
  title gi = title gj ->
  out !! i = Some ri -> out !! j = Some rj ->
  platforms ri = platforms rj /\ platform_scores ri = platform_scores rj.
Proof.
  intros Hout Hi Hj Ht Hri Hrj.
  assert (main_df <> []) as Hne by (by intros ->).
  rewrite merge_platform_dfs_spec in Hout by done. injection Hout as <-.
  rewrite lookup_map, Hi in Hri. rewrite lookup_map, Hj in Hrj.
  injection Hri as <-. injection Hrj as <-.
  by apply foldl_row_step_same_title.
Qed.

Lemma length_foldl_row_step dfs : forall r,
  length (platforms (foldl row_step r dfs)) <= length (platforms r) + length dfs.
Proof.
  induction dfs as [|item dfs IH]; intros r; simpl; [lia|].
  etrans; [apply IH|].
  assert (length (platforms (row_step r item)) <= S (length (platforms r)));
    [|lia].
  unfold row_step, add_platform. destruct (first_match _ _); [|lia].
  destruct (has_platform _ _); simpl; [lia|]. rewrite length_app. simpl. lia.
Qed.

(** A row's [platforms] holds names of the dictionary only, and no more of
    them than there are frames. *)
Theorem row_platforms_are_names_of_frames
    (main_df : DataFrame) (platform_dfs : list (string * DataFrame))
    (out : list row) (i : nat) (r : row) :
  merge_platform_dfs main_df platform_dfs = Py.Ok out ->
  out !! i = Some r ->
  (forall p, In p (platforms r) -> In p (map fst platform_dfs))
  /\ length (platforms r) <= length platform_dfs.
Proof.
  intros Hout Hr.
  assert (main_df <> []) as Hne.
  { intros ->. unfold merge_platform_dfs in Hout. simpl in Hout.
    rewrite merge_frames_empty in Hout.
    destruct (forallb _ _); [|done]. injection Hout as <-. done. }
  rewrite merge_platform_dfs_spec in Hout by done. injection Hout as <-.
  rewrite lookup_map in Hr. apply fmap_Some in Hr as (g & _ & ->).
  unfold row_after. split.
  - intros p [[]|(df & Hdf & _)]%In_foldl_row_step.
    apply in_map_iff. by exists (p, df).
  - apply (length_foldl_row_step platform_dfs (Row g [] [])).
Qed.

End MergeMore.

(** ** More on [extract_game_data] *)

Module StripFacts.
Import StrFacts.

Lemma length_lstrip s : String.length (Str.lstrip s) <= String.length s.
Proof.
  induction s as [|c s IH]; simpl; [lia|].
  destruct (Str.isspace c); simpl; lia.
Qed.

Lemma lstrip_fixed s :
  Str.lstrip s = s <->
  s = "" \/ exists c s', s = String c s' /\ Str.isspace c = false.
Proof.
  destruct s as [|c s]; simpl; [by split; [left|]|].
  destruct (Str.isspace c) eqn:Hc.
  - split.
    + intros Heq. pose proof (length_lstrip s) as Hlen.
      rewrite Heq in Hlen. simpl in Hlen. lia.
    + intros [?|(c' & s' & [= <- <-] & Hc')]; [done|congruence].
  - split; [intros _; right; eauto|done].
Qed.

Lemma lstrip_idem s : Str.lstrip (Str.lstrip s) = Str.lstrip s.
Proof.
  induction s as [|c s IH]; [done|]. simpl.
  destruct (Str.isspace c) eqn:Hc; [done|]. simpl. by rewrite Hc.
Qed.

Lemma rstrip_cons c s :
  Str.rstrip (String c s) =
    match Str.rstrip s with
    | "" => if Str.isspace c then "" else String c ""
    | r => String c r
    end.
Proof. done. Qed.

Lemma rstrip_idem s : Str.rstrip (Str.rstrip s) = Str.rstrip s.
Proof.
  induction s as [|c s IH]; [done|]. rewrite rstrip_cons.
  destruct (Str.rstrip s) as [|c' r] eqn:Hr.
  - destruct (Str.isspace c) eqn:Hc; [done|]. rewrite rstrip_cons. simpl.
    by rewrite Hc.
  - rewrite rstrip_cons, IH. done.
Qed.

(** Trimming on the right leaves a string that starts with no blank as it
    starts. *)
Lemma lstrip_rstrip s :
  Str.lstrip s = s -> Str.lstrip (Str.rstrip s) = Str.rstrip s.
Proof.
  intros [->|(c & s' & -> & Hc)]%lstrip_fixed; [done|].
  rewrite rstrip_cons. destruct (Str.rstrip s'); rewrite ?Hc; simpl; by rewrite Hc.
Qed.

Lemma strip_idem s : Str.strip (Str.strip s) = Str.strip s.
Proof.
  unfold Str.strip. rewrite lstrip_rstrip by apply lstrip_idem.
  apply rstrip_idem.
Qed.

Lemma strip_fixed_parts s :
  Str.strip s = s -> Str.lstrip s = s /\ Str.rstrip s = s.
Proof.
  unfold Str.strip. intros Heq. split.
  - rewrite <- Heq. apply lstrip_rstrip, lstrip_idem.
  - rewrite <- Heq. apply rstrip_idem.
Qed.

Lemma lstrip_app x y :
  x <> "" -> Str.lstrip x = x -> Str.lstrip (x +:+ y) = x +:+ y.
Proof.
  intros Hne [->|(c & s' & -> & Hc)]%lstrip_fixed; [done|].
  rewrite app_cons. simpl. by rewrite Hc.
Qed.

Lemma rstrip_app x y :
  y <> "" -> Str.rstrip y = y -> Str.rstrip (x +:+ y) = x +:+ y.
Proof.
  intros Hne Hy. induction x as [|c x IH]; [done|].
  rewrite app_cons, rstrip_cons, IH.
  destruct (x +:+ y) eqn:Hxy; [|done].
  destruct x; [by rewrite app_nil_l in Hxy|by rewrite app_cons in Hxy].
Qed.

(** Trimmed pieces, none of them empty, joined without a separator, make
    a trimmed string. *)
Lemma join_trimmed l :
  Forall (fun x => x <> "" /\ Str.strip x = x) l ->
  Str.strip (Str.join "" l) = Str.join "" l
  /\ (l <> [] -> Str.join "" l <> "").
Proof.
  unfold Str.join. induction 1 as [|x l [Hne Hx] Hl [IH IHne]]; [done|].
  apply strip_fixed_parts in Hx as [Hlx Hrx].
  destruct l as [|y l]; simpl.
  - split; [|done]. unfold Str.strip. by rewrite Hlx.
  - rewrite app_nil_l.
    assert (String.concat "" (y :: l) <> "") as Hrest by by apply IHne.
    apply strip_fixed_parts in IH as [_ Hrr].
    split.
    + unfold Str.strip. rewrite lstrip_app by done. by apply rstrip_app.
    + intros _. destruct x; [done|]. by rewrite app_cons.
Qed.

Lemma get_text_trimmed t :
  Str.strip (Bs4.get_text "" true t) = Bs4.get_text "" true t.
Proof.
  unfold Bs4.get_text, Bs4.all_strings. apply join_trimmed.
  apply Forall_forall. intros x [Hx (y & -> & _)%list_elem_of_fmap]%list_elem_of_filter.
  split; [done|apply strip_idem].
Qed.

End StripFacts.

Section ExtractMore.
Import StripFacts.

Variable pad_year : bool.

Lemma extract_game_data_In soup games_data g :
  extract_game_data pad_year soup = Py.Ok games_data -> In g games_data ->
  exists game, In game (Bs4.find_all soup) /\ extract_game pad_year game = Py.Ok g.
Proof.
  unfold extract_game_data. intros Hok Hg.
  destruct (extract_loop_spec pad_year (Bs4.find_all soup) [])
    as (gs & Hgs & HF & _).
  rewrite Hgs in Hok. injection Hok as <-. simpl in Hg.
  apply list_elem_of_In, list_elem_of_lookup in Hg as [i Hi].
  destruct (Forall2_lookup_r _ _ _ _ _ HF Hi) as (game & Hgame & Hex).
  exists game. split; [|done].
  apply list_elem_of_In, list_elem_of_lookup. eauto.
Qed.

(** The title, the description and the metascore of every record are
    trimmed: none starts or ends with a blank. *)
Theorem text_fields_are_trimmed
    (soup : Bs4.soup) (games_data : list game_data) (g : game_data) :
  extract_game_data pad_year soup = Py.Ok games_data -> In g games_data ->
  exists t d m,
    title g = Py.Str t /\ description g = Py.Str d /\ metascore g = Py.Str m
    /\ Str.strip t = t /\ Str.strip d = d /\ Str.strip m = m.
Proof.
  intros Hok Hg.
  destruct (extract_game_data_In _ _ _ Hok Hg) as (game & _ & Hgame).
  destruct (extract_game_fields pad_year game) as (rd & r & Hfields & _).
  rewrite Hfields in Hgame. injection Hgame as <-. simpl.
  unfold extract_title, extract_description, extract_metascore.
  destruct (Bs4.find_title game), (Bs4.find_description game),
    (Bs4.find_metascore game);
    do 3 eexists; (split; [done|]); (split; [done|]); (split; [done|]);
    repeat split; first [apply strip_idem|apply get_text_trimmed|done].
Qed.

(** The release date of every record is ["Unknown"] or a date of the
    calendar (the month has that day, leap years counted) as [strftime]
    writes it; the rating is ["Rating not found"] or one word: not empty,
    word characters only. *)
Theorem release_date_and_rating_are_well_formed
    (soup : Bs4.soup) (games_data : list game_data) (g : game_data) :
  extract_game_data pad_year soup = Py.Ok games_data -> In g games_data ->
  (release_date g = Py.Str "Unknown"
   \/ exists d,
        Datetime.valid (Datetime.year d) (Datetime.month d) (Datetime.day d)
        = true
        /\ release_date g = Py.Str (Datetime.strftime pad_year d))
  /\ (rating g = Py.Str "Rating not found"
      \/ exists word,
           rating g = Py.Str word /\ word <> ""
           /\ all_chars Str.isword word = true).
Proof.
  intros Hok Hg.
  destruct (extract_game_data_In _ _ _ Hok Hg) as (game & _ & Hgame).
  destruct (extract_game_fields pad_year game) as (rd & r & Hfields & Hmeta).
  rewrite Hfields in Hgame. injection Hgame as <-. simpl.
  destruct (Bs4.find_meta game) as [meta|]; [|destruct Hmeta as [-> ->]; auto].
  destruct Hmeta as [Hrd ->]. split.
  - rewrite extract_release_date_spec in Hrd. injection Hrd as <-.
    destruct (first_comma_token meta) as [tok|]; [|by left].
    destruct (DatetimeFacts.strptime_cases (Str.strip tok))
      as [(d & -> & Hvalid)| ->]; [right; eauto|by left].
  - unfold extract_rating.
    destruct (Re.search rated_re _) as [m|] eqn:Hm; [|by left].
    apply RatingFacts.search_from_sound in Hm as (pre & s' & _ & Hin).
    apply RatingFacts.rated_re_match in Hin
      as (ws & word & _ & Hcap & _ & _ & Hne & Hword).
    right. exists word. unfold Re.group. by rewrite Hcap.
Qed.

End ExtractMore.

(** ** More on the pagination loops *)

Section PaginationMore.

Variable requests_get : string -> Requests.outcome.
Variable pad_year : bool.
Variable url_of : nat -> string.

Local Abbreviation while_true := (while_true requests_get pad_year url_of).
Local Abbreviation paginate := (paginate requests_get pad_year url_of).

(** Whatever the server does, a loop started at page [p] has gone through
    some pages with cards, and stands where the next page has put it. *)
Lemma while_true_cases fuel : forall acc p w,
  exists pages,
    (forall i soup, pages !! i = Some soup ->
                    has_cards requests_get (url_of (p + i)) soup)
    /\ match while_true fuel (Scrape acc p w) with
       | Running st =>
           length pages = fuel
           /\ st = Scrape (acc ++ records_of_pages pad_year pages)
                     (p + length pages)
                     (asked_pages url_of p (length pages) w)
       | Finished st =>
           length pages < fuel
           /\ (bad_status requests_get (url_of (p + length pages))
               \/ no_cards requests_get (url_of (p + length pages)))
           /\ all_games_data st = acc ++ records_of_pages pad_year pages
           /\ page st = p + length pages
           /\ requested (io st)
              = requested w ++ map url_of (seq p (S (length pages)))
       | Crashed e st =>
           length pages < fuel
           /\ (e = Py.RequestException
               /\ requests_get (url_of (p + length pages)) = Requests.Fails
               \/ e = Py.ParserRejectedMarkup
                  /\ rejected requests_get (url_of (p + length pages)))
           /\ all_games_data st = acc ++ records_of_pages pad_year pages
           /\ page st = p + length pages
           /\ requested (io st)
              = requested w ++ map url_of (seq p (S (length pages)))
       end.
Proof.
  induction fuel as [|fuel IH]; intros acc p w.
  - exists []. split; [done|]. simpl. split; [done|].
    unfold records_of_pages. simpl. by rewrite List.app_nil_r, Nat.add_0_r.
  - destruct (page_cases requests_get (url_of p))
      as [[soup Hcards]|[Hempty|[Hbad|[Hrej|Hfails]]]].
    + simpl. rewrite (loop_body_has_cards _ _ _ acc p w soup Hcards).
      destruct (IH (acc ++ records_of pad_year soup) (S p) (asked (url_of p) w))
        as (pages & Hpages & Hres).
      exists (soup :: pages). split.
      { intros [|i] s Hi; simpl in Hi.
        - injection Hi as <-. by rewrite Nat.add_0_r.
        - rewrite Nat.add_succ_r. by apply Hpages. }
      destruct (while_true fuel _) as [st|e st|st];
        simpl length; rewrite ?Nat.add_succ_r; unfold records_of_pages in *;
        simpl concat; rewrite ?app_assoc.
      * destruct Hres as (Hlt & Hend & Hdata & Hpage & Hreq).
        split; [lia|]. split; [done|]. split; [done|]. split; [done|].
        rewrite Hreq. simpl. by rewrite <- app_assoc.
      * destruct Hres as (Hlt & Hwhy & Hdata & Hpage & Hreq).
        split; [lia|]. split; [done|]. split; [done|]. split; [done|].
        rewrite Hreq. simpl. by rewrite <- app_assoc.
      * destruct Hres as (Hlen & ->). split; [lia|]. done.
    + exists []. split; [done|]. simpl.
      rewrite (loop_body_no_cards _ _ _ acc p w Hempty). simpl.
      rewrite Nat.add_0_r. unfold records_of_pages. simpl.
      rewrite List.app_nil_r. split; [lia|]. split; [by right|]. done.
    + exists []. split; [done|]. simpl.
      rewrite (loop_body_bad_status _ _ _ acc p w Hbad). simpl.
      rewrite Nat.add_0_r. unfold records_of_pages. simpl.
      rewrite List.app_nil_r. split; [lia|]. split; [by left|]. done.
    + exists []. split; [done|]. simpl.
      rewrite (loop_body_rejected _ _ _ acc p w Hrej). simpl.
      rewrite Nat.add_0_r. unfold records_of_pages. simpl.
      rewrite List.app_nil_r. split; [lia|]. split; [by right|]. done.
    + exists []. split; [done|]. simpl.
      rewrite (loop_body_raises _ _ _ acc p w Hfails). simpl.
      rewrite Nat.add_0_r. unfold records_of_pages. simpl.
      rewrite List.app_nil_r. split; [lia|]. split; [by left|]. done.
Qed.

(** Whatever the server answers and however many turns a loop is given,
    it has asked for the pages 1, 2, ..., n of its scope and for nothing
    else, each once and in this order, n being at most the number of
    turns; it holds the records of the pages before the one it stands at,
    all of which had cards; it has stopped by [break] only at a page
    without cards or with a status other than 200; and where an exception
    has left it, that is the exception of [requests.get] or of the parser
    at the page it stands at: the loop's own statements and the extraction
    raise nothing. *)
Theorem loop_asks_for_the_pages_in_order (fuel : nat) (w : world) :
  exists pages,
    length pages <= fuel
    /\ (forall i soup, pages !! i = Some soup ->
                       has_cards requests_get (url_of (S i)) soup)
    /\ all_games_data (state_of (paginate fuel w))
       = records_of_pages pad_year pages
    /\ page (state_of (paginate fuel w)) = S (length pages)
    /\ match paginate fuel w with
       | Running st =>
           length pages = fuel
           /\ requested (io st)
              = requested w ++ map url_of (seq 1 (length pages))
       | Finished st =>
           (bad_status requests_get (url_of (S (length pages)))
            \/ no_cards requests_get (url_of (S (length pages))))
           /\ requested (io st)
              = requested w ++ map url_of (seq 1 (S (length pages)))
       | Crashed e st =>
           (e = Py.RequestException
            /\ requests_get (url_of (S (length pages))) = Requests.Fails
            \/ e = Py.ParserRejectedMarkup
               /\ rejected requests_get (url_of (S (length pages))))
           /\ requested (io st)
              = requested w ++ map url_of (seq 1 (S (length pages)))
       end.
Proof.
  unfold paginate.
  destruct (while_true_cases fuel [] 1 w) as (pages & Hpages & Hres).
  exists pages.
  destruct (while_true fuel _) as [st|e st|st]; simpl.
  - destruct Hres as (Hlt & Hend & Hdata & Hpage & Hreq).
    split; [lia|]. split; [done|]. split; [done|]. split; [done|]. done.
  - destruct Hres as (Hlt & Hwhy & Hdata & Hpage & Hreq).
    split; [lia|]. split; [done|]. split; [done|]. split; [done|]. done.
  - destruct Hres as (Hlen & ->). simpl.
    split; [lia|]. split; [done|]. split; [done|]. split; [done|].
    split; [done|]. apply requested_asked_pages.
Qed.

(** The requests of a loop: those made before it, then the pages 1 to
    some n. *)
Lemma requested_state_of (fuel : nat) (w : world) :
  exists n,
    requested (io (state_of (paginate fuel w)))
    = requested w ++ map url_of (seq 1 n).
Proof.
  unfold paginate.
  destruct (while_true_cases fuel [] 1 w) as (pages & Hpages & Hres).
  destruct (while_true fuel _) as [st|e st|st]; simpl.
  - destruct Hres as (_ & _ & _ & _ & Hreq). eauto.
  - destruct Hres as (_ & _ & _ & _ & Hreq). eauto.
  - destruct Hres as (_ & ->). simpl. eexists. apply requested_asked_pages.
Qed.

End PaginationMore.

(** ** The URLs of a scope *)

Module UrlFacts.

Lemma of_uint_string (d d' : Decimal.uint) :
  NilZero.string_of_uint d = NilZero.string_of_uint d' ->
  Nat.of_uint d = Nat.of_uint d'.
Proof.
  intros Heq.
  assert (forall x, x <> Decimal.Nil ->
            NilZero.string_of_uint x = "0" -> Nat.of_uint x = 0) as Hzero.
  { intros x Hx Hs. pose proof (NilZero.usu x Hx) as Hu. rewrite Hs in Hu.
    simpl in Hu. by injection Hu as <-. }
  destruct (Decimal.uint_eq_dec d Decimal.Nil) as [->|Hd];
    destruct (Decimal.uint_eq_dec d' Decimal.Nil) as [->|Hd']; [done| | |].
  - simpl in *. symmetry. by apply Hzero.
  - simpl in *. by apply Hzero.
  - pose proof (NilZero.usu d Hd) as Hu. rewrite Heq, (NilZero.usu d' Hd') in Hu.
    by injection Hu as ->.
Qed.

(** [str] of two different numbers are two different strings. *)
Lemma of_nat_inj (n m : nat) : Str.of_nat n = Str.of_nat m -> n = m.
Proof.
  unfold Str.of_nat. intros Heq. apply of_uint_string in Heq.
  by rewrite !DecimalNat.Unsigned.of_to in Heq.
Qed.

Lemma catalogue_url_inj (p q : nat) : catalogue_url p = catalogue_url q -> p = q.
Proof.
  unfold catalogue_url. intros Heq. apply String.app_inj in Heq.
  by apply of_nat_inj.
Qed.

Lemma platform_url_inj (platform : string) (p q : nat) :
  platform_url platform p = platform_url platform q -> p = q.
Proof.
  unfold platform_url. intros Heq. do 5 apply String.app_inj in Heq.
  by apply of_nat_inj.
Qed.

Lemma NoDup_pages (url_of : nat -> string) (p n : nat) :
  (forall i j, url_of i = url_of j -> i = j) ->
  NoDup (map url_of (seq p n)).
Proof.
  intros Hinj. revert p. induction n as [|n IH]; intros p; simpl.
  - constructor.
  - constructor; [|apply IH].
    rewrite list_elem_of_In, in_map_iff. intros (q & Hq & Hin).
    apply Hinj in Hq as ->. apply in_seq in Hin. lia.
Qed.

End UrlFacts.

Section Urls.

Variable requests_get : string -> Requests.outcome.
Variable pad_year : bool.

(** Neither loop asks for the same URL twice: the URLs of the pages of the
    catalogue differ from one another, as do those of the pages of one
    platform, so whatever the server does the requests of a loop are
    pairwise different. *)
Theorem no_url_is_asked_twice (platform : string) (fuel : nat) (w : world) :
  (forall p q, catalogue_url p = catalogue_url q -> p = q)
  /\ (forall p q, platform_url platform p = platform_url platform q -> p = q)
  /\ (exists urls,
        requested (io (state_of (paginate requests_get pad_year
                                   catalogue_url fuel w)))
        = requested w ++ urls /\ NoDup urls)
  /\ (exists urls,
        requested (io (state_of (paginate requests_get pad_year
                                   (platform_url platform) fuel w)))
        = requested w ++ urls /\ NoDup urls).
Proof.
  split; [apply UrlFacts.catalogue_url_inj|].
  split; [apply UrlFacts.platform_url_inj|]. split.
  - destruct (requested_state_of requests_get pad_year catalogue_url fuel w)
      as [n Hn].
    eexists. split; [apply Hn|].
    apply UrlFacts.NoDup_pages, UrlFacts.catalogue_url_inj.
  - destruct (requested_state_of requests_get pad_year (platform_url platform)
                fuel w) as [n Hn].
    eexists. split; [apply Hn|].
    apply UrlFacts.NoDup_pages, UrlFacts.platform_url_inj.
Qed.

End Urls.

(** ** The dictionary of frames *)

Module DictFacts.

Section Laws.

Context {V : Type}.
Implicit Types (k : string) (v : V) (d : list (string * V)).

(** What is stored under a key is what is read back. *)
Lemma getitem_setitem k v d : Dict.getitem k (Dict.setitem k v d) = Py.Ok v.
Proof.
  induction d as [|[k' v'] d IH]; simpl.
  - by rewrite String.eqb_refl.
  - destruct (String.eqb k' k) eqn:E; simpl; by rewrite E.
Qed.

Lemma getitem_setitem_ne k k' v d :
  k <> k' -> Dict.getitem k' (Dict.setitem k v d) = Dict.getitem k' d.
Proof.
  intros Hne. induction d as [|[k0 v0] d IH]; simpl.
  - destruct (String.eqb k k') eqn:E; [by apply String.eqb_eq in E|done].
  - destruct (String.eqb k0 k) eqn:E; simpl.
    + apply String.eqb_eq in E as ->.
      destruct (String.eqb k k') eqn:E'; [by apply String.eqb_eq in E'|done].
    + by destruct (String.eqb k0 k').
Qed.

Lemma setitem_notin k v d :
  ~ In k (map fst d) -> Dict.setitem k v d = d ++ [(k, v)].
Proof.
  induction d as [|[k' v'] d IH]; simpl; [done|]. intros Hnot.
  destruct (String.eqb k' k) eqn:E.
  - apply String.eqb_eq in E. tauto.
  - rewrite IH; [done|tauto].
Qed.

Lemma setitem_app_in k v v0 d1 d2 :
  ~ In k (map fst d1) ->
  Dict.setitem k v (d1 ++ (k, v0) :: d2) = d1 ++ (k, v) :: d2.
Proof.
  induction d1 as [|[k' v'] d1 IH]; simpl.
  - by rewrite String.eqb_refl.
  - intros Hnot. destruct (String.eqb k' k) eqn:E.
    + apply String.eqb_eq in E. tauto.
    + rewrite IH; [done|tauto].
Qed.

Lemma keys_setitem k v d x :
  In x (map fst (Dict.setitem k v d)) <-> x = k \/ In x (map fst d).
Proof.
  induction d as [|[k' v'] d IH]; simpl.
  - split; (intros [H|[]]; left; done).
  - destruct (String.eqb k' k) eqn:E; simpl.
    + apply String.eqb_eq in E as ->.
      split; [intros [H|H]; auto|intros [H|[H|H]]; auto].
    + rewrite IH. tauto.
Qed.

Lemma NoDup_setitem k v d :
  NoDup (map fst d) -> NoDup (map fst (Dict.setitem k v d)).
Proof.
  induction d as [|[k' v'] d IH]; simpl; intros Hd.
  - repeat constructor. by intros ?%elem_of_nil.
  - apply NoDup_cons in Hd as [Hnot Hd].
    destruct (String.eqb k' k) eqn:E; simpl.
    + by apply NoDup_cons.
    + apply NoDup_cons. split; [|by apply IH].
      rewrite list_elem_of_In, keys_setitem. intros [->|Hin].
      * by rewrite String.eqb_refl in E.
      * by apply Hnot, list_elem_of_In.
Qed.

Lemma values_setitem k v d (P : V -> Prop) :
  P v -> Forall (fun item => P item.2) d ->
  Forall (fun item => P item.2) (Dict.setitem k v d).
Proof.
  intros Hv. induction 1 as [|[k' v'] d Hx Hd IH]; simpl.
  - by repeat constructor.
  - destruct (String.eqb k' k); by constructor.
Qed.

Lemma getitem_notin k d :
  ~ In k (map fst d) -> Dict.getitem k d = Py.Raise (Py.KeyError k).
Proof.
  induction d as [|[k' v'] d IH]; simpl; [done|]. intros Hnot.
  destruct (String.eqb k' k) eqn:E.
  - apply String.eqb_eq in E. tauto.
  - apply IH. tauto.
Qed.

Lemma getitem_in k d :
  In k (map fst d) -> exists v, Dict.getitem k d = Py.Ok v /\ In (k, v) d.
Proof.
  induction d as [|[k' v'] d IH]; simpl; [done|]. intros Hin.
  destruct (String.eqb k' k) eqn:E.
  - apply String.eqb_eq in E as ->. eauto.
  - destruct IH as (v & Hv & Hinv); [|by eauto].
    destruct Hin as [->|Hin]; [by rewrite String.eqb_refl in E|done].
Qed.

End Laws.

(** Storing under the names of a list, one after the other, into the
    items of the same names. *)
Lemma foldl_setitem_names {V} (f g : string -> V) (names : list string) :
  forall pre,
    NoDup (pre ++ names) ->
    foldl (fun d x => Dict.setitem x (f x) d)
      (map (fun x => (x, f x)) pre ++ map (fun x => (x, g x)) names) names
    = map (fun x => (x, f x)) (pre ++ names).
Proof.
  induction names as [|x names IH]; intros pre Hnd; simpl.
  - by rewrite !List.app_nil_r.
  - rewrite setitem_app_in.
    2:{ rewrite map_map. simpl. rewrite map_id.
        apply NoDup_app in Hnd as (_ & Hnot & _). intros Hin.
        apply (Hnot x); [by apply list_elem_of_In|by left]. }
    specialize (IH (pre ++ [x])). rewrite <- app_assoc in IH. simpl in IH.
    rewrite map_app in IH. simpl in IH. rewrite <- app_assoc in IH. simpl in IH.
    by apply IH.
Qed.

(** Storing under names that are not there yet. *)
Lemma foldl_setitem_fresh {V} (f : string -> V) (names : list string) :
  forall pre,
    NoDup (pre ++ names) ->
    foldl (fun d x => Dict.setitem x (f x) d) (map (fun x => (x, f x)) pre) names
    = map (fun x => (x, f x)) (pre ++ names).
Proof.
  induction names as [|x names IH]; intros pre Hnd; simpl.
  - by rewrite List.app_nil_r.
  - rewrite setitem_notin.
    2:{ rewrite map_map. simpl. rewrite map_id.
        apply NoDup_app in Hnd as (_ & Hnot & _). intros Hin.
        apply (Hnot x); [by apply list_elem_of_In|by left]. }
    specialize (IH (pre ++ [x])). rewrite <- app_assoc in IH. simpl in IH.
    rewrite map_app in IH. simpl in IH. by apply IH.
Qed.

Lemma create_dfs_fold (names : list string) : forall d,
  (forall x, In x (map fst (foldl (fun dfs x => Dict.setitem x [] dfs) d names))
             <-> In x (map fst d) \/ In x names)
  /\ (NoDup (map fst d) ->
      NoDup (map fst (foldl (fun dfs x => Dict.setitem x [] dfs) d names)))
  /\ (Forall (fun item : string * Merge.DataFrame => item.2 = []) d ->
      Forall (fun item : string * Merge.DataFrame => item.2 = [])
        (foldl (fun dfs x => Dict.setitem x [] dfs) d names)).
Proof.
  induction names as [|n names IH]; intros d; simpl.
  - split; [tauto|done].
  - destruct (IH (Dict.setitem n [] d)) as (Hkeys & Hnd & Hall).
    split; [|split].
    + intros x. rewrite Hkeys, keys_setitem. simpl.
      split; [intros [[->|H]|H]; auto|intros [H|[->|H]]; auto].
    + intros Hd. by apply Hnd, NoDup_setitem.
    + intros Hd. apply Hall. by apply (values_setitem n [] d (fun v => v = [])).
Qed.

Lemma NoDup_platforms : NoDup platforms.
Proof. apply (bool_decide_unpack _). vm_compute. reflexivity. Qed.

End DictFacts.

(** [create_dfs] gives a dictionary with one key for each name that occurs
    in [names], however often it occurs, and an empty frame under each:
    reading a name of the list gives an empty frame, reading any other
    name raises [KeyError].  For names without repetition the items are the
    names in the order of the list; the names of [platforms] are such. *)
Theorem create_dfs_has_one_empty_frame_per_name (names : list string) :
  NoDup (map fst (Merge.create_dfs names))
  /\ (forall x, In x (map fst (Merge.create_dfs names)) <-> In x names)
  /\ (forall x df, In (x, df) (Merge.create_dfs names) -> df = [])
  /\ (forall x, In x names -> Dict.getitem x (Merge.create_dfs names) = Py.Ok [])
  /\ (forall x, ~ In x names ->
        Dict.getitem x (Merge.create_dfs names) = Py.Raise (Py.KeyError x))
  /\ (NoDup names -> Merge.create_dfs names = map (fun x => (x, [])) names)
  /\ Merge.create_dfs platforms = map (fun x => (x, [])) platforms.
Proof.
  destruct (DictFacts.create_dfs_fold names []) as (Hkeys & Hnd & Hall).
  fold (Merge.create_dfs names) in Hkeys, Hnd, Hall.
  assert (forall x df, In (x, df) (Merge.create_dfs names) -> df = [])
    as Hempty.
  { intros x df Hin. specialize (Hall (Forall_nil_2 _)).
    rewrite Forall_forall in Hall. by apply (Hall (x, df)), list_elem_of_In. }
  split; [apply Hnd; constructor|].
  split; [intros x; rewrite Hkeys; simpl; tauto|].
  split; [done|]. split; [|split; [|split]].
  - intros x Hin.
    destruct (DictFacts.getitem_in x (Merge.create_dfs names))
      as (v & Hv & Hinv); [apply Hkeys; by right|].
    by rewrite Hv, (Hempty x v Hinv).
  - intros x Hnot. apply DictFacts.getitem_notin. rewrite Hkeys. simpl. tauto.
  - intros Hnames.
    by apply (DictFacts.foldl_setitem_fresh (fun _ => []) names []).
  - apply (DictFacts.foldl_setitem_fresh (fun _ => []) platforms []).
    apply DictFacts.NoDup_platforms.
Qed.

(** ** The platform loop and the whole script *)

Section ScriptFacts.
Import Script.

Variable requests_get : string -> Requests.outcome.
Variable pad_year : bool.
Variable writable : string -> bool.
Variable head_text : Merge.DataFrame -> option string.

Local Abbreviation paginate := (paginate requests_get pad_year).
Local Abbreviation for_platforms := (for_platforms requests_get pad_year writable).
Local Abbreviation script_for :=
  (script_for requests_get pad_year writable head_text).

Local Abbreviation served := (served requests_get writable).

Lemma paginate_ends_after url_of pages fuel w :
  ends_after requests_get url_of pages -> length pages < fuel ->
  exists st,
    paginate url_of fuel w = Finished st
    /\ all_games_data st = records_of_pages pad_year pages
    /\ requested (io st) = requested w ++ map url_of (seq 1 (S (length pages))).
Proof.
  intros [Hpages Hend] Hfuel.
  replace fuel with (length pages + S (fuel - S (length pages))) by lia.
  rewrite (paginate_has_cards _ _ _ pages w _ Hpages). simpl.
  destruct Hend as [Hbad|Hempty].
  - rewrite (loop_body_bad_status _ _ _ _ _ _ Hbad). eexists. split; [done|].
    simpl. split; [done|].
    change (requested (asked (url_of (S (length pages)))
                         (asked_pages url_of 1 (length pages) w))
            = requested w ++ map url_of (seq 1 (S (length pages)))).
    rewrite <- (asked_pages_S url_of 1). apply requested_asked_pages.
  - rewrite (loop_body_no_cards _ _ _ _ _ _ Hempty). eexists. split; [done|].
    simpl. split; [done|].
    change (requested (asked (url_of (S (length pages)))
                         (asked_pages url_of 1 (length pages) w))
            = requested w ++ map url_of (seq 1 (S (length pages)))).
    rewrite <- (asked_pages_S url_of 1). apply requested_asked_pages.
Qed.

Lemma paginate_fails_after url_of pages fuel w :
  (forall i soup, pages !! i = Some soup ->
                  has_cards requests_get (url_of (S i)) soup) ->
  requests_get (url_of (S (length pages))) = Requests.Fails ->
  length pages < fuel ->
  exists st,
    paginate url_of fuel w = Crashed Py.RequestException st
    /\ requested (io st) = requested w ++ map url_of (seq 1 (S (length pages))).
Proof.
  intros Hpages Hfails Hfuel.
  replace fuel with (length pages + S (fuel - S (length pages))) by lia.
  rewrite (paginate_has_cards _ _ _ pages w _ Hpages). simpl.
  rewrite (loop_body_raises _ _ _ _ _ _ Hfails). eexists. split; [done|].
  simpl.
  change (requested (asked (url_of (S (length pages)))
                       (asked_pages url_of 1 (length pages) w))
          = requested w ++ map url_of (seq 1 (S (length pages)))).
  rewrite <- (asked_pages_S url_of 1). apply requested_asked_pages.
Qed.

(** The loop over platforms of which the first ones are all served. *)
Lemma for_platforms_app pages_of fuel rest before : forall d s,
  (forall p, In p before -> served pages_of fuel p) ->
  exists w',
    for_platforms fuel (before ++ rest) d s
    = for_platforms fuel rest
        (foldl (fun d p =>
                  Dict.setitem p (records_of_pages pad_year (pages_of p)) d)
           d before)
        (Session w' (written s ++ platform_files pad_year pages_of before))
    /\ requested w'
       = requested (console s) ++ platform_requests pages_of before.
Proof.
  induction before as [|p names IH]; intros d s Hserved.
  - exists (console s). unfold platform_files, platform_requests. simpl.
    rewrite !List.app_nil_r. by destruct s.
  - destruct (Hserved p (or_introl eq_refl)) as (Hends & Hfuel & Hw).
    destruct (paginate_ends_after _ _ fuel (console s) Hends Hfuel)
      as (st & Hst & Hdata & Hreq).
    simpl. rewrite Hst, DictFacts.getitem_setitem. unfold to_csv.
    rewrite Hw. simpl.
    destruct (IH (Dict.setitem p (all_games_data st) d)
                (Session (io st)
                   (written s ++ [(platform_csv p, Records (all_games_data st))])))
      as (w' & Hrun & Hreq'); [intros q Hq; apply Hserved; by right|].
    exists w'. rewrite Hrun. simpl in *. rewrite Hdata.
    unfold platform_files, platform_requests in *. simpl.
    rewrite <- !app_assoc. split; [done|]. rewrite Hreq', Hreq.
    by rewrite <- !app_assoc.
Qed.

Lemma for_platforms_served pages_of fuel names d s :
  (forall p, In p names -> served pages_of fuel p) ->
  exists w',
    for_platforms fuel names d s
    = Returned
        (foldl (fun d p =>
                  Dict.setitem p (records_of_pages pad_year (pages_of p)) d)
           d names)
        (Session w' (written s ++ platform_files pad_year pages_of names))
    /\ requested w'
       = requested (console s) ++ platform_requests pages_of names.
Proof.
  intros Hserved.
  destruct (for_platforms_app pages_of fuel [] names d s Hserved)
    as (w' & Hrun & Hreq).
  rewrite List.app_nil_r in Hrun. by exists w'.
Qed.

Lemma create_dfs_NoDup (names : list string) :
  NoDup names -> Merge.create_dfs names = map (fun x => (x, [])) names.
Proof.
  intros Hnames.
  by apply (DictFacts.foldl_setitem_fresh (fun _ => []) names []).
Qed.

Lemma for_platforms_frames pages_of fuel names s :
  NoDup names ->
  (forall p, In p names -> served pages_of fuel p) ->
  exists w',
    for_platforms fuel names (Merge.create_dfs names) s
    = Returned (platform_frames pad_year pages_of names)
        (Session w' (written s ++ platform_files pad_year pages_of names))
    /\ requested w'
       = requested (console s) ++ platform_requests pages_of names.
Proof.
  intros Hnames Hserved.
  destruct (for_platforms_served pages_of fuel names (Merge.create_dfs names) s
              Hserved) as (w' & Hrun & Hreq).
  exists w'. split; [|done]. rewrite Hrun. f_equal.
  rewrite create_dfs_NoDup by done.
  by apply (DictFacts.foldl_setitem_names
              (fun p => records_of_pages pad_year (pages_of p))
              (fun _ => []) names []).
Qed.

(** The platform loop keeps the platforms apart and in order.  When every
    platform of the list (no name twice) is served, each ends with the
    records of its own pages in page order, under its own name and in its
    own file, the items in the order of the list; a platform whose first
    page already fails has an empty frame, and the platforms after it are
    scraped all the same.  One request more than it has pages is made for
    each. *)
Theorem each_platform_gets_its_own_records
    (pages_of : string -> list Bs4.soup) (fuel : nat) (names : list string)
    (s : session) :
  NoDup names ->
  (forall p, In p names -> served pages_of fuel p) ->
  exists w',
    for_platforms fuel names (Merge.create_dfs names) s
    = Returned (platform_frames pad_year pages_of names)
        (Session w' (written s ++ platform_files pad_year pages_of names))
    /\ requested w'
       = requested (console s) ++ platform_requests pages_of names
    /\ (forall p, In p names -> pages_of p = [] ->
          In (p, []) (platform_frames pad_year pages_of names)).
Proof.
  intros Hnames Hserved.
  destruct (for_platforms_frames pages_of fuel names s Hnames Hserved)
    as (w' & Hrun & Hreq).
  exists w'. split; [done|]. split; [done|].
  intros p Hp Hnone. unfold platform_frames. apply in_map_iff.
  exists p. by rewrite Hnone.
Qed.

(** The platform loop stops at the first platform that goes wrong, and
    what that platform had gathered is lost.  If [requests.get] raises on
    one of its pages, or if its file cannot be written, the script ends
    there: the platforms before it have their files, this one has none, and
    no platform after it is asked for. *)
Theorem platform_loop_ends_at_the_first_failure
    (pages_of : string -> list Bs4.soup) (fuel : nat)
    (before : list string) (platform : string) (after : list string)
    (d : list (string * Merge.DataFrame)) (s : session) :
  (forall p, In p before -> served pages_of fuel p) ->
  length (pages_of platform) < fuel ->
  (forall i soup, pages_of platform !! i = Some soup ->
                  has_cards requests_get (platform_url platform (S i)) soup) ->
  (requests_get (platform_url platform (S (length (pages_of platform))))
   = Requests.Fails ->
   exists w',
     for_platforms fuel (before ++ platform :: after) d s
     = Failed (Exception Py.RequestException)
         (Session w' (written s ++ platform_files pad_year pages_of before))
     /\ requested w'
        = requested (console s)
          ++ platform_requests pages_of (before ++ [platform]))
  /\ (bad_status requests_get
        (platform_url platform (S (length (pages_of platform))))
      \/ no_cards requests_get
           (platform_url platform (S (length (pages_of platform)))) ->
      writable (platform_csv platform) = false ->
      exists w',
        for_platforms fuel (before ++ platform :: after) d s
        = Failed (OSError (platform_csv platform))
            (Session w' (written s ++ platform_files pad_year pages_of before))
        /\ requested w'
           = requested (console s)
             ++ platform_requests pages_of (before ++ [platform])).
Proof.
  intros Hserved Hfuel Hpages.
  destruct (for_platforms_app pages_of fuel (platform :: after) before d s
              Hserved) as (w' & Hrun & Hreq).
  assert (platform_requests pages_of (before ++ [platform])
          = platform_requests pages_of before
            ++ map (platform_url platform)
                 (seq 1 (S (length (pages_of platform))))) as Happ.
  { unfold platform_requests. rewrite map_app, concat_app. simpl.
    by rewrite List.app_nil_r. }
  rewrite Hrun, Happ, app_assoc, <- Hreq. split.
  - intros Hfails.
    destruct (paginate_fails_after _ _ fuel w' Hpages Hfails Hfuel)
      as (st & Hst & Hreq').
    exists (io st). simpl. by rewrite Hst.
  - intros Hend Hw.
    destruct (paginate_ends_after _ _ fuel w' (conj Hpages Hend) Hfuel)
      as (st & Hst & Hdata & Hreq').
    exists (io st). simpl. rewrite Hst, DictFacts.getitem_setitem.
    unfold to_csv. by rewrite Hw.
Qed.

Lemma paginate_crashed url_of fuel w e st :
  paginate url_of fuel w = Crashed e st ->
  e = Py.RequestException \/ e = Py.ParserRejectedMarkup.
Proof.
  unfold paginate. intros Hrun.
  destruct (while_true_cases requests_get pad_year url_of fuel [] 1 w)
    as (pages & _ & Hres).
  rewrite Hrun in Hres. destruct Hres as (_ & [[-> _]|[-> _]] & _); auto.
Qed.

(** The platform loop fails by a request or a body that raises, or by a
    file it cannot write; a [KeyError] it never raises. *)
Lemma for_platforms_failed fuel names : forall d s e s',
  for_platforms fuel names d s = Failed e s' ->
  e = Exception Py.RequestException
  \/ e = Exception Py.ParserRejectedMarkup
  \/ exists path, e = OSError path /\ writable path = false.
Proof.
  induction names as [|p names IH]; intros d s e s'; simpl; [done|].
  destruct (paginate (platform_url p) fuel (console s)) as [st|e' st|st] eqn:Hst;
    [| |done].
  - rewrite DictFacts.getitem_setitem. unfold to_csv.
    destruct (writable (platform_csv p)) eqn:Hw.
    + apply IH.
    + intros [= <- <-]. right. right. eauto.
  - apply paginate_crashed in Hst as [-> | ->]; intros [= <- <-]; auto.
Qed.

Lemma for_platforms_written fuel names : forall d s d' s',
  for_platforms fuel names d s = Returned d' s' ->
  exists files, written s' = written s ++ files.
Proof.
  induction names as [|p names IH]; intros d s d' s'; simpl.
  - intros [= <- <-]. exists []. by rewrite List.app_nil_r.
  - destruct (paginate (platform_url p) fuel (console s)) as [st|e' st|st];
      [|done|done].
    rewrite DictFacts.getitem_setitem. unfold to_csv.
    destruct (writable (platform_csv p)); [|done].
    intros Hrun. apply IH in Hrun as [files Hfiles]. simpl in Hfiles.
    rewrite <- app_assoc in Hfiles. eauto.
Qed.

(** A [KeyError] ends the script in one way only: it is the [KeyError] for
    [title] of the merge, raised after all the scraping.  The catalogue
    loop had stopped without a record (the catalogue file holds the empty
    frame), every platform had been scraped and its file written, and some
    platform has a record.  Neither the extraction nor the dictionary of
    frames raises one. *)
Theorem a_KeyError_comes_from_a_catalogue_without_records
    (names : list string) (fuel : nat) (w : world) (key : string)
    (s : session) :
  script_for names fuel w = Failed (Exception (Py.KeyError key)) s ->
  key = "title"
  /\ (exists st,
        paginate catalogue_url fuel w = Finished st /\ all_games_data st = [])
  /\ (exists s0 platforms_dfs,
        for_platforms fuel names (Merge.create_dfs names) s0
        = Returned platforms_dfs s
        /\ Exists (fun item => item.2 <> []) platforms_dfs)
  /\ (exists files, written s = (catalogue_csv, Records []) :: files).
Proof.
  unfold script_for, Script.script_for.
  destruct (paginate catalogue_url fuel w) as [st|e' st|st] eqn:Hst; [| |done].
  2:{ apply paginate_crashed in Hst as [-> | ->]; done. }
  destruct (head_text (all_games_data st)) as [text|]; [|done].
  unfold to_csv at 1. destruct (writable catalogue_csv) eqn:Hw; [|done].
  simpl.
  destruct (for_platforms fuel names _ _) as [d' s'|e' s'|s'] eqn:Hloop; [| |done].
  2:{ intros [= -> <-].
      by destruct (for_platforms_failed _ _ _ _ _ _ Hloop)
        as [?|[?|(path & ? & _)]]. }
  destruct (Merge.merge_platform_dfs (all_games_data st) d') as [out|e'] eqn:Hm.
  { unfold to_csv. by rewrite Hw. }
  intros [= -> <-].
  destruct (all_games_data st) as [|g gs] eqn:Hdata.
  2:{ by rewrite MergeFacts.merge_platform_dfs_spec in Hm. }
  unfold Merge.merge_platform_dfs in Hm. simpl in Hm.
  rewrite MergeFacts.merge_frames_empty in Hm.
  destruct (forallb _ d') eqn:Hall; [done|]. injection Hm as <-.
  split; [done|]. split; [by exists st|]. split.
  - eexists _, d'. split; [apply Hloop|]. by apply forallb_no_record.
  - apply for_platforms_written in Hloop as [files Hfiles]. simpl in Hfiles.
    eauto.
Qed.

Lemma records_of_pages_nonempty url_of (pages : list Bs4.soup) :
  (forall i soup, pages !! i = Some soup ->
                  has_cards requests_get (url_of (S i)) soup) ->
  pages <> [] -> records_of_pages pad_year pages <> [].
Proof.
  intros Hpages Hne. destruct pages as [|soup pages]; [done|].
  destruct (Hpages 0 soup eq_refl) as [_ Hcards].
  unfold records_of_pages. simpl. intros Heq.
  apply app_eq_nil in Heq as [Heq _].
  apply (f_equal length) in Heq. rewrite records_of_length in Heq.
  by destruct (Bs4.find_all soup).
Qed.

(** From end to end, on a site that answers.  Suppose the catalogue has at
    least one page with cards and then a page that fails or has no card;
    every platform of the list (no name twice) is served: its scope ends
    the same way, and its file can be written; the catalogue file can be
    written; [print(df.head())] succeeds; and the loops are given turns
    enough.  Then the script returns the catalogue's records in page order,
    each with the platforms and scores the merge gives it from the
    platforms' own records; it has written the catalogue file, then one
    file for each platform, then the catalogue file again with the merged
    frame, and has asked for the catalogue's pages first and then for each
    platform's. *)
Theorem script_merges_what_it_scraped
    (cpages : list Bs4.soup) (pages_of : string -> list Bs4.soup)
    (names : list string) (fuel : nat) (w : world) (text : string) :
  NoDup names ->
  cpages <> [] ->
  ends_after requests_get catalogue_url cpages ->
  length cpages < fuel ->
  head_text (records_of_pages pad_year cpages) = Some text ->
  writable catalogue_csv = true ->
  (forall p, In p names -> served pages_of fuel p) ->
  exists w',
    script_for names fuel w
    = Returned
        (map (row_after (platform_frames pad_year pages_of names))
           (records_of_pages pad_year cpages))
        (Session w'
           ((catalogue_csv, Records (records_of_pages pad_year cpages))
            :: platform_files pad_year pages_of names
            ++ [(catalogue_csv,
                 Merged
                   (map (row_after (platform_frames pad_year pages_of names))
                      (records_of_pages pad_year cpages)))]))
    /\ requested w'
       = requested w ++ map catalogue_url (seq 1 (S (length cpages)))
         ++ platform_requests pages_of names.
Proof.
  intros Hnames Hne Hends Hfuel Htext Hw Hserved.
  unfold script_for, Script.script_for.
  destruct (paginate_ends_after _ _ fuel w Hends Hfuel)
    as (st & -> & Hdata & Hreq).
  rewrite Hdata, Htext. unfold to_csv at 1. rewrite Hw. simpl.
  destruct (for_platforms_frames pages_of fuel names
              (Session (print text (io st))
                 [(catalogue_csv, Records (records_of_pages pad_year cpages))])
              Hnames Hserved) as (w' & -> & Hreq').
  rewrite MergeFacts.merge_platform_dfs_spec
    by (apply (records_of_pages_nonempty catalogue_url); [apply Hends|done]).
  unfold to_csv. rewrite Hw. simpl. exists w'. split; [done|].
  rewrite Hreq'. simpl. by rewrite Hreq, <- app_assoc.
Qed.

(** Without a catalogue.  Suppose the first page of the catalogue fails or
    has no card; every platform of the list (no name twice) is served: its
    scope ends by a page that fails or has no card, and its file can be
    written; the catalogue file can be written; [print(df.head())]
    succeeds; the loops are given turns enough; and some platform has a
    page with cards.  Then every platform is scraped and every platform
    file written, and the merge raises [KeyError] for [title]: the script
    ends by that exception and the catalogue file is left with the empty
    frame. *)
Theorem script_without_catalogue_ends_by_KeyError
    (pages_of : string -> list Bs4.soup)
    (names : list string) (fuel : nat) (w : world) (text : string) :
  NoDup names ->
  ends_after requests_get catalogue_url [] ->
  0 < fuel ->
  head_text [] = Some text ->
  writable catalogue_csv = true ->
  (forall p, In p names -> served pages_of fuel p) ->
  (exists p, In p names /\ pages_of p <> []) ->
  exists w',
    script_for names fuel w
    = Failed (Exception (Py.KeyError "title"))
        (Session w'
           ((catalogue_csv, Records [])
            :: platform_files pad_year pages_of names))
    /\ requested w'
       = requested w ++ [catalogue_url 1] ++ platform_requests pages_of names.
Proof.
  intros Hnames Hends Hfuel Htext Hw Hserved (p & Hp & Hpages).
  unfold script_for, Script.script_for.
  destruct (paginate_ends_after _ _ fuel w Hends Hfuel)
    as (st & -> & Hdata & Hreq).
  rewrite Hdata. unfold records_of_pages at 1 2. simpl concat.
  rewrite Htext. unfold to_csv at 1. rewrite Hw. simpl.
  destruct (for_platforms_frames pages_of fuel names
              (Session (print text (io st)) [(catalogue_csv, Records [])])
              Hnames Hserved) as (w' & -> & Hreq').
  unfold Merge.merge_platform_dfs. simpl Merge.init_columns.
  rewrite MergeFacts.merge_frames_empty.
  assert (forallb (fun item : string * Merge.DataFrame =>
                     match item.2 with [] => true | _ => false end)
            (platform_frames pad_year pages_of names) = false) as ->.
  { apply forallb_no_record, Exists_exists.
    exists (p, records_of_pages pad_year (pages_of p)). split.
    - apply list_elem_of_In, in_map_iff. by exists p.
    - simpl. destruct (Hserved p Hp) as ((Hcards & _) & _ & _).
      by apply (records_of_pages_nonempty (platform_url p)). }
  exists w'. split; [done|]. rewrite Hreq'. simpl.
  by rewrite Hreq, <- app_assoc.
Qed.

End ScriptFacts.

(** ** More on the rating *)

(** The rating is the whole word at the first place where the text has
    ["Rated"], one or more blanks and a word character: all the word
    characters from there on, up to the first character that is none or to
    the end; and ["Rating not found"] when there is no such place.  So a
    word is never cut short, and of two ratings in the text the first is
    taken. *)
Theorem rating_is_the_whole_first_word (meta_info_section : Bs4.tag) :
  extract_rating meta_info_section
  = match first_rated (Bs4.get_text "" false meta_info_section) with
    | Some word => Py.Str word
    | None => Py.Str "Rating not found"
    end.
Proof.
  unfold extract_rating, Re.search.
  pose proof (GreedyFacts.search_from_rated
                (Bs4.get_text "" false meta_info_section) 0) as H.
  destruct (first_rated _) as [word|].
  - destruct H as (m & -> & ->). done.
  - by rewrite H.
Qed.

(** * The further properties at work on the sample site *)

Lemma rows_with_one_title_get_the_same_columns_witness :
  exists out ri rj,
    Merge.merge_platform_dfs
      [sample_game "Game X" "90"; sample_game "Game X" "70"]
      [("pc", [sample_game "Game X" "85"]); ("ps5", [sample_game "Game Y" "60"])]
    = Py.Ok out
    /\ out !! 0 = Some ri /\ out !! 1 = Some rj
    /\ Merge.platforms ri = Merge.platforms rj
    /\ Merge.platform_scores ri = Merge.platform_scores rj.
Proof.
  eexists _, _, _. split; [vm_compute; reflexivity|].
  split; [reflexivity|]. split; [reflexivity|].
  eapply (rows_with_one_title_get_the_same_columns
           [sample_game "Game X" "90"; sample_game "Game X" "70"]
           [("pc", [sample_game "Game X" "85"]);
            ("ps5", [sample_game "Game Y" "60"])]
           _ 0 1 (sample_game "Game X" "90") (sample_game "Game X" "70"));
    reflexivity.
Defined.

Lemma row_platforms_are_names_of_frames_witness :
  exists out r,
    Merge.merge_platform_dfs
      [sample_game "Game X" "90"]
      [("pc", [sample_game "Game X" "85"]); ("ps5", [sample_game "Game Y" "60"])]
    = Py.Ok out
    /\ out !! 0 = Some r
    /\ (forall p, In p (Merge.platforms r) -> In p ["pc"; "ps5"])
    /\ length (Merge.platforms r) <= 2.
Proof.
  eexists _, _. split; [vm_compute; reflexivity|]. split; [reflexivity|].
  eapply (row_platforms_are_names_of_frames
           [sample_game "Game X" "90"]
           [("pc", [sample_game "Game X" "85"]);
            ("ps5", [sample_game "Game Y" "60"])] _ 0);
    reflexivity.
Defined.

Lemma text_fields_are_trimmed_witness :
  exists g,
    extract_game_data false page_one = Py.Ok [g]
    /\ exists t d m,
         title g = Py.Str t /\ description g = Py.Str d /\ metascore g = Py.Str m
         /\ Str.strip t = t /\ Str.strip d = d /\ Str.strip m = m.
Proof.
  eexists. split; [vm_compute; reflexivity|].
  eapply (text_fields_are_trimmed false page_one [_]);
    [vm_compute; reflexivity|by left].
Defined.

Lemma release_date_and_rating_are_well_formed_witness :
  exists g,
    extract_game_data false page_two = Py.Ok [g]
    /\ (release_date g = Py.Str "Unknown"
        \/ exists d,
             Datetime.valid (Datetime.year d) (Datetime.month d) (Datetime.day d)
             = true
             /\ release_date g = Py.Str (Datetime.strftime false d))
    /\ (rating g = Py.Str "Rating not found"
        \/ exists word,
             rating g = Py.Str word /\ word <> ""
             /\ all_chars Str.isword word = true).
Proof.
  eexists. split; [vm_compute; reflexivity|].
  eapply (release_date_and_rating_are_well_formed false page_two [_]);
    [vm_compute; reflexivity|by left].
Defined.

Lemma NoDup_three_platforms : NoDup ["pc"; "ps5"; "xbox"].
Proof.
  apply NoDup_ListNoDup.
  repeat (constructor; [simpl; intros H; repeat destruct H as [H|H]; done|]).
  constructor.
Qed.

Lemma small_site_served p :
  In p ["pc"; "ps5"; "xbox"] -> served small_site any_path small_site_pages 2 p.
Proof.
  intros [<-|[<-|[<-|[]]]].
  - split; [split|split; [simpl; lia|done]].
    + intros [|i] soup; simpl; intros [= <-]; by split.
    + left. by exists 404%Z, (Bs4.Tree empty_page).
  - split; [split|split; [simpl; lia|done]].
    + intros [|i] soup; simpl; intros [= <-]; by split.
    + left. by exists 404%Z, (Bs4.Tree empty_page).
  - split; [split|split; [simpl; lia|done]].
    + intros i soup; simpl; by intros [=].
    + left. by exists 404%Z, (Bs4.Tree empty_page).
Qed.

Lemma each_platform_gets_its_own_records_witness :
  exists w',
    Script.for_platforms small_site false any_path 2 ["pc"; "ps5"; "xbox"]
      (Merge.create_dfs ["pc"; "ps5"; "xbox"]) (Script.Session quiet [])
    = Script.Returned
        [("pc", records_of false page_one); ("ps5", records_of false page_two);
         ("xbox", [])]
        (Script.Session w'
           [(Script.platform_csv "pc", Script.Records (records_of false page_one));
            (Script.platform_csv "ps5", Script.Records (records_of false page_two));
            (Script.platform_csv "xbox", Script.Records [])])
    /\ requested w'
       = [platform_url "pc" 1; platform_url "pc" 2;
          platform_url "ps5" 1; platform_url "ps5" 2; platform_url "xbox" 1].
Proof.
  destruct (each_platform_gets_its_own_records small_site false any_path
              small_site_pages 2 ["pc"; "ps5"; "xbox"] (Script.Session quiet [])
              NoDup_three_platforms small_site_served)
    as (w' & Hrun & Hreq & _).
  exists w'. rewrite Hrun, Hreq. split; vm_compute; reflexivity.
Defined.

Lemma site_with_outage_served p :
  In p ["pc"] -> served site_with_outage any_path site_with_outage_pages 2 p.
Proof.
  intros [<-|[]]. split; [split|split; [simpl; lia|done]].
  - intros [|i] soup; simpl; intros [= <-]; by split.
  - left. by exists 404%Z, (Bs4.Tree empty_page).
Qed.

Lemma platform_loop_ends_at_the_first_failure_witness :
  exists w',
    Script.for_platforms site_with_outage false any_path 2 ["pc"; "ps5"; "xbox"]
      (Merge.create_dfs ["pc"; "ps5"; "xbox"]) (Script.Session quiet [])
    = Script.Failed (Script.Exception Py.RequestException)
        (Script.Session w'
           [(Script.platform_csv "pc", Script.Records (records_of false page_one))])
    /\ requested w'
       = [platform_url "pc" 1; platform_url "pc" 2; platform_url "ps5" 1].
Proof.
  destruct (platform_loop_ends_at_the_first_failure site_with_outage false
              any_path site_with_outage_pages 2 ["pc"] "ps5" ["xbox"]
              (Merge.create_dfs ["pc"; "ps5"; "xbox"]) (Script.Session quiet [])
              site_with_outage_served (le_S _ _ (le_n 1)))
    as [Hfails _].
  { intros i soup. simpl. by intros [=]. }
  destruct (Hfails eq_refl) as (w' & Hrun & Hreq).
  exists w'. simpl app in Hrun. rewrite Hrun, Hreq.
  split; vm_compute; reflexivity.
Defined.

Lemma a_KeyError_comes_from_a_catalogue_without_records_witness :
  exists s,
    Script.script_for site_without_catalogue false any_path no_text ["pc"] 2
      quiet
    = Script.Failed (Script.Exception (Py.KeyError "title")) s
    /\ (exists st,
          paginate site_without_catalogue false catalogue_url 2 quiet
          = Finished st
          /\ all_games_data st = [])
    /\ (exists files,
          Script.written s = (Script.catalogue_csv, Script.Records []) :: files).
Proof.
  eexists. split; [vm_compute; reflexivity|].
  destruct (a_KeyError_comes_from_a_catalogue_without_records
              site_without_catalogue false any_path no_text ["pc"] 2 quiet
              "title" _ eq_refl) as (_ & Hst & _ & Hfiles).
  by split.
Defined.

Lemma small_site_catalogue : ends_after small_site catalogue_url [page_one].
Proof.
  split.
  - intros [|i] soup; simpl; intros [= <-]; by split.
  - left. by exists 404%Z, (Bs4.Tree empty_page).
Qed.

Lemma script_merges_what_it_scraped_witness :
  exists w',
    Script.script_for small_site false any_path no_text ["pc"; "ps5"; "xbox"]
      2 quiet
    = Script.Returned
        [Merge.Row
           (GameData (Py.Str "The Legend of Zelda: Ocarina of Time")
              (Py.Str "1998-11-23") (Py.Str "E")
              (Py.Str "As a young boy, Link is tricked by Ganondorf.")
              (Py.Str "99"))
           ["pc"] [Py.Str "99"]]
        (Script.Session w'
           [(Script.catalogue_csv, Script.Records (records_of false page_one));
            (Script.platform_csv "pc", Script.Records (records_of false page_one));
            (Script.platform_csv "ps5", Script.Records (records_of false page_two));
            (Script.platform_csv "xbox", Script.Records []);
            (Script.catalogue_csv,
             Script.Merged
               [Merge.Row
                  (GameData (Py.Str "The Legend of Zelda: Ocarina of Time")
                     (Py.Str "1998-11-23") (Py.Str "E")
                     (Py.Str "As a young boy, Link is tricked by Ganondorf.")
                     (Py.Str "99"))
                  ["pc"] [Py.Str "99"]])]).
Proof.
  destruct (script_merges_what_it_scraped small_site false any_path no_text
              [page_one] small_site_pages ["pc"; "ps5"; "xbox"] 2 quiet ""
              NoDup_three_platforms ltac:(discriminate) small_site_catalogue
              (le_n 2) eq_refl eq_refl small_site_served)
    as (w' & Hrun & _).
  exists w'. rewrite Hrun. vm_compute. reflexivity.
Defined.

Lemma site_without_catalogue_served p :
  In p ["pc"; "ps5"; "xbox"] ->
  served site_without_catalogue any_path small_site_pages 2 p.
Proof.
  intros [<-|[<-|[<-|[]]]].
  - split; [split|split; [simpl; lia|done]].
    + intros [|i] soup; simpl; intros [= <-]; by split.
    + left. by exists 404%Z, (Bs4.Tree empty_page).
  - split; [split|split; [simpl; lia|done]].
    + intros [|i] soup; simpl; intros [= <-]; by split.
    + left. by exists 404%Z, (Bs4.Tree empty_page).
  - split; [split|split; [simpl; lia|done]].
    + intros i soup; simpl; by intros [=].
    + left. by exists 404%Z, (Bs4.Tree empty_page).
Qed.

Lemma site_without_catalogue_ends : ends_after site_without_catalogue catalogue_url [].
Proof.
  split.
  - intros i soup. simpl. by intros [=].
  - left. by exists 404%Z, (Bs4.Tree empty_page).
Qed.

Lemma script_without_catalogue_ends_by_KeyError_witness :
  exists w',
    Script.script_for site_without_catalogue false any_path no_text
      ["pc"; "ps5"; "xbox"] 2 quiet
    = Script.Failed (Script.Exception (Py.KeyError "title"))
        (Script.Session w'
           [(Script.catalogue_csv, Script.Records []);
            (Script.platform_csv "pc", Script.Records (records_of false page_one));
            (Script.platform_csv "ps5", Script.Records (records_of false page_two));
            (Script.platform_csv "xbox", Script.Records [])])
    /\ requested w'
       = [catalogue_url 1; platform_url "pc" 1; platform_url "pc" 2;
          platform_url "ps5" 1; platform_url "ps5" 2; platform_url "xbox" 1].
Proof.
  destruct (script_without_catalogue_ends_by_KeyError site_without_catalogue
              false any_path no_text small_site_pages ["pc"; "ps5"; "xbox"] 2
              quiet "" NoDup_three_platforms site_without_catalogue_ends
              (le_S _ _ (le_n 1)) eq_refl eq_refl
              site_without_catalogue_served)
    as (w' & Hrun & Hreq).
  { exists "pc". split; [by left|discriminate]. }
  exists w'. rewrite Hrun, Hreq. split; vm_compute; reflexivity.
Defined.
